(** * Keyboard-to-printer bridge: key decoding, device discovery and print dispatch

    A shallow embedding of the JavaScript sources
    [keyboard-printer-v2-api.js] (key decoder, device locator, presence
    poller, print dispatcher) and of the ESC/POS text converter of the POS
    receipt script, together with the properties checked against them.

    Conventions.
    - A JavaScript string is a [string]: a sequence of code units below 256
      (the Latin-1 range).  [Buffer.from] of such a string is its UTF-8
      encoding, written out in [JsString.bufferFrom].
    - A byte buffer is a [list Z] of values in [0, 255].
    - Calls into the operating system (file system, child processes, the
      clock, the printer library) read their outcome from an explicit
      environment record and append to an explicit event log. *)

From Stdlib Require Import ZArith List Bool String Ascii Lia Arith.
Import ListNotations.

Local Open Scope string_scope.
Local Open Scope list_scope.

(* ====================================================================== *)
(** ** JavaScript string primitives used by the sources                    *)
(* ====================================================================== *)

Module JsString.

Definition newline : string := String (ascii_of_nat 10) EmptyString.
Definition tab : string := String (ascii_of_nat 9) EmptyString.

(** White space in the sense of [String.prototype.trim], restricted to
    code units below 256: TAB, LF, VT, FF, CR, SPACE and NBSP. *)
Definition isWhiteSpace (c : ascii) : bool :=
  let n := nat_of_ascii c in
  ((9 <=? n)%nat && (n <=? 13)%nat) || (n =? 32)%nat || (n =? 160)%nat.

Fixpoint trimStart (s : string) : string :=
  match s with
  | EmptyString => EmptyString
  | String c r => if isWhiteSpace c then trimStart r else s
  end.

Fixpoint trimEnd (s : string) : string :=
  match s with
  | EmptyString => EmptyString
  | String c r =>
      match trimEnd r with
      | EmptyString => if isWhiteSpace c then EmptyString else String c EmptyString
      | r' => String c r'
      end
  end.

Definition trim (s : string) : string := trimEnd (trimStart s).

(** [s.startsWith(p)] *)
Definition startsWith (p s : string) : bool := String.prefix p s.

(** [s.includes(sub)] *)
Fixpoint includes (sub s : string) : bool :=
  String.prefix sub s ||
  match s with
  | EmptyString => false
  | String _ r => includes sub r
  end.

(** [s.split(sep)] for a one-character separator. *)
Fixpoint split (sep : ascii) (s : string) : list string :=
  match s with
  | EmptyString => [EmptyString]
  | String c r =>
      if Ascii.eqb c sep then EmptyString :: split sep r
      else match split sep r with
           | [] => [String c EmptyString]
           | h :: t => String c h :: t
           end
  end.

Definition isLower (c : ascii) : bool :=
  let n := nat_of_ascii c in (97 <=? n)%nat && (n <=? 122)%nat.

Definition isUpper (c : ascii) : bool :=
  let n := nat_of_ascii c in (65 <=? n)%nat && (n <=? 90)%nat.

Definition upperChar (c : ascii) : ascii :=
  if isLower c then ascii_of_nat (nat_of_ascii c - 32) else c.

Definition lowerChar (c : ascii) : ascii :=
  if isUpper c then ascii_of_nat (nat_of_ascii c + 32) else c.

Fixpoint mapChars (f : ascii -> ascii) (s : string) : string :=
  match s with
  | EmptyString => EmptyString
  | String c r => String (f c) (mapChars f r)
  end.

(** [s.toUpperCase()] and [s.toLowerCase()] on the ASCII letters. *)
Definition toUpperCase : string -> string := mapChars upperChar.
Definition toLowerCase : string -> string := mapChars lowerChar.

(** [s.match(/[a-z]/)] as a truth value. *)
Fixpoint matchLower (s : string) : bool :=
  match s with
  | EmptyString => false
  | String c r => isLower c || matchLower r
  end.

(** [s.replace] of every double quote (code unit 34) by the empty
    string. *)
Fixpoint removeQuotes (s : string) : string :=
  match s with
  | EmptyString => EmptyString
  | String c r =>
      if (nat_of_ascii c =? 34)%nat then removeQuotes r
      else String c (removeQuotes r)
  end.

(** [s.slice(0, -1)] *)
Fixpoint dropLast (s : string) : string :=
  match s with
  | EmptyString => EmptyString
  | String c EmptyString => EmptyString
  | String c r => String c (dropLast r)
  end.

(** A string is truthy when it is not empty. *)
Definition truthy (s : string) : bool :=
  match s with EmptyString => false | _ => true end.

(** [n.toString(radix)] for an integer [n] and a radix up to 36: the
    digits of the absolute value, after a minus sign when [n] is negative.
    [String(n)] is the case of radix 10, for [n] below [1e21] in absolute
    value (from there on JavaScript prints an exponent).  The digits come
    out last first; [log2 |n| + 1] rounds are enough for every radix from 2
    up. *)
Definition digitChar (d : Z) : ascii :=
  if (d <? 10)%Z then ascii_of_nat (48 + Z.to_nat d)
  else ascii_of_nat (87 + Z.to_nat d).

Fixpoint toStringFuel (fuel : nat) (radix n : Z) (acc : string) : string :=
  match fuel with
  | O => acc
  | S f =>
      let acc' := String (digitChar (n mod radix)) acc in
      if (n / radix =? 0)%Z then acc' else toStringFuel f radix (n / radix) acc'
  end.

Definition toStringRadix (radix n : Z) : string :=
  let digits :=
    toStringFuel (S (Z.to_nat (Z.log2 (Z.abs n)))) radix (Z.abs n)
      EmptyString in
  if (n <? 0)%Z then String "-"%char digits else digits.

(** [Buffer.from(s)]: the UTF-8 encoding of a string of code units below
    256; a unit from 128 up takes two bytes. *)
Definition utf8Char (c : ascii) : list Z :=
  let n := Z.of_nat (nat_of_ascii c) in
  if (n <? 128)%Z then [n]
  else [Z.lor 192 (Z.shiftr n 6); Z.lor 128 (Z.land n 63)]%Z.

Fixpoint bufferFrom (s : string) : list Z :=
  match s with
  | EmptyString => []
  | String c r => utf8Char c ++ bufferFrom r
  end.

End JsString.

(* ====================================================================== *)
(** ** Key event decoder                                                   *)
(* ====================================================================== *)

Module KeyDecoder.
Import JsString.

Local Open Scope Z_scope.

(** The object literal [keyCodeMap], in source order. *)
Definition keyCodeMap : list (Z * string) :=
  [ (1, "ESC"); (2, "1"); (3, "2"); (4, "3"); (5, "4"); (6, "5"); (7, "6");
    (8, "7"); (9, "8"); (10, "9");
    (11, "0"); (12, "-"); (13, "="); (14, "BACKSPACE"); (15, "TAB");
    (16, "q"); (17, "w"); (18, "e"); (19, "r");
    (20, "t"); (21, "y"); (22, "u"); (23, "i"); (24, "o"); (25, "p");
    (26, "["); (27, "]"); (28, "ENTER");
    (29, "CTRL"); (30, "a"); (31, "s"); (32, "d"); (33, "f"); (34, "g");
    (35, "h"); (36, "j"); (37, "k");
    (38, "l"); (39, ";"); (40, "'"); (41, "`"); (42, "SHIFT"); (43, "\");
    (44, "z"); (45, "x"); (46, "c");
    (47, "v"); (48, "b"); (49, "n"); (50, "m"); (51, ","); (52, ".");
    (53, "/"); (54, "RSHIFT");
    (56, "LALT"); (57, "SPACE"); (58, "CAPSLOCK"); (59, "F1"); (60, "F2");
    (61, "F3"); (62, "F4");
    (63, "F5"); (64, "F6"); (65, "F7"); (66, "F8"); (67, "F9"); (68, "F10");
    (87, "F11"); (88, "F12");
    (96, "ENTER"); (97, "RCTRL"); (102, "HOME"); (103, "UP"); (104, "PGUP");
    (105, "LEFT");
    (106, "RIGHT"); (107, "END"); (108, "DOWN"); (109, "PGDN"); (110, "INS");
    (111, "DEL");
    (71, "7"); (72, "8"); (73, "9"); (74, "-"); (75, "4"); (76, "5");
    (77, "6"); (78, "+"); (79, "1");
    (80, "2"); (81, "3"); (82, "0"); (83, "."); (84, "ENTER") ].

(** The object literal [shiftMap] of [getCharFromKeyCode]. *)
Definition shiftMap : list (string * string) :=
  [ ("1", "!"); ("2", "@"); ("3", "#"); ("4", "$"); ("5", "%");
    ("6", "^"); ("7", "&"); ("8", "*"); ("9", "("); ("0", ")");
    ("-", "_"); ("=", "+"); ("[", "{"); ("]", "}"); ("\", "|");
    (";", ":"); ("'", String (ascii_of_nat 34) EmptyString);
    (",", "<"); (".", ">"); ("/", "?");
    ("`", "~") ].

(** Property lookup [obj[k]]: [None] stands for [undefined].  In an object
    literal a repeated key keeps its last value. *)
Fixpoint lookupZ (k : Z) (m : list (Z * string)) : option string :=
  match m with
  | [] => None
  | (k', v) :: r =>
      match lookupZ k r with
      | Some w => Some w
      | None => if k =? k' then Some v else None
      end
  end.

Fixpoint lookupS (k : string) (m : list (string * string)) : option string :=
  match m with
  | [] => None
  | (k', v) :: r =>
      match lookupS k r with
      | Some w => Some w
      | None => if String.eqb k k' then Some v else None
      end
  end.

(** What [getCharFromKeyCode] returns: [null] or a string. *)
Inductive JsChar : Type :=
| JNull : JsChar
| JStr : string -> JsChar.

(** [a !== b] on booleans. *)
Definition strictNe (a b : bool) : bool := negb (Bool.eqb a b).

Definition optTruthy (o : option string) : bool :=
  match o with Some s => truthy s | None => false end.

Definition getCharFromKeyCode (code : Z) (isShiftPressed isCapsLock : bool)
  : JsChar :=
  match lookupZ code keyCodeMap with
  | Some key =>
      if negb (truthy key) then JStr ""
      else if String.eqb key "SPACE" then JStr " "
      else if String.eqb key "BACKSPACE" then JNull
      else if String.eqb key "ENTER" then JStr newline
      else if String.eqb key "TAB" then JStr tab
      else if (Nat.eqb (String.length key) 1) && matchLower key then
        JStr (if strictNe isShiftPressed isCapsLock
              then toUpperCase key else key)
      else
        match (if isShiftPressed then lookupS key shiftMap else None) with
        | Some s =>
            if truthy s then JStr s
            else if Nat.eqb (String.length key) 1 then JStr key else JStr ""
        | None =>
            if Nat.eqb (String.length key) 1 then JStr key else JStr ""
        end
  | None => JStr ""
  end.

(** *** The read loop of a keyboard worker *)

Record KeyboardState : Type := mkState {
  isShiftPressed : bool;
  isCapsLock : bool
}.

(** One 24-byte input record, after [readUInt16LE(16)], [readUInt16LE(18)]
    and [readInt32LE(20)]. *)
Record InputEvent : Type := mkEvent {
  ev_type : Z;
  ev_code : Z;
  ev_value : Z
}.

Definition byteAt (buf : list Z) (i : nat) : Z := nth i buf 0.

Definition readUInt16LE (buf : list Z) (off : nat) : Z :=
  Z.lor (byteAt buf off) (Z.shiftl (byteAt buf (off + 1)) 8).

Definition readInt32LE (buf : list Z) (off : nat) : Z :=
  let u := Z.lor (Z.lor (byteAt buf off) (Z.shiftl (byteAt buf (off + 1)) 8))
                 (Z.lor (Z.shiftl (byteAt buf (off + 2)) 16)
                        (Z.shiftl (byteAt buf (off + 3)) 24)) in
  if u <? 2147483648 then u else u - 4294967296.

Definition parseRecord (buf : list Z) : InputEvent :=
  mkEvent (readUInt16LE buf 16) (readUInt16LE buf 18) (readInt32LE buf 20).

(** Messages posted to the parent thread. *)
Inductive Message : Type :=
| MsgShift (pressed : bool)
| MsgCapslock (on : bool)
| MsgKeypress (char : JsChar).

(** The body of [readLoop] for one record already read: the branch on
    [type === 1], then on the code and the value. *)
Definition processEvent (st : KeyboardState) (ev : InputEvent)
  : KeyboardState * list Message :=
  if ev_type ev =? 1 then
    if ev_code ev =? 42 then
      let pressed := ev_value ev =? 1 in
      (mkState pressed (isCapsLock st), [MsgShift pressed])
    else if ev_code ev =? 58 then
      if ev_value ev =? 1 then
        let caps := negb (isCapsLock st) in
        (mkState (isShiftPressed st) caps, [MsgCapslock caps])
      else (st, [])
    else if ev_value ev =? 1 then
      (st, [MsgKeypress (getCharFromKeyCode (ev_code ev)
                           (isShiftPressed st) (isCapsLock st))])
    else (st, [])
  else (st, []).

(** [readLoop] on the bytes one [readSync] delivered: only a full record of
    24 bytes is interpreted. *)
Definition readLoopStep (st : KeyboardState) (bytesRead : list Z)
  : KeyboardState * list Message :=
  if Nat.eqb (List.length bytesRead) 24
  then processEvent st (parseRecord bytesRead)
  else (st, []).

Fixpoint readLoop (st : KeyboardState) (records : list (list Z))
  : KeyboardState * list Message :=
  match records with
  | [] => (st, [])
  | r :: rest =>
      let '(st1, out1) := readLoopStep st r in
      let '(st2, out2) := readLoop st1 rest in
      (st2, out1 ++ out2)
  end.

(** The key-press output of a list of messages: the parent thread reacts to
    messages of type [keypress] only. *)
Fixpoint keypresses (ms : list Message) : list JsChar :=
  match ms with
  | [] => []
  | MsgKeypress c :: r => c :: keypresses r
  | _ :: r => keypresses r
  end.

(** [KeyboardManager.handleKeyPress]: the line accumulator; the second
    component is the line handed to [makeApiCallAndPrint], if any. *)
Definition handleKeyPress (currentLine : string) (char : JsChar)
  : string * option string :=
  match char with
  | JStr s =>
      if String.eqb s newline then
        if truthy (trim currentLine) then ("", Some (trim currentLine))
        else (currentLine, None)
      else if truthy s then (String.append currentLine s, None)
      else (currentLine, None)
  | JNull => (dropLast currentLine, None)
  end.

(** *** The read loop of the single-keyboard script

    [readKeyboardInput] keeps the line and the modifiers in the global
    [inputBuffer]; its [readEvents] handles key-down, then key-up, and
    nothing else. *)
Record InputBuffer : Type := mkBuffer {
  line : string;
  shift : bool;
  capsLock : bool
}.

(** One record of [readEvents], called with a printer: the new buffer and
    the line handed to [printToEpson], if any. *)
Definition readEvents (buf : InputBuffer) (ev : InputEvent)
  : InputBuffer * option string :=
  if ev_type ev =? 1 then
    if ev_value ev =? 1 then
      match getCharFromKeyCode (ev_code ev) (shift buf) (capsLock buf) with
      | JStr s =>
          if String.eqb s newline then
            (mkBuffer "" (shift buf) (capsLock buf), Some (line buf))
          else if negb (String.eqb s "") then
            (mkBuffer (String.append (line buf) s) (shift buf) (capsLock buf),
             None)
          else (buf, None)
      | JNull =>
          if (0 <? String.length (line buf))%nat then
            (mkBuffer (dropLast (line buf)) (shift buf) (capsLock buf), None)
          else (buf, None)
      end
    else if ev_value ev =? 0 then
      if (ev_code ev =? 42) || (ev_code ev =? 54) then
        (mkBuffer (line buf) false (capsLock buf), None)
      else (buf, None)
    else (buf, None)
  else (buf, None).

End KeyDecoder.


(* ====================================================================== *)
(** ** Control flow of the JavaScript sources                              *)
(* ====================================================================== *)

Module Effects.

(** How a statement list ends: it runs to its end, it executes a [return],
    or it throws. *)
Inductive Completion (R A : Type) : Type :=
| Normal (a : A)
| Return (r : R)
| Throw.

Arguments Normal {R A} a.
Arguments Return {R A} r.
Arguments Throw {R A}.

(** A statement list over a mutable state [S] (local variables and the log
    of calls made) inside a function that returns an [R]. *)
Definition M (S R A : Type) : Type := S -> Completion R A * S.

Definition ret {S R A} (a : A) : M S R A := fun s => (Normal a, s).

Definition bind {S R A B} (m : M S R A) (k : A -> M S R B) : M S R B :=
  fun s =>
    match m s with
    | (Normal a, s') => k a s'
    | (Return r, s') => (Return r, s')
    | (Throw, s') => (Throw, s')
    end.

Definition returnWith {S R A} (r : R) : M S R A := fun s => (Return r, s).

Definition throw {S R A} : M S R A := fun s => (Throw, s).

(** [try { body } catch (err) { handler }]: the state changes the body made
    before it threw are kept. *)
Definition tryCatch {S R A} (body handler : M S R A) : M S R A :=
  fun s =>
    match body s with
    | (Throw, s') => handler s'
    | other => other
    end.

Definition gets {S R A} (f : S -> A) : M S R A := fun s => (Normal (f s), s).

Definition modify {S R} (f : S -> S) : M S R unit := fun s => (Normal tt, f s).

Definition when {S R} (b : bool) (m : M S R unit) : M S R unit :=
  if b then m else ret tt.

(** [for (const x of l) { f x }] *)
Fixpoint forEach {S R A} (f : A -> M S R unit) (l : list A) : M S R unit :=
  match l with
  | [] => ret tt
  | x :: r => bind (f x) (fun _ => forEach f r)
  end.

Declare Scope js_scope.
Delimit Scope js_scope with js.

Notation "x <- m ;; k" := (bind m (fun x => k))
  (at level 61, m at next level, right associativity) : js_scope.
Notation "m ;; k" := (bind m (fun _ => k))
  (at level 61, right associativity) : js_scope.

End Effects.

(* ====================================================================== *)
(** ** Device locator and presence poller                                  *)
(* ====================================================================== *)

Module Locator.
Import JsString Effects.

Local Open Scope js_scope.

Record UsbDevice : Type := mkUsb {
  idVendor : Z;
  idProduct : Z
}.

Record Printer : Type := mkPrinter {
  model : string;
  vendorId : string;
  productId : string;
  devicePath : string
}.

Definition EPSON_VENDOR_ID : Z := 1208.  (* 0x04b8 *)

Definition EPSON_PRODUCT_IDS : list (string * Z) := [ ("TM-T88IV", 514%Z) ].

Definition printerPaths : list string :=
  [ "/dev/usb/lp0"; "/dev/usb/lp1"; "/dev/usb/lp2"; "/dev/usb/lp3";
    "/dev/lp0"; "/dev/lp1"; "/dev/lp2"; "/dev/lp3" ].

(** The loop of [getDevicePath] over a candidate list: the result, and the
    paths handed to [fs.existsSync], in order. *)
Fixpoint probePaths (existsSync : string -> bool) (paths : list string)
  : option string * list string :=
  match paths with
  | [] => (None, [])
  | path :: rest =>
      if existsSync path then (Some path, [path])
      else let '(r, checked) := probePaths existsSync rest in
           (r, path :: checked)
  end.

(** [getDevicePath(device)]; the argument is not read. *)
Definition getDevicePath (existsSync : string -> bool) (device : UsbDevice)
  : option string * list string :=
  probePaths existsSync printerPaths.

(** [n.toString(16)] *)
Definition toHex (n : Z) : string := toStringRadix 16 n.

(** [s.padStart(width, '0')] *)
Fixpoint zeros (k : nat) : string :=
  match k with O => EmptyString | S j => String "0"%char (zeros j) end.

Definition padStart0 (width : nat) (s : string) : string :=
  String.append (zeros (width - String.length s)) s.

(** The inner loop of [detectEpsonPrinters] over [EPSON_PRODUCT_IDS]: it
    stops at the first known product id that matches. *)
Fixpoint matchProduct (existsSync : string -> bool) (device : UsbDevice)
  (entries : list (string * Z)) : list Printer :=
  match entries with
  | [] => []
  | (mdl, knownProductId) :: rest =>
      if (idProduct device =? knownProductId)%Z then
        match fst (getDevicePath existsSync device) with
        | Some path =>
            if truthy path then
              [ mkPrinter mdl (padStart0 4 (toHex (idVendor device)))
                  (padStart0 4 (toHex (idProduct device))) path ]
            else []
        | None => []
        end
      else matchProduct existsSync device rest
  end.

Fixpoint scanUsb (existsSync : string -> bool) (devices : list UsbDevice)
  : list Printer :=
  match devices with
  | [] => []
  | device :: rest =>
      (if (idVendor device =? EPSON_VENDOR_ID)%Z
       then matchProduct existsSync device EPSON_PRODUCT_IDS
       else []) ++ scanUsb existsSync rest
  end.

(** [detectEpsonPrinters()]: [usb.getDeviceList()] is [None] when it
    throws, which the function catches and answers with [[]]. *)
Definition detectEpsonPrinters (usbList : option (list UsbDevice))
  (existsSync : string -> bool) : list Printer :=
  match usbList with
  | Some devices => scanUsb existsSync devices
  | None => []
  end.

(** *** Keyboard discovery *)

(** What the discovery reads from the system.  [None] is a call that
    throws: a missing or unreadable directory, a tool that is not
    installed, a pipeline that exits with a non-zero status. *)
Record DiscoveryEnv : Type := mkDiscoveryEnv {
  readdirInput : option (list string);      (* fs.readdirSync('/dev/input') *)
  udevadmInfo : string -> option string;    (* execSync(udevadm ... | grep) *)
  readdirById : option (list string);       (* fs.readdirSync('/dev/input/by-id') *)
  pathExists : string -> bool;              (* fs.existsSync *)
  evtestList : option string                (* execSync('evtest --list-devices') *)
}.

Inductive FsCall : Type :=
| CallReaddirInput
| CallUdevadm (path : string)
| CallReaddirById
| CallExists (path : string)
| CallEvtest.

Record DetectState : Type := mkDetectState {
  calls : list FsCall;
  keyboardDevices : list string
}.

Definition D (A : Type) : Type := M DetectState (list string) A.

Definition record (c : FsCall) : D unit :=
  modify (fun s => mkDetectState (calls s ++ [c]) (keyboardDevices s)).

Definition push (path : string) : D unit :=
  modify (fun s => mkDetectState (calls s) (keyboardDevices s ++ [path])).

Definition orThrow {A} (o : option A) : D A :=
  match o with Some a => ret a | None => throw end.

Definition doReaddirInput (env : DiscoveryEnv) : D (list string) :=
  record CallReaddirInput ;; orThrow (readdirInput env).

Definition doUdevadm (env : DiscoveryEnv) (path : string) : D string :=
  record (CallUdevadm path) ;; orThrow (udevadmInfo env path).

Definition doReaddirById (env : DiscoveryEnv) : D (list string) :=
  record CallReaddirById ;; orThrow (readdirById env).

Definition doExists (env : DiscoveryEnv) (path : string) : D bool :=
  record (CallExists path) ;; ret (pathExists env path).

Definition doEvtest (env : DiscoveryEnv) : D string :=
  record CallEvtest ;; orThrow (evtestList env).

(** Body of the loop over [eventDevices]. *)
Definition checkEventDevice (env : DiscoveryEnv) (device : string) : D unit :=
  let path := String.append "/dev/input/" device in
  tryCatch
    (deviceInfo <- doUdevadm env path ;;
     when (includes "keyboard" deviceInfo) (push path))
    (ret tt).

(** Body of the loop over [byIdDevices]. *)
Definition checkByIdDevice (env : DiscoveryEnv) (device : string) : D unit :=
  let path := String.append "/dev/input/by-id/" device in
  e <- doExists env path ;;
  when e (push path).

(** The loop over the lines of the [evtest] listing: a line that names a
    keyboard is followed by the line with the device path, which is then
    skipped; reading that line when there is none throws. *)
Fixpoint scanEvtestLines (env : DiscoveryEnv) (lines : list string) : D unit :=
  match lines with
  | [] => ret tt
  | line :: rest =>
      if includes "keyboard" (toLowerCase line) then
        match rest with
        | [] => throw
        | next :: rest' =>
            let path := hd EmptyString (split " "%char (trim next)) in
            (if truthy path
             then e <- doExists env path ;; when e (push path)
             else ret tt) ;;
            scanEvtestLines env rest'
        end
      else scanEvtestLines env rest
  end.

Definition noneFound : D bool :=
  gets (fun s => Nat.eqb (List.length (keyboardDevices s)) 0).

Definition detectBody (env : DiscoveryEnv) : D unit :=
  eventDevices <- doReaddirInput env ;;
  forEach (checkEventDevice env)
          (filter (startsWith "event") eventDevices) ;;
  none1 <- noneFound ;;
  when none1
    (tryCatch
       (byIdDevices <- doReaddirById env ;;
        forEach (checkByIdDevice env)
                (filter (fun file => includes "kbd" (toLowerCase file))
                        byIdDevices))
       (ret tt)) ;;
  none2 <- noneFound ;;
  when none2
    (tryCatch
       (evtestOutput <- doEvtest env ;;
        scanEvtestLines env (split (ascii_of_nat 10) evtestOutput))
       (ret tt)) ;;
  found <- gets keyboardDevices ;;
  returnWith found.

(** [detectKeyboardDevices()]: how the call ends, and its final state. *)
Definition detectKeyboardDevices (env : DiscoveryEnv)
  : Completion (list string) unit * DetectState :=
  tryCatch (detectBody env) (returnWith []) (mkDetectState [] []).

(** *** Presence poller *)

(** What one iteration of the polling loop finds: the USB device list
    ([None]: the enumeration throws), the existing paths, and the
    process-wide flag [global.isShuttingDown]. *)
Record World : Type := mkWorld {
  usbDevices : option (list UsbDevice);
  existsSync : string -> bool;
  isShuttingDown : bool
}.

(** [waitForPrinter()]: the [while (true)] loop, cut after [fuel]
    iterations; [world i] is the system at iteration [i].  The second
    component counts the calls of [detectEpsonPrinters]. *)
Fixpoint waitForPrinter (fuel : nat) (world : nat -> World) (i : nat)
  : option Printer * nat :=
  match fuel with
  | O => (None, i)
  | S f =>
      match detectEpsonPrinters (usbDevices (world i)) (existsSync (world i)) with
      | p :: _ => (Some p, S i)
      | [] => waitForPrinter f world (S i)
      end
  end.

End Locator.


(* ====================================================================== *)
(** ** ESC/POS encoders                                                    *)
(* ====================================================================== *)

Module Encoder.
Import JsString.

Local Open Scope Z_scope.

(** A JavaScript number as far as the encoders need it: an integer that
    is a double, or [None] for a value that is not finite ([NaN] and the
    two infinities, which a [Buffer] stores alike). *)
Definition JsNumber : Type := option Z.

(** The double nearest to an integer: exact up to [2^53], beyond that the
    53 leading bits are kept and the rest is rounded to nearest, ties to
    the even mantissa; from [2^1024] on the result is an infinity. *)
Definition toDouble (v : Z) : JsNumber :=
  let a := Z.abs v in
  if a <? 2 ^ 53 then Some v
  else
    let e := Z.log2 a - 52 in
    let q := a / 2 ^ e in
    let r := a mod 2 ^ e in
    let half := 2 ^ (e - 1) in
    let q' := if (half <? r) || ((r =? half) && Z.odd q) then q + 1 else q in
    let m := q' * 2 ^ e in
    if 2 ^ 1024 <=? m then None else Some (Z.sgn v * m).

Definition digitVal (radix : Z) (c : ascii) : option Z :=
  let n := Z.of_nat (nat_of_ascii c) in
  let v := if (48 <=? n) && (n <=? 57) then Some (n - 48)
           else if (97 <=? n) && (n <=? 122) then Some (n - 87)
           else if (65 <=? n) && (n <=? 90) then Some (n - 55)
           else None in
  match v with
  | Some d => if d <? radix then Some d else None
  | None => None
  end.

Fixpoint parseDigits (radix : Z) (s : string) (acc : JsNumber) : JsNumber :=
  match s with
  | EmptyString => acc
  | String c r =>
      match digitVal radix c with
      | Some d =>
          parseDigits radix r
            (Some (match acc with Some a => a * radix + d | None => d end))
      | None => acc
      end
  end.

(** [parseInt(x)] without a radix, for [x] a string or [undefined]
    ([None]): leading white space, a sign, a [0x] prefix, then the longest
    run of digits; [NaN] when there is no digit.  The integer the digits
    write is returned as a number, that is as the nearest double. *)
Definition parseInt (x : option string) : JsNumber :=
  match x with
  | None => None
  | Some s =>
      let s1 := trimStart s in
      let '(neg, s2) :=
        match s1 with
        | String "-"%char r => (true, r)
        | String "+"%char r => (false, r)
        | _ => (false, s1)
        end in
      let '(radix, s3) :=
        match s2 with
        | String "0"%char (String "x"%char r) => (16, r)
        | String "0"%char (String "X"%char r) => (16, r)
        | _ => (10, s2)
        end in
      match parseDigits radix s3 None with
      | Some v => toDouble (if neg then - v else v)
      | None => None
      end
  end.

(** The value a number takes as an element of a [Buffer]. *)
Definition toUint8 (n : JsNumber) : Z :=
  match n with
  | Some v => v mod 256
  | None => 0
  end.

Definition isPart (p : option string) (s : string) : bool :=
  match p with
  | Some q => String.eqb q s
  | None => false
  end.

(** The branch of [convertEscPosToBuffer] for a line that includes
    [ESC]. *)
Definition escCommand (line : string) : list JsNumber :=
  let parts := split " "%char line in
  let p1 := nth_error parts 1 in
  let p2 := nth_error parts 2 in
  if isPart p1 "@" then [Some 27; Some 64]
  else if isPart p1 "a" then [Some 27; Some 97; parseInt p2]
  else if isPart p1 "!" then [Some 27; Some 33; parseInt p2]
  else if isPart p1 "E" then [Some 27; Some 69; parseInt p2]
  else if isPart p1 "i" then [Some 29; Some 86; Some 0]
  else [].

(** One iteration of the loop over the lines. *)
Definition convertLine (line : string) : list JsNumber :=
  if negb (truthy (trim line)) || startsWith ";" (trim line) then []
  else if includes "ESC" line then escCommand line
  else if includes "LF" line then [Some 10]
  else
    let text := trim (removeQuotes line) in
    if truthy text
    then map Some (bufferFrom (String.append text newline))
    else [].

(** [convertEscPosToBuffer(text)] of the POS receipt script. *)
Definition convertEscPosToBuffer (text : string) : list Z :=
  map toUint8 (flat_map convertLine (split (ascii_of_nat 10) text)).

(** The escape sequences of the keyboard printer, as the string literals
    the source hands to [Buffer.from]. *)
Definition chr (n : nat) : string := String (ascii_of_nat n) EmptyString.

Definition ESC_INIT : string := String.append (chr 27) "@".
Definition ESC_ALIGN (n : nat) : string :=
  String.append (chr 27) (String.append "a" (chr n)).
Definition ESC_MODE (n : nat) : string :=
  String.append (chr 27) (String.append "!" (chr n)).
Definition GS_CUT : string :=
  String.append (chr 29) (String.append "V" (chr 0)).

Definition tenNewlines : string :=
  String.concat "" (repeat newline 10).

(** The [Buffer.concat] of [printToEpson]'s direct write: [now] is the value
    of [new Date().toLocaleString()] at the call. *)
Definition formattedText (text now : string) : list Z :=
  List.concat
    [ bufferFrom ESC_INIT;
      bufferFrom (ESC_ALIGN 1);
      bufferFrom (ESC_MODE 48);
      bufferFrom (String.append "PRINT TEST" newline);
      bufferFrom (ESC_MODE 0);
      bufferFrom (ESC_ALIGN 0);
      bufferFrom (String.append "----------------" newline);
      bufferFrom (String.append text newline);
      bufferFrom (String.append "----------------" newline);
      bufferFrom (ESC_ALIGN 1);
      bufferFrom (String.append now newline);
      bufferFrom (ESC_ALIGN 0);
      bufferFrom tenNewlines;
      bufferFrom GS_CUT ].

End Encoder.

(* ====================================================================== *)
(** ** Print dispatcher                                                    *)
(* ====================================================================== *)

Module Dispatcher.
Import JsString Effects.

Local Open Scope js_scope.

(** Calls on the [ThermalPrinter] object that build the print job. *)
Inductive LibCall : Type :=
| AlignCenter
| AlignLeft
| Bold (on : bool)
| SetTextSize (height width : nat)
| Println (s : string)
| DrawLine
| Cut.

(** What a submission does to the outside, in order.  An asynchronous
    library call is two events, its start and its settlement, with the
    suspension of the caller ([Await]) between them. *)
Inductive Event : Type :=
| ExistsSync (path : string) (found : bool)
| AccessSync (path : string) (ok : bool)
| OpenSync (path : string) (ok : bool)
| WriteSync (bytes : list Z) (ok : bool)
| CloseSync (ok : bool)
| NewThermalPrinter (interface : string)
| IsPrinterConnected
| Await
| Connected (answer : option bool)
| Lib (c : LibCall)
| Execute
| Executed (ok : bool)
| Returned (result : bool).

(** The outcomes of the calls one submission makes, and the local time
    strings it reads: [now] in the direct write, [nowLater] in the library
    transport.  [libConnected = None] is a rejected promise. *)
Record IoEnv : Type := mkIoEnv {
  fsExists : string -> bool;
  fsWritable : string -> bool;
  openOk : bool;
  writeOk : bool;
  closeOk : bool;
  libConnected : option bool;
  libExecuteOk : bool;
  now : string;
  nowLater : string
}.

Definition P (A : Type) : Type := M (list Event) bool A.

Definition emit (e : Event) : P unit := modify (fun log => log ++ [e]).

(** A synchronous call that throws when [ok] is false. *)
Definition sync (e : bool -> Event) (ok : bool) : P unit :=
  emit (e ok) ;; if ok then ret tt else throw.

(** The direct write: [openSync], one [writeSync] of the whole buffer,
    [closeSync], [return true]. *)
Definition directWrite (env : IoEnv) (path text : string) : P unit :=
  sync (OpenSync path) (openOk env) ;;
  sync (WriteSync (Encoder.formattedText text (now env))) (writeOk env) ;;
  sync CloseSync (closeOk env) ;;
  returnWith true.

(** The calls replayed on the library object. *)
Definition libraryJob (text stamp : string) : list LibCall :=
  [ AlignCenter; Bold true; SetTextSize 2 2; Println "PRINT TEST";
    SetTextSize 1 1; Bold false; DrawLine;
    AlignLeft; Println text; DrawLine;
    AlignCenter; Println stamp;
    Println Encoder.tenNewlines; Cut ].

(** The library transport: the two [await]s are its suspension points. *)
Definition libraryTransport (env : IoEnv) (path text : string) : P unit :=
  emit (NewThermalPrinter path) ;;
  emit IsPrinterConnected ;;
  emit Await ;;
  emit (Connected (libConnected env)) ;;
  match libConnected env with
  | None => throw
  | Some false => returnWith false
  | Some true =>
      forEach (fun c => emit (Lib c)) (libraryJob text (nowLater env)) ;;
      emit Execute ;;
      emit Await ;;
      emit (Executed (libExecuteOk env)) ;;
      (if libExecuteOk env then ret tt else throw) ;;
      returnWith true
  end.

Definition printBody (env : IoEnv) (text : string) (printer : Locator.Printer)
  : P unit :=
  let path := Locator.devicePath printer in
  emit (ExistsSync path (fsExists env path)) ;;
  (if negb (fsExists env path) then returnWith false else ret tt) ;;
  tryCatch
    (sync (AccessSync path) (fsWritable env path))
    (returnWith false) ;;
  tryCatch (directWrite env path text) (ret tt) ;;
  libraryTransport env path text.

(** The value an async function settles with: the [return]ed value; the
    outer [catch] of [printToEpson] turns an exception into [false]. *)
Definition settle (c : Completion bool unit) : option bool :=
  match c with
  | Return r => Some r
  | Normal _ => None
  | Throw => None
  end.

(** A function whose body sits in [try { ... } catch (err) { return false }],
    called with an empty log: the settled value, and the events in order,
    closed by [Returned]. *)
Definition guarded (body : P unit) : option bool * list Event :=
  let '(c, log) := tryCatch body (returnWith false) [] in
  (settle c,
   match settle c with
   | Some r => log ++ [Returned r]
   | None => log
   end).

(** [printToEpson(text, printer)]. *)
Definition printToEpson (env : IoEnv) (text : string)
  (printer : Locator.Printer) : option bool * list Event :=
  guarded (printBody env text printer).

(** *** The POS receipt script's dispatcher *)

(** [printToEpson] of the POS receipt script: the same probes, then one
    direct write of [convertEscPosToBuffer(text)] and no second transport. *)
Definition posPrintBody (env : IoEnv) (text : string)
  (printer : Locator.Printer) : P unit :=
  let path := Locator.devicePath printer in
  emit (ExistsSync path (fsExists env path)) ;;
  (if negb (fsExists env path) then returnWith false else ret tt) ;;
  tryCatch
    (sync (AccessSync path) (fsWritable env path))
    (returnWith false) ;;
  sync (OpenSync path) (openOk env) ;;
  sync (WriteSync (Encoder.convertEscPosToBuffer text)) (writeOk env) ;;
  sync CloseSync (closeOk env) ;;
  returnWith true.

Definition posPrintToEpson (env : IoEnv) (text : string)
  (printer : Locator.Printer) : option bool * list Event :=
  guarded (posPrintBody env text printer).

(** The buffers a run handed to [writeSync]. *)
Fixpoint written (log : list Event) : list (list Z) :=
  match log with
  | [] => []
  | WriteSync bytes _ :: r => bytes :: written r
  | _ :: r => written r
  end.

(** *** The PDF branch of [makeApiCallAndPrint] *)

Definition initCommands : list Z :=
  [27; 64; 27; 76; 27; 84; 0; 27; 97; 1]%Z.

Definition endCommands : list Z := [10; 10; 10; 10; 29; 86; 0]%Z.

(** What [pdf(...)] resolves to, as far as it is read; the page count is
    an integer below [1e21] in absolute value, which the template literal
    prints in digits. *)
Record PdfData : Type := mkPdfData {
  numpages : Z;
  pdfText : string
}.

Definition textToPrint (d : PdfData) : string :=
  String.concat ""
    [ "PDF Document"; newline;
      "============"; newline;
      "Pages: "; toStringRadix 10 (numpages d); newline;
      "============"; newline; newline;
      pdfText d ].

(** The calls on the device that the PDF branch makes once the response
    has arrived, when none of them throws: the device is opened, the
    initialisation is written, the function is suspended in
    [await pdf(...)], and then the text, the form feed and the cut are
    written in three more calls before the device is closed. *)
Definition pdfBranch (path : string) (d : PdfData) : list Event :=
  [ OpenSync path true;
    WriteSync initCommands true;
    Await;
    WriteSync (bufferFrom (textToPrint d)) true;
    WriteSync [12%Z] true;
    WriteSync endCommands true;
    CloseSync true ].

(** *** Event classes *)

Definition isDirect (e : Event) : bool :=
  match e with
  | OpenSync _ _ | WriteSync _ _ | CloseSync _ => true
  | _ => false
  end.

Definition isFallback (e : Event) : bool :=
  match e with
  | NewThermalPrinter _ | IsPrinterConnected | Connected _ | Lib _
  | Execute | Executed _ => true
  | _ => false
  end.

Definition isTransport (e : Event) : bool := isDirect e || isFallback e.

Definition directOk (env : IoEnv) : bool :=
  openOk env && writeOk env && closeOk env.

Definition fallbackOk (env : IoEnv) : bool :=
  match libConnected env with
  | Some true => libExecuteOk env
  | _ => false
  end.

End Dispatcher.


(* ====================================================================== *)
(** ** Concurrent submissions on the event loop                            *)
(* ====================================================================== *)

Module Scheduler.
Import Dispatcher.

(** An async function runs without interruption up to an [await]; there it
    is suspended, and resumed later by the event loop.  [segments] cuts the
    events of one submission after each [Await]. *)
Fixpoint segments (tr : list Event) : list (list Event) :=
  match tr with
  | [] => []
  | e :: r =>
      match e, segments r with
      | Await, segs => [Await] :: segs
      | _, [] => [[e]]
      | _, s :: segs => (e :: s) :: segs
      end
  end.

(** A submission in progress: the segments it still has to run. *)
Definition Task : Type := list (list Event).
Definition Pool : Type := list Task.

(** The device log: each event with the index of its submission. *)
Definition Log : Type := list (nat * Event).

Definition tag (i : nat) (seg : list Event) : Log := map (pair i) seg.

Fixpoint setTask (i : nat) (t : Task) (pool : Pool) : Pool :=
  match pool, i with
  | [], _ => []
  | _ :: r, O => t :: r
  | t0 :: r, S j => t0 :: setTask j t r
  end.

(** One turn of the event loop: some submission that is not finished runs
    its next segment to the end. *)
Inductive Step : Pool * Log -> Pool * Log -> Prop :=
| StepRun (pool : Pool) (log : Log) (i : nat) (seg : list Event) (rest : Task) :
    nth_error pool i = Some (seg :: rest) ->
    Step (pool, log) (setTask i rest pool, log ++ tag i seg).

Inductive Steps : Pool * Log -> Pool * Log -> Prop :=
| StepsRefl (st : Pool * Log) : Steps st st
| StepsNext (st1 st2 st3 : Pool * Log) :
    Steps st1 st2 -> Step st2 st3 -> Steps st1 st3.

(** The same, driven by a schedule: the list of the submissions to run,
    turn by turn.  A turn given to a finished submission does nothing. *)
Fixpoint runSchedule (sched : list nat) (st : Pool * Log) : Pool * Log :=
  match sched with
  | [] => st
  | i :: rest =>
      match nth_error (fst st) i with
      | Some (seg :: more) =>
          runSchedule rest (setTask i more (fst st), snd st ++ tag i seg)
      | _ => runSchedule rest st
      end
  end.

(** A submission: the outcomes it will meet, its text and its target. *)
Definition Submission : Type := IoEnv * string * Locator.Printer.

Definition traceOf (sub : Submission) : list Event :=
  let '(env, text, printer) := sub in snd (printToEpson env text printer).

Definition initial (subs : list Submission) : Pool * Log :=
  (map (fun sub => segments (traceOf sub)) subs, []).

(** A submission is in its transport attempt from the [openSync] of its
    direct write until it returns.  [maxInFlight] is the largest number of
    submissions that are in their transport attempt at the same time. *)
Definition enters (e : Event) : bool :=
  match e with OpenSync _ _ => true | _ => false end.

Definition leaves (e : Event) : bool :=
  match e with Returned _ => true | _ => false end.

Fixpoint removeNat (i : nat) (l : list nat) : list nat :=
  match l with
  | [] => []
  | j :: r => if Nat.eqb i j then removeNat i r else j :: removeNat i r
  end.

Fixpoint inFlightFrom (active : list nat) (best : nat) (log : Log) : nat :=
  match log with
  | [] => best
  | (i, e) :: r =>
      let active' :=
        if enters e then i :: removeNat i active
        else if leaves e then removeNat i active
        else active in
      inFlightFrom active' (Nat.max best (List.length active')) r
  end.

Definition maxInFlight (log : Log) : nat := inFlightFrom [] 0 log.

(** The same count for the library sends alone: from [Execute] to
    [Executed]. *)
Fixpoint sendingFrom (active : list nat) (best : nat) (log : Log) : nat :=
  match log with
  | [] => best
  | (i, e) :: r =>
      let active' :=
        match e with
        | Execute => i :: removeNat i active
        | Executed _ => removeNat i active
        | _ => active
        end in
      sendingFrom active' (Nat.max best (List.length active')) r
  end.

Definition maxSending (log : Log) : nat := sendingFrom [] 0 log.

(** The submissions whose bytes reached the device, write by write. *)
Fixpoint writers (log : Log) : list nat :=
  match log with
  | [] => []
  | (i, WriteSync _ true) :: r => i :: writers r
  | _ :: r => writers r
  end.

(** The byte streams are serialized when the writes of each submission
    are consecutive: a submission that another one has written after writes
    no more. *)
Fixpoint serializedFrom (finished : list nat) (current : option nat)
  (ws : list nat) : bool :=
  match ws with
  | [] => true
  | i :: r =>
      match current with
      | None => serializedFrom finished (Some i) r
      | Some c =>
          if Nat.eqb i c then serializedFrom finished current r
          else if existsb (Nat.eqb i) finished then false
          else serializedFrom (c :: finished) (Some i) r
      end
  end.

Definition serialized (log : Log) : bool :=
  serializedFrom [] None (writers log).

(** A log keeps the direct writes whole when each [writeSync] comes right
    after the successful [openSync] of the same submission and, when it
    succeeds, right before its [closeSync]. *)
Definition directWritesWhole (log : Log) : Prop :=
  forall pre i bytes ok post,
    log = pre ++ (i, WriteSync bytes ok) :: post ->
    (exists pre' path, pre = pre' ++ [(i, OpenSync path true)]) /\
    (ok = true -> exists c post', post = (i, CloseSync c) :: post').

(** The decision procedure for one segment. *)
Definition isOpenOk (prev : option Event) : bool :=
  match prev with Some (OpenSync _ true) => true | _ => false end.

Definition startsWithClose (l : list Event) : bool :=
  match l with CloseSync _ :: _ => true | _ => false end.

Fixpoint wholeFrom (prev : option Event) (l : list Event) : bool :=
  match l with
  | [] => true
  | WriteSync b ok :: r =>
      isOpenOk prev && (if ok then startsWithClose r else true)
      && wholeFrom (Some (WriteSync b ok)) r
  | e :: r => wholeFrom (Some e) r
  end.

End Scheduler.


(* ====================================================================== *)
(** ** Keyboard wait and device watch loop                                 *)
(* ====================================================================== *)

Module Watch.
Import JsString Effects Locator.

(** The array a call of [detectKeyboardDevices] hands to its caller. *)
Definition keyboardsFound (env : DiscoveryEnv) : list string :=
  match fst (detectKeyboardDevices env) with
  | Return found => found
  | _ => []
  end.

(** [waitForKeyboard()]: the [while (true)] loop, cut after [fuel]
    iterations; [env i] is the system at iteration [i].  The second component
    counts the calls of [detectKeyboardDevices]. *)
Fixpoint waitForKeyboard (fuel : nat) (env : nat -> DiscoveryEnv) (i : nat)
  : option (list string) * nat :=
  match fuel with
  | O => (None, i)
  | S f =>
      match keyboardsFound (env i) with
      | d :: rest => (Some (d :: rest), S i)
      | [] => waitForKeyboard f env (S i)
      end
  end.

(** *** [KeyboardManager] *)

(** The [workers] map, from device path to [Worker], in insertion order; a
    [Worker] object is told apart by the number of the [new Worker] that
    made it.  [running] lists the workers started and not terminated. *)
Record Manager : Type := mkManager {
  workers : list (string * nat);
  running : list nat;
  nextId : nat
}.

(** Whether [new Worker] for a path succeeds, and whether [terminate] of a
    worker does. *)
Record WorkerEnv : Type := mkWorkerEnv {
  spawnOk : string -> bool;
  terminateOk : nat -> bool
}.

(** [Map.prototype.get], [set] and [delete]. *)
Fixpoint mapGet (k : string) (m : list (string * nat)) : option nat :=
  match m with
  | [] => None
  | (k', v) :: r => if String.eqb k k' then Some v else mapGet k r
  end.

Fixpoint mapSet (k : string) (v : nat) (m : list (string * nat))
  : list (string * nat) :=
  match m with
  | [] => [(k, v)]
  | (k', v') :: r =>
      if String.eqb k k' then (k', v) :: r else (k', v') :: mapSet k v r
  end.

Fixpoint mapDelete (k : string) (m : list (string * nat))
  : list (string * nat) :=
  match m with
  | [] => []
  | (k', v') :: r =>
      if String.eqb k k' then r else (k', v') :: mapDelete k r
  end.

Fixpoint removeId (id : nat) (l : list nat) : list nat :=
  match l with
  | [] => []
  | x :: r => if Nat.eqb id x then r else x :: removeId id r
  end.

(** [addKeyboard(devicePath)]: a [new Worker] that throws is caught and
    leaves the manager as it was. *)
Definition addKeyboard (env : WorkerEnv) (devicePath : string) (m : Manager)
  : Manager :=
  if spawnOk env devicePath then
    mkManager (mapSet devicePath (nextId m) (workers m))
              (running m ++ [nextId m])
              (S (nextId m))
  else m.

(** [removeKeyboard(devicePath)]: nothing without a worker for the path; a
    [terminate] that throws is caught before the entry is deleted. *)
Definition removeKeyboard (env : WorkerEnv) (devicePath : string) (m : Manager)
  : Manager :=
  match mapGet devicePath (workers m) with
  | Some worker =>
      if terminateOk env worker then
        mkManager (mapDelete devicePath (workers m))
                  (removeId worker (running m))
                  (nextId m)
      else m
  | None => m
  end.

(** [getActiveKeyboards()] *)
Definition getActiveKeyboards (m : Manager) : list string :=
  map fst (workers m).

(** [new Set(array)]: the elements in the order of their first
    occurrence. *)
Definition has (d : string) (s : list string) : bool :=
  existsb (String.eqb d) s.

Fixpoint toSetFrom (seen : list string) (l : list string) : list string :=
  match l with
  | [] => []
  | d :: r =>
      if has d seen then toSetFrom seen r else d :: toSetFrom (d :: seen) r
  end.

Definition toSet (l : list string) : list string := toSetFrom [] l.

(** The callback of [setInterval] in [main], given what
    [detectKeyboardDevices()] returns at this tick: new devices are added,
    then devices that are gone are removed. *)
Definition monitorTick (env : WorkerEnv) (shuttingDown : bool)
  (available : list string) (m : Manager) : Manager :=
  if shuttingDown then m
  else
    let currentDevices := toSet (getActiveKeyboards m) in
    let availableDevices := toSet available in
    let added :=
      fold_left
        (fun acc device =>
           if has device currentDevices then acc
           else addKeyboard env device acc)
        availableDevices m in
    fold_left
      (fun acc device =>
         if has device availableDevices then acc
         else removeKeyboard env device acc)
      currentDevices added.

(** [shutdown()]: every worker of the map is removed. *)
Definition shutdown (env : WorkerEnv) (m : Manager) : Manager :=
  fold_left (fun acc device => removeKeyboard env device acc)
            (getActiveKeyboards m) m.

End Watch.

(* ====================================================================== *)
(** ** Text formatting and image headers of the PDF printing scripts       *)
(* ====================================================================== *)

Module TextFormat.
Import JsString.

(** A code unit from 0x20 to 0x7E. *)
Definition isPrintable (c : ascii) : bool :=
  let n := nat_of_ascii c in (32 <=? n)%nat && (n <=? 126)%nat.

(** [line.replace] of every code unit outside 0x20-0x7E by the empty
    string. *)
Fixpoint keepPrintable (s : string) : string :=
  match s with
  | EmptyString => EmptyString
  | String c r =>
      if isPrintable c then String c (keepPrintable r) else keepPrintable r
  end.

(** [lines.join(sep)] *)
Fixpoint join (sep : string) (lines : list string) : string :=
  match lines with
  | [] => EmptyString
  | [line] => line
  | line :: rest => String.append line (String.append sep (join sep rest))
  end.

(** The callback of [lines.map]. *)
Definition cleanLine (line : string) : string := trim (keepPrintable line).

(** [formatTextForPrinter(text)] of the PDF text printing script. *)
Definition formatTextForPrinter (text : string) : string :=
  let lines := split (ascii_of_nat 10) text in
  let formattedLines :=
    filter (fun line => (0 <? String.length line)%nat) (map cleanLine lines) in
  join newline formattedLines.

End TextFormat.

Module ImageHeaders.

Local Open Scope Z_scope.

(** *** The PBM header skip of [printImageToEpson] *)

Definition isDigitByte (b : Z) : bool := (48 <=? b) && (b <=? 57).

(** The [while] loop that looks for the end of the header: from index
    [idx], with [prev] the byte before it ([None] before the first byte, where
    [imageData[-1]] is [undefined]), it stops at the first newline that
    follows a digit, or at the length of the data. *)
Fixpoint findHeaderEnd (prev : option Z) (data : list Z) (idx : nat) : nat :=
  match data with
  | [] => idx
  | b :: rest =>
      if (b =? 10)
         && match prev with Some p => isDigitByte p | None => false end
      then idx
      else findHeaderEnd (Some b) rest (S idx)
  end.

(** [imageData.slice(headerEnd)] after the final [headerEnd++]. *)
Definition bitmapDataOf (imageData : list Z) : list Z :=
  skipn (S (findHeaderEnd None imageData 0)) imageData.

(** *** The BMP header of [convertPdfToBitmap] *)

(** Byte [i] of a value written little-endian. *)
Definition byteLE (v : Z) (i : Z) : Z := Z.land (Z.shiftr v (8 * i)) 255.

(** [buf.write...LE(v, offset)]: the bytes from [offset] on are replaced. *)
Fixpoint setBytes (offset : nat) (bytes buf : list Z) : list Z :=
  match offset, buf with
  | O, _ => bytes ++ skipn (List.length bytes) buf
  | S k, b :: rest => b :: setBytes k bytes rest
  | S k, [] => []
  end.

(** A value outside the range of the field makes the write throw. *)
Definition writeUInt32LE (v : Z) (offset : nat) (buf : list Z)
  : option (list Z) :=
  if (0 <=? v) && (v <=? 4294967295)
  then Some (setBytes offset [byteLE v 0; byteLE v 1; byteLE v 2; byteLE v 3] buf)
  else None.

Definition writeInt32LE (v : Z) (offset : nat) (buf : list Z)
  : option (list Z) :=
  if (-2147483648 <=? v) && (v <=? 2147483647)
  then Some (setBytes offset [byteLE v 0; byteLE v 1; byteLE v 2; byteLE v 3] buf)
  else None.

Definition writeUInt16LE (v : Z) (offset : nat) (buf : list Z)
  : option (list Z) :=
  if (0 <=? v) && (v <=? 65535)
  then Some (setBytes offset [byteLE v 0; byteLE v 1] buf)
  else None.

Definition andThen {A B} (o : option A) (f : A -> option B) : option B :=
  match o with Some a => f a | None => None end.

(** The 54-byte header built for raw data of [dataLength] bytes and an
    image of the given size; [None] when one of the writes throws. *)
Definition bmpHeader (width height dataLength : Z) : option (list Z) :=
  let header := repeat 0 54 in
  let header := setBytes 0 [66; 77] header in          (* header.write('BM', 0) *)
  andThen (writeUInt32LE (54 + dataLength) 2 header) (fun header =>
  andThen (writeUInt32LE 54 10 header) (fun header =>
  andThen (writeUInt32LE 40 14 header) (fun header =>
  andThen (writeInt32LE width 18 header) (fun header =>
  andThen (writeInt32LE height 22 header) (fun header =>
  andThen (writeUInt16LE 1 26 header) (fun header =>
  andThen (writeUInt16LE 8 28 header) (fun header =>
  andThen (writeUInt32LE 0 30 header) (fun header =>
  andThen (writeUInt32LE dataLength 34 header) (fun header =>
  andThen (writeInt32LE 2835 38 header) (fun header =>
  andThen (writeInt32LE 2835 42 header) (fun header =>
  andThen (writeUInt32LE 0 46 header) (fun header =>
  writeUInt32LE 0 50 header)))))))))))).

(** [Buffer.concat([header, rawData])] *)
Definition bitmapFile (width height : Z) (rawData : list Z) : option (list Z) :=
  andThen (bmpHeader width height (Z.of_nat (List.length rawData)))
          (fun header => Some (header ++ rawData)).

End ImageHeaders.

(* ====================================================================== *)
(** ** Print jobs built around the dispatcher                              *)
(* ====================================================================== *)

Module Jobs.
Import JsString Effects Dispatcher.

Local Open Scope js_scope.

(** How a call into the system ends: it returns ([None]) or it throws an
    [Error] with a message. *)
Definition Outcome : Type := option string.

Definition succeeded (o : Outcome) : bool :=
  match o with None => true | Some _ => false end.

(** What a job does to the outside, in order.  [Device] wraps the events of
    the printer device and of the calls of [printToEpson]; [Suspend] is an
    [await] of the job itself. *)
Inductive JobEvent : Type :=
| HttpGet (ok : bool)
| ReadFileSync (path : string) (ok : bool)
| WriteFileSync (path : string) (content : list Z) (ok : bool)
| PdfParse (ok : bool)
| ExecSync (command : string) (ok : bool)
| FileExistsSync (path : string) (found : bool)
| UnlinkSync (path : string) (ok : bool)
| Suspend
| Device (e : Event).

(** The log of a job and the message of the last [Error] thrown in it. *)
Record JobState : Type := mkJobState {
  jobLog : list JobEvent;
  thrown : string
}.

Definition J (A : Type) : Type := M JobState bool A.

Definition note (e : JobEvent) : J unit :=
  modify (fun s => mkJobState (jobLog s ++ [e]) (thrown s)).

Definition raise {A} (message : string) : J A :=
  fun s => (Throw, mkJobState (jobLog s) message).

(** A call that throws when its outcome carries a message. *)
Definition attempt (e : bool -> JobEvent) (o : Outcome) : J unit :=
  note (e (succeeded o)) ;;
  match o with
  | None => ret tt
  | Some message => raise message
  end.

(** [await printToEpson(text, printer)]: its events are logged and its
    result is the value of the [await]; it never rejects. *)
Definition awaitPrint (env : IoEnv) (text : string) (printer : Locator.Printer)
  : J bool :=
  let '(result, events) := printToEpson env text printer in
  forEach (fun e => note (Device e)) events ;;
  ret (match result with Some r => r | None => false end).

(** [try { body } finally { cleanup }]: the cleanup runs however the body
    ends; the body's completion stands unless the cleanup throws. *)
Definition tryFinally {A} (body : J A) (cleanup : J unit) : J A :=
  fun s =>
    let '(c, s1) := body s in
    match cleanup s1 with
    | (Normal _, s2) =>
        (c, match c with
            | Throw => mkJobState (jobLog s2) (thrown s1)
            | _ => s2
            end)
    | (Return r, s2) => (Return r, s2)
    | (Throw, s2) => (Throw, s2)
    end.

(** A function whose body sits in [try { ... } catch (err) { handler }]. *)
Definition run (body : J unit) : option bool * list JobEvent :=
  let '(c, s) := body (mkJobState [] EmptyString) in
  (settle c, jobLog s).

(** *** [printPDFFile] of the keyboard printer *)

(** What [pdf(...)] resolves to, as far as the jobs read it; [data.info]
    is an object, with or without a [Title], and the page count is an
    integer below [1e21] in absolute value. *)
Record PdfDocument : Type := mkPdfDocument {
  docTitle : option string;        (* data.info.Title *)
  docPages : Z;                    (* data.numpages *)
  docText : string                 (* data.text *)
}.

Record PdfFileEnv : Type := mkPdfFileEnv {
  readOutcome : Outcome;                   (* fs.readFileSync(filePath) *)
  parseOutcome : string + PdfDocument;     (* await pdf(dataBuffer) *)
  printEnv : IoEnv                         (* the calls of printToEpson *)
}.

(** [data.info.Title || 'Untitled'] *)
Definition titleOf (d : PdfDocument) : string :=
  match docTitle d with
  | Some t => if truthy t then t else "Untitled"
  | None => "Untitled"
  end.

Definition pdfPrintText (d : PdfDocument) : string :=
  String.concat ""
    [ "PDF Document Print"; newline;
      "----------------"; newline;
      "Title: "; titleOf d; newline;
      "Pages: "; toStringRadix 10 (docPages d); newline;
      "----------------"; newline; newline;
      docText d; newline ].

Definition parsePdf (o : string + PdfDocument) : J PdfDocument :=
  note Suspend ;;
  note (PdfParse (match o with inr _ => true | inl _ => false end)) ;;
  match o with
  | inr d => ret d
  | inl message => raise message
  end.

Definition printPDFFileBody (env : PdfFileEnv) (filePath : string)
  (printer : Locator.Printer) : J unit :=
  tryCatch
    (attempt (ReadFileSync filePath) (readOutcome env) ;;
     data <- parsePdf (parseOutcome env) ;;
     note Suspend ;;
     result <- awaitPrint (printEnv env) (pdfPrintText data) printer ;;
     returnWith result)
    (returnWith false).

Definition printPDFFile (env : PdfFileEnv) (filePath : string)
  (printer : Locator.Printer) : option bool * list JobEvent :=
  run (printPDFFileBody env filePath printer).

(** *** [createAndPrintPDF] *)

Record CreateEnv : Type := mkCreateEnv {
  stamp : string;                  (* new Date().toLocaleString() *)
  writeInput : Outcome;            (* fs.writeFileSync('temp_input.txt', ...) *)
  enscript : Outcome;              (* execSync('enscript ...') *)
  ps2pdf : Outcome;                (* execSync('ps2pdf ...') *)
  unlinkInput : Outcome;
  unlinkPs : Outcome;
  unlinkPdf : Outcome;
  pdfEnv : PdfFileEnv              (* the call of printPDFFile *)
}.

(** [await printPDFFile(...)] inside another job: its events are logged,
    its result is the value of the [await]. *)
Definition awaitPrintPDFFile (env : PdfFileEnv) (filePath : string)
  (printer : Locator.Printer) : J bool :=
  let '(result, events) := printPDFFile env filePath printer in
  forEach note events ;;
  ret (match result with Some r => r | None => false end).

Definition inputText (env : CreateEnv) (text : string) : string :=
  String.concat ""
    [ "Keyboard Input Print"; newline;
      "----------------"; newline;
      "Time: "; stamp env; newline;
      "----------------"; newline; newline;
      text; newline ].

Definition createAndPrintPDF (env : CreateEnv) (text : string)
  (printer : Locator.Printer) : option bool * list JobEvent :=
  run
    (tryCatch
       (attempt (WriteFileSync "temp_input.txt" (bufferFrom (inputText env text)))
          (writeInput env) ;;
        attempt (ExecSync "enscript -p temp.ps temp_input.txt") (enscript env) ;;
        attempt (ExecSync "ps2pdf temp.ps temp_output.pdf") (ps2pdf env) ;;
        note Suspend ;;
        _ <- awaitPrintPDFFile (pdfEnv env) "temp_output.pdf" printer ;;
        attempt (UnlinkSync "temp_input.txt") (unlinkInput env) ;;
        attempt (UnlinkSync "temp.ps") (unlinkPs env) ;;
        attempt (UnlinkSync "temp_output.pdf") (unlinkPdf env) ;;
        returnWith true)
       (returnWith false)).

(** *** [makeApiCallAndPrint] *)

(** The response of [axios.get]: its [content-type] header, if any, the
    bytes of [response.data] and [response.data.toString()]. *)
Record Response : Type := mkResponse {
  contentType : option string;
  dataBytes : list Z;
  dataText : string
}.

Record ApiEnv : Type := mkApiEnv {
  httpOutcome : string + Response;     (* await axios.get(...) *)
  nowMs : Z;                           (* Date.now() *)
  writeTemp : Outcome;                 (* fs.writeFileSync(tempPdfPath, ...) *)
  devOpen : Outcome;                   (* fs.openSync(printer.devicePath, 'w') *)
  writeInit : Outcome;                 (* fs.writeSync(fd, initCommands) *)
  readTemp : Outcome;                  (* fs.readFileSync(tempPdfPath) *)
  pdfOutcome : string + PdfData;       (* await pdf(...) *)
  writeText : Outcome;                 (* fs.writeSync(fd, formattedText) *)
  writeFormFeed : Outcome;             (* fs.writeSync(fd, Buffer.from([0x0C])) *)
  writeEnd : Outcome;                  (* fs.writeSync(fd, endCommands) *)
  devClose : Outcome;                  (* fs.closeSync(fd) *)
  tempExists : bool;                   (* fs.existsSync(tempPdfPath) *)
  unlinkTemp : Outcome;                (* fs.unlinkSync(tempPdfPath) *)
  textPrintEnv : IoEnv;                (* printToEpson of a text response *)
  errorPrintEnv : IoEnv                (* printToEpson of the error report *)
}.

(** [contentType && contentType.includes('application/pdf')] *)
Definition isPdfResponse (r : Response) : bool :=
  match contentType r with
  | Some t => truthy t && includes "application/pdf" t
  | None => false
  end.

Definition tempPdfPath (env : ApiEnv) : string :=
  String.concat "" [ "/tmp/print_"; toStringRadix 10 (nowMs env); ".pdf" ].

Definition deviceCall (e : bool -> Event) (o : Outcome) : J unit :=
  attempt (fun ok => Device (e ok)) o.

Definition httpGet (o : string + Response) : J Response :=
  note Suspend ;;
  note (HttpGet (match o with inr _ => true | inl _ => false end)) ;;
  match o with
  | inr response => ret response
  | inl message => raise message
  end.

Definition parsePdfData (o : string + PdfData) : J PdfData :=
  note Suspend ;;
  note (PdfParse (match o with inr _ => true | inl _ => false end)) ;;
  match o with
  | inr d => ret d
  | inl message => raise message
  end.

(** The PDF branch: the temporary file is written, then the device is
    driven inside [try ... finally]. *)
Definition pdfBranchJob (env : ApiEnv) (response : Response)
  (printer : Locator.Printer) : J unit :=
  let path := Locator.devicePath printer in
  attempt (WriteFileSync (tempPdfPath env) (dataBytes response))
    (writeTemp env) ;;
  tryFinally
    (deviceCall (OpenSync path) (devOpen env) ;;
     deviceCall (WriteSync initCommands) (writeInit env) ;;
     attempt (ReadFileSync (tempPdfPath env)) (readTemp env) ;;
     pdfData <- parsePdfData (pdfOutcome env) ;;
     deviceCall (WriteSync (bufferFrom (textToPrint pdfData))) (writeText env) ;;
     deviceCall (WriteSync [12%Z]) (writeFormFeed env) ;;
     deviceCall (WriteSync endCommands) (writeEnd env) ;;
     deviceCall CloseSync (devClose env))
    (note (FileExistsSync (tempPdfPath env) (tempExists env)) ;;
     if tempExists env
     then attempt (UnlinkSync (tempPdfPath env)) (unlinkTemp env)
     else ret tt).

(** The [catch] block: the error is reported on the printer. *)
Definition reportError (env : ApiEnv) (printer : Locator.Printer) : J unit :=
  message <- gets thrown ;;
  note Suspend ;;
  _ <- awaitPrint (errorPrintEnv env) (String.append "Error: " message) printer ;;
  returnWith false.

Definition makeApiCallAndPrint (env : ApiEnv) (barcode : string)
  (printer : Locator.Printer) : option bool * list JobEvent :=
  run
    (tryCatch
       (response <- httpGet (httpOutcome env) ;;
        (if isPdfResponse response
         then pdfBranchJob env response printer
         else
           note Suspend ;;
           _ <- awaitPrint (textPrintEnv env) (dataText response) printer ;;
           ret tt) ;;
        returnWith true)
       (reportError env printer)).

End Jobs.

(* ====================================================================== *)
(** * Properties                                                           *)
(* ====================================================================== *)

(* ====================================================================== *)
(** ** Key event decoder                                                   *)
(* ====================================================================== *)

Module KeyDecoderProps.
Import JsString KeyDecoder.

Local Open Scope Z_scope.

(** A property found by [lookupZ] is an entry of the literal. *)
Lemma lookupZ_In (m : list (Z * string)) (k : Z) (v : string) :
  lookupZ k m = Some v -> In (k, v) m.
Proof.
  induction m as [| [k' v'] r IH]; simpl; [discriminate |].
  destruct (lookupZ k r) as [w |] eqn:E.
  - intros H; injection H as ->. right. apply IH. reflexivity.
  - destruct (Z.eqb_spec k k') as [-> | _]; [| discriminate].
    intros H; injection H as ->. left. reflexivity.
Qed.

Definition modifiers : list (bool * bool) :=
  [ (false, false); (false, true); (true, false); (true, true) ].

Lemma modifiers_all (s c : bool) : In (s, c) modifiers.
Proof. destruct s, c; simpl; tauto. Qed.

Definition isEmptyStr (r : JsChar) : bool :=
  match r with JStr EmptyString => true | _ => false end.

Lemma isEmptyStr_true (r : JsChar) : isEmptyStr r = true -> r = JStr "".
Proof. destruct r as [| [| a s]]; simpl; congruence. Qed.

(** The keys with a name of their own that [getCharFromKeyCode] tests
    for. *)
Definition isSpecialName (key : string) : bool :=
  String.eqb key "SPACE" || String.eqb key "BACKSPACE"
  || String.eqb key "ENTER" || String.eqb key "TAB".

(** The check of one entry of [keyCodeMap] for the named keys. *)
Definition namedEntrySilent (kv : Z * string) : bool :=
  if (1 <? String.length (snd kv))%nat && negb (isSpecialName (snd kv)) then
    forallb (fun m => isEmptyStr (getCharFromKeyCode (fst kv) (fst m) (snd m)))
            modifiers
  else true.

Lemma keyCodeMap_named_silent : forallb namedEntrySilent keyCodeMap = true.
Proof. vm_compute. reflexivity. Qed.

(** C4. For a key code whose entry in [keyCodeMap] is one letter from [a]
    to [z], the decoded character is that letter in upper case exactly when
    [isShiftPressed] differs from [isCapsLock], and the letter itself
    otherwise; code 30 ([a]) gives [A] under shift alone and [a] under shift
    with caps lock. *)
Theorem getChar_letter_case (code : Z) (c : ascii) (shiftDown caps : bool) :
  lookupZ code keyCodeMap = Some (String c EmptyString) ->
  isLower c = true ->
  (exists r : ascii,
      getCharFromKeyCode code shiftDown caps = JStr (String r EmptyString)
      /\ isUpper r = xorb shiftDown caps
      /\ lowerChar r = c)
  /\ getCharFromKeyCode 30 true false = JStr "A"
  /\ getCharFromKeyCode 30 true true = JStr "a".
Proof.
  intros Hlk Hlow.
  split; [| split; reflexivity].
  unfold getCharFromKeyCode. rewrite Hlk. clear Hlk.
  destruct c as [b0 b1 b2 b3 b4 b5 b6 b7].
  destruct b0, b1, b2, b3, b4, b5, b6, b7;
    vm_compute in Hlow; try discriminate Hlow;
    destruct shiftDown, caps; cbn;
    eexists; (split; [reflexivity | split; reflexivity]).
Qed.

Lemma getChar_letter_case_witness :
  (exists r : ascii,
      getCharFromKeyCode 30 true false = JStr (String r EmptyString)
      /\ isUpper r = xorb true false
      /\ lowerChar r = "a"%char)
  /\ getCharFromKeyCode 30 true false = JStr "A"
  /\ getCharFromKeyCode 30 true true = JStr "a".
Proof.
  apply (getChar_letter_case 30 "a"%char true false); reflexivity.
Defined.

(** C5. A key code with no entry in [keyCodeMap] decodes to the empty
    string under every modifier state.  The empty string differs from the
    newline that Enter decodes to and from the [null] that Backspace decodes
    to, which is not a string; and the line accumulator leaves the line as
    it is on the empty string. *)
Theorem getChar_unmapped_no_output (code : Z) (shiftDown caps : bool) :
  lookupZ code keyCodeMap = None ->
  getCharFromKeyCode code shiftDown caps = JStr ""
  /\ getCharFromKeyCode 28 shiftDown caps = JStr newline
  /\ getCharFromKeyCode 14 shiftDown caps = JNull
  /\ JStr "" <> JStr newline
  /\ JStr "" <> JNull
  /\ (forall s : string, JNull <> JStr s)
  /\ (forall currentLine : string,
        handleKeyPress currentLine (getCharFromKeyCode code shiftDown caps)
        = (currentLine, None)).
Proof.
  intros Hnone.
  assert (Hres : getCharFromKeyCode code shiftDown caps = JStr "").
  { unfold getCharFromKeyCode. rewrite Hnone. reflexivity. }
  repeat split.
  - exact Hres.
  - discriminate.
  - discriminate.
  - intros s; discriminate.
  - intros currentLine. rewrite Hres. reflexivity.
Qed.

Lemma getChar_unmapped_no_output_witness :
  getCharFromKeyCode 55 true false = JStr ""
  /\ getCharFromKeyCode 28 true false = JStr newline
  /\ getCharFromKeyCode 14 true false = JNull
  /\ JStr "" <> JStr newline
  /\ JStr "" <> JNull
  /\ (forall s : string, JNull <> JStr s)
  /\ (forall currentLine : string,
        handleKeyPress currentLine (getCharFromKeyCode 55 true false)
        = (currentLine, None)).
Proof.
  apply (getChar_unmapped_no_output 55 true false). reflexivity.
Defined.

(** C10. A key code whose entry in [keyCodeMap] is a name of more than one
    character other than SPACE, BACKSPACE, ENTER and TAB decodes to the
    empty string, the result of an unmapped code, under every modifier
    state; so do DEL (111) and the arrow keys (103, 105, 106, 108). *)
Theorem getChar_named_key_no_output (code : Z) (key : string)
  (shiftDown caps : bool) :
  lookupZ code keyCodeMap = Some key ->
  (1 < String.length key)%nat ->
  key <> "SPACE" -> key <> "BACKSPACE" -> key <> "ENTER" -> key <> "TAB" ->
  getCharFromKeyCode code shiftDown caps = JStr ""
  /\ getCharFromKeyCode code shiftDown caps = getCharFromKeyCode 0 shiftDown caps
  /\ Forall (fun k => getCharFromKeyCode k shiftDown caps = JStr "")
            [111; 103; 105; 106; 108].
Proof.
  intros Hlk Hlen Hsp Hbs Hen Htab.
  assert (Hres : getCharFromKeyCode code shiftDown caps = JStr "").
  { pose proof (proj1 (forallb_forall _ _) keyCodeMap_named_silent
                  (code, key) (lookupZ_In _ _ _ Hlk)) as Hentry.
    unfold namedEntrySilent in Hentry. cbn [fst snd] in Hentry.
    apply Nat.ltb_lt in Hlen. rewrite Hlen in Hentry.
    assert (Hspecial : isSpecialName key = false).
    { unfold isSpecialName.
      apply String.eqb_neq in Hsp, Hbs, Hen, Htab.
      rewrite Hsp, Hbs, Hen, Htab. reflexivity. }
    rewrite Hspecial in Hentry. cbn [negb andb] in Hentry.
    apply isEmptyStr_true.
    exact (proj1 (forallb_forall _ _) Hentry (shiftDown, caps)
             (modifiers_all shiftDown caps)). }
  split; [exact Hres |].
  split; [rewrite Hres; reflexivity |].
  destruct shiftDown, caps; repeat constructor.
Qed.

Lemma getChar_named_key_no_output_witness :
  getCharFromKeyCode 111 true true = JStr ""
  /\ getCharFromKeyCode 111 true true = getCharFromKeyCode 0 true true
  /\ Forall (fun k => getCharFromKeyCode k true true = JStr "")
            [111; 103; 105; 106; 108].
Proof.
  apply (getChar_named_key_no_output 111 "DEL" true true);
    [reflexivity | simpl; lia | discriminate ..].
Defined.

End KeyDecoderProps.


(* ====================================================================== *)
(** ** Read loop and modifier state                                        *)
(* ====================================================================== *)

Module ReadLoopProps.
Import JsString KeyDecoder.

Local Open Scope Z_scope.

(** The 24-byte record of an auto-repeat of the left shift key: type 1,
    code 42, value 2. *)
Definition shiftRepeatRecord : list Z :=
  repeat 0 16 ++ [1; 0; 42; 0; 2; 0; 0; 0].

(** The record of a key-down of the letter [a] (code 30). *)
Definition keyDownA : list Z :=
  repeat 0 16 ++ [1; 0; 30; 0; 1; 0; 0; 0].

Lemma shiftRepeatRecord_parse :
  parseRecord shiftRepeatRecord = mkEvent 1 42 2.
Proof. reflexivity. Qed.

(** In the worker's read loop an event of another code than 42 whose value
    is neither 0 nor 1 posts nothing and keeps the state. *)
Lemma processEvent_other_value_frame (st : KeyboardState) (ev : InputEvent) :
  ev_value ev <> 1 -> ev_code ev <> 42 ->
  processEvent st ev = (st, []).
Proof.
  intros Hv Hc. unfold processEvent.
  destruct (ev_type ev =? 1); [| reflexivity].
  destruct (Z.eqb_spec (ev_code ev) 42) as [E | _]; [contradiction |].
  destruct (Z.eqb_spec (ev_value ev) 1) as [E | _]; [contradiction |].
  destruct (ev_code ev =? 58); reflexivity.
Qed.

(** A key-up posts no key press, keeps caps lock, and changes shift only by
    releasing it. *)
Lemma processEvent_key_up (st : KeyboardState) (ev : InputEvent) :
  ev_value ev = 0 ->
  keypresses (snd (processEvent st ev)) = []
  /\ isCapsLock (fst (processEvent st ev)) = isCapsLock st
  /\ (isShiftPressed (fst (processEvent st ev)) = isShiftPressed st
      \/ isShiftPressed (fst (processEvent st ev)) = false).
Proof.
  intros Hv. unfold processEvent. rewrite Hv. cbn.
  destruct (ev_type ev =? 1); [| cbn; auto].
  destruct (ev_code ev =? 42); [cbn; auto |].
  destruct (ev_code ev =? 58); cbn; auto.
Qed.

(** The single-keyboard script's loop ignores every value other than 0 and
    1, whatever the code. *)
Lemma readEvents_other_value_frame (buf : InputBuffer) (ev : InputEvent) :
  ev_value ev <> 1 -> ev_value ev <> 0 ->
  readEvents buf ev = (buf, None).
Proof.
  intros H1 H0. unfold readEvents.
  destruct (ev_type ev =? 1); [| reflexivity].
  destruct (Z.eqb_spec (ev_value ev) 1) as [E | _]; [contradiction |].
  destruct (Z.eqb_spec (ev_value ev) 0) as [E | _]; [contradiction |].
  reflexivity.
Qed.

(** C6. The worker's read loop at an auto-repeat of the left shift key
    (type 1, code 42, value 2) while shift is held: the event posts no key
    press, but [isShiftPressed] becomes [false], so the letter typed next
    comes out in lower case.  The single-keyboard script's loop keeps its
    state on the same event. *)
Theorem readLoop_shift_autorepeat_releases :
  let held := mkState true false in
  processEvent held (mkEvent 1 42 2) = (mkState false false, [MsgShift false])
  /\ readLoopStep held shiftRepeatRecord = (mkState false false, [MsgShift false])
  /\ keypresses (snd (readLoopStep held shiftRepeatRecord)) = []
  /\ fst (readLoopStep held shiftRepeatRecord) <> held
  /\ keypresses (snd (readLoop held [keyDownA])) = [JStr "A"]
  /\ keypresses (snd (readLoop held [shiftRepeatRecord; keyDownA])) = [JStr "a"]
  /\ readEvents (mkBuffer "" true false) (mkEvent 1 42 2)
     = (mkBuffer "" true false, None).
Proof.
  cbv zeta.
  repeat split; try reflexivity.
  intros Heq. discriminate Heq.
Qed.

End ReadLoopProps.

(* ====================================================================== *)
(** ** Device locator                                                      *)
(* ====================================================================== *)

Module LocatorProps.
Import JsString Effects Locator.

(** The loop returns the first candidate that exists, having probed it and
    every candidate before it, and nothing after it. *)
Lemma probePaths_found (existsSync : string -> bool) (paths : list string)
  (p : string) :
  fst (probePaths existsSync paths) = Some p ->
  exists before after,
    paths = before ++ p :: after
    /\ existsSync p = true
    /\ Forall (fun q => existsSync q = false) before
    /\ snd (probePaths existsSync paths) = before ++ [p].
Proof.
  induction paths as [| q rest IH]; simpl; [discriminate |].
  destruct (existsSync q) eqn:Eq.
  - simpl. intros H; injection H as <-.
    exists [], rest. repeat split; auto.
  - destruct (probePaths existsSync rest) as [r checked] eqn:Er. simpl in *.
    intros H. destruct (IH H) as (before & after & -> & Hp & Hall & Hsnd).
    exists (q :: before), after. repeat split; auto.
    simpl. now rewrite Hsnd.
Qed.

(** When no candidate exists the loop answers [None] after probing all of
    them. *)
Lemma probePaths_none (existsSync : string -> bool) (paths : list string) :
  (forall q, In q paths -> existsSync q = false) ->
  probePaths existsSync paths = (None, paths).
Proof.
  induction paths as [| q rest IH]; simpl; intros Hall; [reflexivity |].
  rewrite (Hall q (or_introl eq_refl)).
  rewrite IH; [reflexivity |]. intros r Hr. apply Hall. now right.
Qed.

Lemma probePaths_ext (e1 e2 : string -> bool) (paths : list string) :
  (forall p, e1 p = e2 p) -> probePaths e1 paths = probePaths e2 paths.
Proof.
  intros Hext. induction paths as [| q rest IH]; simpl; [reflexivity |].
  rewrite Hext, IH. reflexivity.
Qed.

(** A candidate that exists, with none existing before it, is the answer,
    and the probing stops at it. *)
Lemma probePaths_first (existsSync : string -> bool)
  (before after : list string) (p : string) :
  Forall (fun q => existsSync q = false) before ->
  existsSync p = true ->
  probePaths existsSync (before ++ p :: after) = (Some p, before ++ [p]).
Proof.
  intros Hbefore Hp.
  induction Hbefore as [| q rest Hq _ IH]; cbn [app probePaths].
  - now rewrite Hp.
  - now rewrite Hq, IH.
Qed.

(** As soon as one candidate exists the loop answers with a path. *)
Lemma probePaths_some (existsSync : string -> bool) (paths : list string)
  (p : string) :
  In p paths -> existsSync p = true ->
  exists found, fst (probePaths existsSync paths) = Some found.
Proof.
  induction paths as [| q rest IH]; cbn [In probePaths]; [contradiction |].
  intros Hin Hp. destruct (existsSync q) eqn:Eq; [now exists q |].
  destruct Hin as [-> | Hin]; [congruence |].
  destruct (IH Hin Hp) as [found Hfound]. exists found.
  destruct (probePaths existsSync rest). exact Hfound.
Qed.

(** C8. [getDevicePath] probes its fixed candidate list, the eight device
    nodes of the source, in order and returns the first path that exists:
    a candidate that exists while none before it does is returned, after
    probing it and the ones before it and nothing else; so a path is
    returned as soon as one candidate exists, and a returned path is always
    such a first candidate.  When [/dev/usb/lp0] is missing and
    [/dev/usb/lp1] exists it returns [/dev/usb/lp1] after probing these two
    (and so does the loop on the two-candidate list); when no candidate
    exists it returns [None] after probing all of them. *)
Theorem getDevicePath_first_existing (existsSync : string -> bool)
  (device : UsbDevice) :
  printerPaths
  = [ "/dev/usb/lp0"; "/dev/usb/lp1"; "/dev/usb/lp2"; "/dev/usb/lp3";
      "/dev/lp0"; "/dev/lp1"; "/dev/lp2"; "/dev/lp3" ]
  /\ (forall before p after,
        printerPaths = before ++ p :: after ->
        Forall (fun q => existsSync q = false) before ->
        existsSync p = true ->
        getDevicePath existsSync device = (Some p, before ++ [p]))
  /\ (forall p, In p printerPaths -> existsSync p = true ->
        exists found, fst (getDevicePath existsSync device) = Some found)
  /\ (forall p, fst (getDevicePath existsSync device) = Some p ->
     exists before after,
       printerPaths = before ++ p :: after
       /\ existsSync p = true
       /\ Forall (fun q => existsSync q = false) before
       /\ snd (getDevicePath existsSync device) = before ++ [p])
  /\ (existsSync "/dev/usb/lp0" = false -> existsSync "/dev/usb/lp1" = true ->
      getDevicePath existsSync device
      = (Some "/dev/usb/lp1", ["/dev/usb/lp0"; "/dev/usb/lp1"])
      /\ probePaths existsSync ["/dev/usb/lp0"; "/dev/usb/lp1"]
         = (Some "/dev/usb/lp1", ["/dev/usb/lp0"; "/dev/usb/lp1"]))
  /\ ((forall q, In q printerPaths -> existsSync q = false) ->
      getDevicePath existsSync device = (None, printerPaths))
  /\ (existsSync "/dev/usb/lp0" = false -> existsSync "/dev/usb/lp1" = false ->
      probePaths existsSync ["/dev/usb/lp0"; "/dev/usb/lp1"]
      = (None, ["/dev/usb/lp0"; "/dev/usb/lp1"])).
Proof.
  unfold getDevicePath.
  split; [reflexivity |].
  split; [intros before p after -> Hbefore Hp; now apply probePaths_first |].
  split; [intros p Hin Hp; now apply (probePaths_some _ _ p) |].
  split; [| split; [| split]].
  - intros p Hp. now apply probePaths_found.
  - intros H0 H1. unfold printerPaths. simpl. rewrite H0, H1. split; reflexivity.
  - apply probePaths_none.
  - intros H0 H1. simpl. rewrite H0, H1. reflexivity.
Qed.

Definition onlyLp1 (path : string) : bool := String.eqb path "/dev/usb/lp1".

Definition onlyLp2 (path : string) : bool := String.eqb path "/dev/usb/lp2".

Lemma getDevicePath_first_existing_witness :
  getDevicePath onlyLp1 (mkUsb 1208 514)
  = (Some "/dev/usb/lp1", ["/dev/usb/lp0"; "/dev/usb/lp1"])
  /\ getDevicePath (fun _ => false) (mkUsb 1208 514) = (None, printerPaths)
  /\ getDevicePath onlyLp2 (mkUsb 1208 514)
     = (Some "/dev/usb/lp2",
        ["/dev/usb/lp0"; "/dev/usb/lp1"; "/dev/usb/lp2"]).
Proof.
  pose proof (getDevicePath_first_existing onlyLp1 (mkUsb 1208 514))
    as (_ & _ & _ & _ & Hlp1 & _).
  pose proof (getDevicePath_first_existing (fun _ => false) (mkUsb 1208 514))
    as (_ & _ & _ & _ & _ & Hnone & _).
  pose proof (getDevicePath_first_existing onlyLp2 (mkUsb 1208 514))
    as (_ & Hfirst & _).
  split; [apply Hlp1; reflexivity |].
  split; [apply Hnone; intros q _; reflexivity |].
  apply (Hfirst ["/dev/usb/lp0"; "/dev/usb/lp1"] "/dev/usb/lp2"
           ["/dev/usb/lp3"; "/dev/lp0"; "/dev/lp1"; "/dev/lp2"; "/dev/lp3"]).
  - reflexivity.
  - repeat constructor.
  - reflexivity.
Defined.

End LocatorProps.


(* ====================================================================== *)
(** ** Keyboard discovery                                                  *)
(* ====================================================================== *)

Module DiscoveryProps.
Import JsString Effects Locator.

Definition inputPath (device : string) : string :=
  String.append "/dev/input/" device.

Definition byIdPath (device : string) : string :=
  String.append "/dev/input/by-id/" device.

(** What each strategy finds, as a function of the environment: a query
    that throws counts as a node that is no keyboard, a listing that throws
    as an empty listing. *)
Definition isKeyboardNode (env : DiscoveryEnv) (device : string) : bool :=
  match udevadmInfo env (inputPath device) with
  | Some info => includes "keyboard" info
  | None => false
  end.

Definition eventNodes (files : list string) : list string :=
  filter (startsWith "event") files.

Definition foundByUdev (env : DiscoveryEnv) (files : list string) : list string :=
  map inputPath (filter (isKeyboardNode env) (eventNodes files)).

Definition kbdEntries (files : list string) : list string :=
  filter (fun file => includes "kbd" (toLowerCase file)) files.

Definition foundById (env : DiscoveryEnv) : list string :=
  match readdirById env with
  | Some files => filter (pathExists env) (map byIdPath (kbdEntries files))
  | None => []
  end.

Fixpoint evtestPaths (env : DiscoveryEnv) (lines : list string) : list string :=
  match lines with
  | [] => []
  | line :: rest =>
      if includes "keyboard" (toLowerCase line) then
        match rest with
        | [] => []
        | next :: rest' =>
            let path := hd EmptyString (split " "%char (trim next)) in
            (if truthy path && pathExists env path then [path] else [])
            ++ evtestPaths env rest'
        end
      else evtestPaths env rest
  end.

Definition foundByEvtest (env : DiscoveryEnv) : list string :=
  match evtestList env with
  | Some out => evtestPaths env (split (ascii_of_nat 10) out)
  | None => []
  end.

Definition isExistsCall (c : FsCall) : Prop :=
  match c with CallExists _ => True | _ => False end.

Lemma bind_normal {S R A B} (m : M S R A) (k : A -> M S R B) (s s' : S) (a : A) :
  m s = (Normal a, s') -> bind m k s = k a s'.
Proof. intros H. unfold bind. now rewrite H. Qed.

Lemma bind_throw {S R A B} (m : M S R A) (k : A -> M S R B) (s s' : S) :
  m s = (Throw, s') -> bind m k s = (Throw, s').
Proof. intros H. unfold bind. now rewrite H. Qed.

(** The first strategy's loop never throws: it queries every event node
    and keeps those that answer as a keyboard. *)
Lemma forEach_checkEventDevice (env : DiscoveryEnv) (devs : list string)
  (s : DetectState) :
  forEach (checkEventDevice env) devs s
  = (Normal tt,
     mkDetectState
       (calls s ++ map (fun d => CallUdevadm (inputPath d)) devs)
       (keyboardDevices s ++ map inputPath (filter (isKeyboardNode env) devs))).
Proof.
  revert s. induction devs as [| d rest IH]; intros [cs kd]; simpl.
  - now rewrite !app_nil_r.
  - unfold bind at 1, checkEventDevice, tryCatch, doUdevadm, bind, record,
      modify, orThrow, isKeyboardNode, inputPath.
    cbn [calls keyboardDevices].
    destruct (udevadmInfo env (String.append "/dev/input/" d)) as [info |];
      cbn.
    + destruct (includes "keyboard" info); cbn; rewrite IH; cbn;
        now rewrite <- !app_assoc.
    + rewrite IH; cbn. now rewrite <- !app_assoc.
Qed.

(** The second strategy's loop never throws either. *)
Lemma forEach_checkByIdDevice (env : DiscoveryEnv) (devs : list string)
  (s : DetectState) :
  forEach (checkByIdDevice env) devs s
  = (Normal tt,
     mkDetectState
       (calls s ++ map (fun d => CallExists (byIdPath d)) devs)
       (keyboardDevices s ++ filter (pathExists env) (map byIdPath devs))).
Proof.
  revert s. induction devs as [| d rest IH]; intros [cs kd]; simpl.
  - now rewrite !app_nil_r.
  - unfold bind at 1, checkByIdDevice, doExists, bind, record, modify, ret,
      byIdPath.
    cbn [calls keyboardDevices].
    destruct (pathExists env (String.append "/dev/input/by-id/" d)); cbn;
      rewrite IH; cbn; now rewrite <- !app_assoc.
Qed.

(** The third strategy's loop may throw, on a keyboard line that ends the
    listing; the devices pushed before that stay pushed. *)
Lemma scanEvtestLines_spec (env : DiscoveryEnv) (n : nat) :
  forall (lines : list string) (s : DetectState),
    (List.length lines <= n)%nat ->
    exists c cs,
      scanEvtestLines env lines s
      = (c, mkDetectState (calls s ++ cs)
                          (keyboardDevices s ++ evtestPaths env lines))
      /\ (c = Normal tt \/ c = Throw)
      /\ Forall isExistsCall cs.
Proof.
  induction n as [| n IH]; intros lines [cs kd] Hlen.
  - destruct lines; [| simpl in Hlen; lia].
    exists (Normal tt), []. simpl. rewrite !app_nil_r. auto.
  - destruct lines as [| line rest].
    { exists (Normal tt), []. simpl. rewrite !app_nil_r. auto. }
    simpl in Hlen. simpl.
    destruct (includes "keyboard" (toLowerCase line)).
    + destruct rest as [| next rest'].
      { exists Throw, []. cbn. rewrite !app_nil_r. auto. }
      simpl in Hlen.
      set (path := hd EmptyString (split " "%char (trim next))).
      destruct (truthy path) eqn:Et; cbn [andb].
      * unfold bind at 1, bind at 1, doExists, bind, record, modify, ret, when.
        cbn [calls keyboardDevices].
        destruct (pathExists env path) eqn:Ep; cbn;
          match goal with
          | |- context [scanEvtestLines env rest' ?st] =>
              destruct (IH rest' st ltac:(lia)) as (c & cs' & Heq & Hc & Hcs)
          end;
          rewrite Heq; cbn [calls keyboardDevices];
          exists c, (CallExists path :: cs');
          repeat split;
          solve [ now rewrite <- !app_assoc
                | exact Hc
                | constructor; [exact I | exact Hcs] ].
      * unfold bind at 1, ret.
        destruct (IH rest' (mkDetectState cs kd) ltac:(lia))
          as (c & cs' & Heq & Hc & Hcs).
        rewrite Heq. exists c, cs'. cbn [calls keyboardDevices]. auto.
    + apply IH. lia.
Qed.

Definition udevCalls (files : list string) : list FsCall :=
  map (fun d => CallUdevadm (inputPath d)) (eventNodes files).

Definition byIdCalls (env : DiscoveryEnv) : list FsCall :=
  CallReaddirById ::
  match readdirById env with
  | Some ids => map (fun d => CallExists (byIdPath d)) (kbdEntries ids)
  | None => []
  end.

Ltac stepM :=
  cbv beta iota zeta delta
    [detectKeyboardDevices tryCatch detectBody bind doReaddirInput
     doReaddirById doEvtest record modify orThrow ret noneFound gets when
     returnWith throw calls keyboardDevices fst snd].

Ltac listnorm :=
  repeat first [rewrite <- app_assoc | progress cbn [app]]; reflexivity.

Lemma detect_result (env : DiscoveryEnv) (files : list string) :
  readdirInput env = Some files ->
  exists tailCalls,
    Forall isExistsCall tailCalls /\
    detectKeyboardDevices env =
      match foundByUdev env files with
      | _ :: _ =>
          (Return (foundByUdev env files),
           mkDetectState (CallReaddirInput :: udevCalls files)
                         (foundByUdev env files))
      | [] =>
          match foundById env with
          | _ :: _ =>
              (Return (foundById env),
               mkDetectState
                 (CallReaddirInput :: udevCalls files ++ byIdCalls env)
                 (foundById env))
          | [] =>
              (Return (foundByEvtest env),
               mkDetectState
                 (CallReaddirInput :: udevCalls files ++ byIdCalls env
                    ++ CallEvtest :: tailCalls)
                 (foundByEvtest env))
          end
      end.
Proof.
  intros Hin.
  stepM. rewrite Hin. stepM.
  rewrite forEach_checkEventDevice. stepM.
  fold (eventNodes files). fold (foundByUdev env files). fold (udevCalls files).
  cbn [app].
  destruct (foundByUdev env files) as [| a0 a] eqn:Ea; cbn [List.length Nat.eqb].
  2:{ exists []. split; [constructor | reflexivity]. }
  unfold foundById, byIdCalls, foundByEvtest.
  destruct (readdirById env) as [ids |] eqn:Eid.
  - rewrite forEach_checkByIdDevice. stepM.
    fold (kbdEntries ids). cbn [app].
    destruct (filter (pathExists env) (map byIdPath (kbdEntries ids)))
      as [| b0 b] eqn:Eb; cbn [List.length Nat.eqb].
    2:{ exists []. split; [constructor |]. listnorm. }
    destruct (evtestList env) as [out |] eqn:Eev.
    + match goal with
      | |- context [scanEvtestLines env ?ls ?st] =>
          destruct (scanEvtestLines_spec env (List.length ls) ls st (le_n _))
            as (c & cs & Heq & Hc & Hcs)
      end.
      rewrite Heq. cbn [calls keyboardDevices app].
      exists cs. split; [exact Hcs |].
      destruct Hc as [-> | ->]; listnorm.
    + exists []. split; [constructor |]. listnorm.
  - cbn [List.length Nat.eqb].
    destruct (evtestList env) as [out |] eqn:Eev.
    + match goal with
      | |- context [scanEvtestLines env ?ls ?st] =>
          destruct (scanEvtestLines_spec env (List.length ls) ls st (le_n _))
            as (c & cs & Heq & Hc & Hcs)
      end.
      rewrite Heq. cbn [calls keyboardDevices app].
      exists cs. split; [exact Hcs |].
      destruct Hc as [-> | ->]; listnorm.
    + exists []. split; [constructor |]. listnorm.
Qed.

Lemma notIn_udevCalls (c : FsCall) (files : list string) :
  (forall path, c <> CallUdevadm path) -> ~ In c (udevCalls files).
Proof.
  intros Hc Hin. unfold udevCalls in Hin.
  apply in_map_iff in Hin. destruct Hin as (d & Hd & _).
  exact (Hc _ (eq_sym Hd)).
Qed.

Lemma notIn_byIdCalls_evtest (env : DiscoveryEnv) :
  ~ In CallEvtest (byIdCalls env).
Proof.
  unfold byIdCalls. intros [H | H]; [discriminate |].
  destruct (readdirById env); [| contradiction].
  apply in_map_iff in H. destruct H as (d & Hd & _). discriminate.
Qed.

(** A missing or unreadable [/dev/input], with a keyboard under
    [/dev/input/by-id]. *)
Definition envUnreadable : DiscoveryEnv :=
  mkDiscoveryEnv None (fun _ => None)
    (Some ["usb-Acme_Keyboard-event-kbd"]) (fun _ => true) None.

(** The same system with a readable, empty [/dev/input]. *)
Definition envEmptyInput : DiscoveryEnv :=
  mkDiscoveryEnv (Some []) (fun _ => None)
    (Some ["usb-Acme_Keyboard-event-kbd"]) (fun _ => true) None.

(** No [udevadm], no [/dev/input/by-id], and an [evtest] that lists a
    keyboard. *)
Definition envEvtestOnly : DiscoveryEnv :=
  mkDiscoveryEnv (Some ["event0"; "mice"]) (fun _ => None) None
    (fun _ => true)
    (Some (String.append "Acme USB Keyboard"
             (String.append newline "/dev/input/event0 (usb)"))).

(** C7, as stated, fails: when listing [/dev/input] throws, discovery ends
    with the empty result and neither the by-id strategy nor the [evtest]
    strategy is attempted, although the by-id strategy would have found a
    keyboard, as it does once [/dev/input] can be listed. *)
Lemma detectKeyboardDevices_listing_failure_aborts :
  readdirInput envUnreadable = None
  /\ detectKeyboardDevices envUnreadable
     = (Return [], mkDetectState [CallReaddirInput] [])
  /\ ~ In CallReaddirById (calls (snd (detectKeyboardDevices envUnreadable)))
  /\ ~ In CallEvtest (calls (snd (detectKeyboardDevices envUnreadable)))
  /\ foundById envUnreadable = ["/dev/input/by-id/usb-Acme_Keyboard-event-kbd"]
  /\ fst (detectKeyboardDevices envEmptyInput)
     = Return ["/dev/input/by-id/usb-Acme_Keyboard-event-kbd"].
Proof.
  split; [reflexivity |].
  split; [reflexivity |].
  split; [| split; [| split; reflexivity]].
  - cbn. intros [H | []]. discriminate H.
  - cbn. intros [H | []]. discriminate H.
Qed.

(** C7, amended.  [detectKeyboardDevices] always returns a list.  When
    [/dev/input] can be listed, a device query that throws counts as a node
    that is no keyboard, a by-id listing that throws and an [evtest] that
    throws count as strategies that found nothing, and each later strategy
    is attempted exactly when the earlier ones found nothing.  When listing
    [/dev/input] throws, discovery ends at once with the empty list. *)
Theorem detectKeyboardDevices_fallthrough (env : DiscoveryEnv) :
  (exists found, fst (detectKeyboardDevices env) = Return found)
  /\ (readdirInput env = None ->
      detectKeyboardDevices env
      = (Return [], mkDetectState [CallReaddirInput] []))
  /\ (forall files, readdirInput env = Some files ->
      let log := calls (snd (detectKeyboardDevices env)) in
      (foundByUdev env files <> [] ->
         fst (detectKeyboardDevices env) = Return (foundByUdev env files)
         /\ ~ In CallReaddirById log /\ ~ In CallEvtest log)
      /\ (foundByUdev env files = [] ->
          In CallReaddirById log
          /\ (foundById env <> [] ->
              fst (detectKeyboardDevices env) = Return (foundById env)
              /\ ~ In CallEvtest log)
          /\ (foundById env = [] ->
              In CallEvtest log
              /\ fst (detectKeyboardDevices env)
                 = Return (foundByEvtest env)))).
Proof.
  assert (Hnone : readdirInput env = None ->
                  detectKeyboardDevices env
                  = (Return [], mkDetectState [CallReaddirInput] [])).
  { intros Hin. stepM. rewrite Hin. reflexivity. }
  assert (Hsome : forall files, readdirInput env = Some files ->
      let log := calls (snd (detectKeyboardDevices env)) in
      (foundByUdev env files <> [] ->
         fst (detectKeyboardDevices env) = Return (foundByUdev env files)
         /\ ~ In CallReaddirById log /\ ~ In CallEvtest log)
      /\ (foundByUdev env files = [] ->
          In CallReaddirById log
          /\ (foundById env <> [] ->
              fst (detectKeyboardDevices env) = Return (foundById env)
              /\ ~ In CallEvtest log)
          /\ (foundById env = [] ->
              In CallEvtest log
              /\ fst (detectKeyboardDevices env)
                 = Return (foundByEvtest env)))).
  { intros files Hin log. subst log.
    destruct (detect_result env files Hin) as (tailCalls & Htail & Hres).
    rewrite Hres. clear Hres.
    destruct (foundByUdev env files) as [| a0 a] eqn:Ea.
    - split; [intros Hne; now elim Hne |]. intros _.
      destruct (foundById env) as [| b0 b] eqn:Eb; cbn [fst snd calls].
      + split.
        { right. apply in_or_app. right. left. reflexivity. }
        split; [intros Hne; now elim Hne |]. intros _.
        split; [| reflexivity].
        right. apply in_or_app. right. apply in_or_app. right. now left.
      + split.
        { right. apply in_or_app. right. left. reflexivity. }
        split; [| intros Hb; discriminate Hb]. intros _.
        split; [reflexivity |].
        intros [H | H]; [discriminate H |].
        apply in_app_or in H. destruct H as [H | H].
        * revert H. apply notIn_udevCalls. intros path; discriminate.
        * revert H. apply notIn_byIdCalls_evtest.
    - split; [| intros Hnil; discriminate Hnil]. intros _.
      cbn [fst snd calls].
      split; [reflexivity |].
      split; (intros [H | H]; [discriminate H |]);
        revert H; apply notIn_udevCalls; intros path; discriminate. }
  split; [| split; assumption].
  destruct (readdirInput env) as [files |] eqn:Hin.
  - destruct (Hsome files eq_refl) as [Ha Hb].
    destruct (foundByUdev env files) as [| a0 a] eqn:Ea.
    + destruct (Hb eq_refl) as (_ & Hb1 & Hb2).
      destruct (foundById env) as [| b0 b] eqn:Eb.
      * exists (foundByEvtest env). apply Hb2. reflexivity.
      * exists (b0 :: b). apply Hb1. discriminate.
    + exists (a0 :: a). apply Ha. discriminate.
  - exists []. rewrite (Hnone eq_refl). reflexivity.
Qed.

Lemma detectKeyboardDevices_fallthrough_witness :
  In CallReaddirById (calls (snd (detectKeyboardDevices envEvtestOnly)))
  /\ In CallEvtest (calls (snd (detectKeyboardDevices envEvtestOnly)))
  /\ fst (detectKeyboardDevices envEvtestOnly) = Return ["/dev/input/event0"].
Proof.
  destruct (proj2 (proj2 (detectKeyboardDevices_fallthrough envEvtestOnly))
              ["event0"; "mice"] eq_refl) as [_ Hb].
  destruct (Hb eq_refl) as (Hbyid & _ & Hev).
  destruct (Hev eq_refl) as (Hcall & Hres).
  split; [exact Hbyid | split; [exact Hcall | exact Hres]].
Defined.

End DiscoveryProps.


(* ====================================================================== *)
(** ** Presence poller                                                     *)
(* ====================================================================== *)

Module PollerProps.
Import JsString Locator.

(** What one iteration detects. *)
Definition detectAt (world : nat -> World) (i : nat) : list Printer :=
  detectEpsonPrinters (usbDevices (world i)) (existsSync (world i)).

Lemma matchProduct_ext (e1 e2 : string -> bool) (device : UsbDevice)
  (entries : list (string * Z)) :
  (forall p, e1 p = e2 p) ->
  matchProduct e1 device entries = matchProduct e2 device entries.
Proof.
  intros Hext. induction entries as [| [mdl pid] rest IH]; simpl; [reflexivity |].
  unfold getDevicePath. rewrite (LocatorProps.probePaths_ext e1 e2 _ Hext).
  now rewrite IH.
Qed.

Lemma detectEpsonPrinters_ext (usb : option (list UsbDevice))
  (e1 e2 : string -> bool) :
  (forall p, e1 p = e2 p) ->
  detectEpsonPrinters usb e1 = detectEpsonPrinters usb e2.
Proof.
  intros Hext. destruct usb as [devices |]; [| reflexivity].
  cbn [detectEpsonPrinters].
  induction devices as [| d rest IH]; cbn [scanUsb]; [reflexivity |].
  now rewrite IH, (matchProduct_ext e1 e2 d _ Hext).
Qed.

(** The loop started at iteration [i] returns at the first iteration from
    [i] on that detects a printer, with the first printer detected there. *)
Lemma waitForPrinter_returns (world : nat -> World) (n : nat) :
  forall (fuel i : nat) (p : Printer) (rest : list Printer),
    (forall j, j < n -> detectAt world (i + j) = []) ->
    detectAt world (i + n) = p :: rest ->
    n < fuel ->
    waitForPrinter fuel world i = (Some p, S (i + n)).
Proof.
  induction n as [| n IH]; intros fuel i p rest Hbefore Hat Hfuel.
  - destruct fuel as [| f]; [lia |]. simpl.
    rewrite Nat.add_0_r in Hat. unfold detectAt in Hat. rewrite Hat.
    now rewrite Nat.add_0_r.
  - destruct fuel as [| f]; [lia |]. simpl.
    pose proof (Hbefore 0 ltac:(lia)) as H0.
    rewrite Nat.add_0_r in H0. unfold detectAt in H0. rewrite H0.
    rewrite (IH f (S i) p rest).
    + f_equal. f_equal. lia.
    + intros j Hj. replace (S i + j) with (i + S j) by lia.
      apply Hbefore. lia.
    + replace (S i + n) with (i + S n) by lia. exact Hat.
    + lia.
Qed.

(** While nothing is detected the loop keeps polling. *)
Lemma waitForPrinter_pending (world : nat -> World) :
  forall (fuel i : nat),
    (forall j, j < fuel -> detectAt world (i + j) = []) ->
    waitForPrinter fuel world i = (None, i + fuel).
Proof.
  induction fuel as [| f IH]; intros i Hnone; simpl.
  - now rewrite Nat.add_0_r.
  - pose proof (Hnone 0 ltac:(lia)) as H0.
    rewrite Nat.add_0_r in H0. unfold detectAt in H0. rewrite H0.
    rewrite IH.
    + f_equal. lia.
    + intros j Hj. replace (S i + j) with (i + S j) by lia.
      apply Hnone. lia.
Qed.

(** The loop reads the USB list and the file system and nothing else. *)
Lemma waitForPrinter_reads (w1 w2 : nat -> World) :
  (forall i, usbDevices (w1 i) = usbDevices (w2 i)) ->
  (forall i p, existsSync (w1 i) p = existsSync (w2 i) p) ->
  forall fuel i, waitForPrinter fuel w1 i = waitForPrinter fuel w2 i.
Proof.
  intros Husb Hex. induction fuel as [| f IH]; intros i; simpl; [reflexivity |].
  rewrite (Husb i), (detectEpsonPrinters_ext _ _ _ (Hex i)).
  destruct (detectEpsonPrinters (usbDevices (w2 i)) (existsSync (w2 i)));
    [apply IH | reflexivity].
Qed.

(** A system that is shutting down from the first iteration on, and whose
    printer appears at the third. *)
Definition epson : UsbDevice := mkUsb 1208 514.

Definition lateWorld (i : nat) : World :=
  mkWorld (Some (if (2 <=? i)%nat then [epson] else []))
          (fun path => String.eqb path "/dev/usb/lp0")
          true.

Definition lp0Printer : Printer :=
  mkPrinter "TM-T88IV" "04b8" "0202" "/dev/usb/lp0".

(** C9, as stated, fails: with shutdown requested before the first
    detection and at every later iteration, and no printer detected at the
    first two iterations, the loop still returns the printer that the third
    iteration detects. *)
Lemma waitForPrinter_ignores_shutdown :
  (forall i, isShuttingDown (lateWorld i) = true)
  /\ detectAt lateWorld 0 = []
  /\ detectAt lateWorld 1 = []
  /\ waitForPrinter 3 lateWorld 0 = (Some lp0Printer, 3)
  /\ ~ (forall fuel world k,
          isShuttingDown (world k) = true ->
          (forall j, j <= k -> detectAt world j = []) ->
          fst (waitForPrinter fuel world 0) = None).
Proof.
  split; [reflexivity |].
  split; [reflexivity |].
  split; [reflexivity |].
  split; [reflexivity |].
  intros Hclaim.
  specialize (Hclaim 3 lateWorld 0 eq_refl).
  assert (Hquiet : forall j, j <= 0 -> detectAt lateWorld j = []).
  { intros j Hj. replace j with 0 by lia. reflexivity. }
  specialize (Hclaim Hquiet). discriminate Hclaim.
Qed.

(** C9, amended.  [waitForPrinter] takes no cancellation token and does not
    read the shutdown flag: its outcome is a function of what the USB
    enumeration and the file system show at each iteration.  It returns the
    first printer of the first detection that is not empty, after exactly as
    many detections as it took, and keeps polling as long as every detection
    is empty. *)
Theorem waitForPrinter_polls_until_detected (world : nat -> World) (fuel : nat) :
  (forall world',
      (forall i, usbDevices (world i) = usbDevices (world' i)) ->
      (forall i p, existsSync (world i) p = existsSync (world' i) p) ->
      waitForPrinter fuel world 0 = waitForPrinter fuel world' 0)
  /\ (forall n p rest,
        (forall j, j < n -> detectAt world j = []) ->
        detectAt world n = p :: rest ->
        n < fuel ->
        waitForPrinter fuel world 0 = (Some p, S n))
  /\ ((forall j, j < fuel -> detectAt world j = []) ->
      waitForPrinter fuel world 0 = (None, fuel)).
Proof.
  split; [| split].
  - intros world' Husb Hex. now apply waitForPrinter_reads.
  - intros n p rest Hbefore Hat Hfuel.
    exact (waitForPrinter_returns world n fuel 0 p rest Hbefore Hat Hfuel).
  - intros Hnone.
    exact (waitForPrinter_pending world fuel 0 Hnone).
Qed.

(** The same system with the shutdown flag clear. *)
Definition calmWorld (i : nat) : World :=
  mkWorld (usbDevices (lateWorld i)) (existsSync (lateWorld i)) false.

Lemma waitForPrinter_polls_until_detected_witness :
  waitForPrinter 5 lateWorld 0 = waitForPrinter 5 calmWorld 0
  /\ waitForPrinter 5 lateWorld 0 = (Some lp0Printer, 3)
  /\ waitForPrinter 2 lateWorld 0 = (None, 2).
Proof.
  pose proof (waitForPrinter_polls_until_detected lateWorld 5) as (Hread & Hret & _).
  pose proof (waitForPrinter_polls_until_detected lateWorld 2) as (_ & _ & Hpend).
  split; [| split].
  - apply Hread; reflexivity.
  - apply (Hret 2 lp0Printer []).
    + intros j Hj. destruct j as [| [| j]]; [reflexivity | reflexivity | lia].
    + reflexivity.
    + lia.
  - apply Hpend.
    intros j Hj. destruct j as [| [| j]]; [reflexivity | reflexivity | lia].
Defined.

End PollerProps.


(* ====================================================================== *)
(** ** ESC/POS encoders                                                    *)
(* ====================================================================== *)

Module EncoderProps.
Import JsString Encoder.

Local Open Scope Z_scope.

Lemma bufferFrom_app (a b : string) :
  bufferFrom (String.append a b) = bufferFrom a ++ bufferFrom b.
Proof.
  induction a as [| c a IH]; simpl; [reflexivity |].
  now rewrite IH, app_assoc.
Qed.

(** Reading back the first code unit of a buffer. *)
Definition decodeUnit (bytes : list Z) : option (ascii * list Z) :=
  match bytes with
  | [] => None
  | b :: rest =>
      if b <? 128 then Some (ascii_of_nat (Z.to_nat b), rest)
      else
        match rest with
        | [] => None
        | b2 :: rest' =>
            Some (ascii_of_nat
                    (Z.to_nat (Z.lor (Z.shiftl (Z.land b 3) 6) (Z.land b2 63))),
                  rest')
        end
  end.

Lemma decodeUnit_utf8Char (c : ascii) (rest : list Z) :
  decodeUnit (utf8Char c ++ rest) = Some (c, rest).
Proof.
  destruct c as [[|] [|] [|] [|] [|] [|] [|] [|]]; reflexivity.
Qed.

(** [Buffer.from] loses nothing: two strings with the same bytes are the
    same string. *)
Lemma bufferFrom_inj (s1 s2 : string) :
  bufferFrom s1 = bufferFrom s2 -> s1 = s2.
Proof.
  revert s2. induction s1 as [| c1 r1 IH]; intros [| c2 r2] H; simpl in H.
  - reflexivity.
  - apply (f_equal decodeUnit) in H. rewrite decodeUnit_utf8Char in H.
    discriminate H.
  - apply (f_equal decodeUnit) in H. rewrite decodeUnit_utf8Char in H.
    discriminate H.
  - apply (f_equal decodeUnit) in H. rewrite !decodeUnit_utf8Char in H.
    injection H as -> Hr. f_equal. now apply IH.
Qed.

Lemma append_inv_tail (a b t : string) :
  String.append a t = String.append b t -> a = b.
Proof.
  intros H.
  assert (Hl : list_ascii_of_string a ++ list_ascii_of_string t
               = list_ascii_of_string b ++ list_ascii_of_string t).
  { assert (Happ : forall x y, list_ascii_of_string (String.append x y)
                      = list_ascii_of_string x ++ list_ascii_of_string y).
    { induction x as [| c x IHx]; intros y; simpl; [reflexivity |].
      now rewrite IHx. }
    rewrite <- !Happ. now rewrite H. }
  apply app_inv_tail in Hl.
  rewrite <- (string_of_list_ascii_of_string a),
          <- (string_of_list_ascii_of_string b).
  now rewrite Hl.
Qed.

(** The bytes before the text, between the text and the time stamp, and
    after the time stamp. *)
Definition jobHeader : list Z :=
  [27; 64; 27; 97; 1; 27; 33; 48] ++ bufferFrom "PRINT TEST" ++ [10]
  ++ [27; 33; 0; 27; 97; 0] ++ bufferFrom "----------------" ++ [10].

Definition jobMiddle : list Z :=
  [10] ++ bufferFrom "----------------" ++ [10] ++ [27; 97; 1].

Definition jobTrailer : list Z :=
  [10] ++ [27; 97; 0] ++ repeat 10 10%nat ++ [29; 86; 0].

(** The layout of the direct write: initialise, centred double-size title,
    the text between two rules, the centred time stamp, ten line feeds, full
    cut. *)
Lemma formattedText_layout (text stamp : string) :
  formattedText text stamp
  = jobHeader ++ bufferFrom text ++ jobMiddle ++ bufferFrom stamp ++ jobTrailer.
Proof.
  unfold formattedText. cbn [List.concat].
  rewrite !(bufferFrom_app text), !(bufferFrom_app stamp).
  rewrite <- !app_assoc. reflexivity.
Qed.

(** Two encodings of the same text agree only if they read the same time
    string. *)
Lemma formattedText_inj_stamp (text s1 s2 : string) :
  formattedText text s1 = formattedText text s2 -> s1 = s2.
Proof.
  rewrite !formattedText_layout. intros H.
  apply app_inv_head in H. apply app_inv_head in H. apply app_inv_head in H.
  apply app_inv_tail in H. now apply bufferFrom_inj.
Qed.

Example convert_init_and_cut :
  convertEscPosToBuffer
    (String.append "ESC @" (String.append newline "ESC i"))
  = [27; 64; 29; 86; 0].
Proof. reflexivity. Qed.

Example convert_empty : convertEscPosToBuffer "" = [].
Proof. reflexivity. Qed.

Example convert_alignment_and_text :
  convertEscPosToBuffer
    (String.append "; receipt"
       (String.append newline
          (String.append "ESC a 1"
             (String.append newline "Total 12"))))
  = [27; 97; 1] ++ bufferFrom "Total 12" ++ [10].
Proof. reflexivity. Qed.

End EncoderProps.


(* ====================================================================== *)
(** ** Print dispatcher                                                    *)
(* ====================================================================== *)

Module DispatcherProps.
Import JsString Effects Locator Dispatcher.

(** The events of the direct write, as a function of its outcomes: each
    call is made only if the one before it succeeded. *)
Definition directAttempt (env : IoEnv) (path text : string) : list Event :=
  OpenSync path (openOk env) ::
  (if openOk env then
     WriteSync (Encoder.formattedText text (now env)) (writeOk env) ::
     (if writeOk env then [CloseSync (closeOk env)] else [])
   else []).

(** The events of the library transport, without its suspensions. *)
Definition fallbackAttempt (env : IoEnv) (path text : string) : list Event :=
  NewThermalPrinter path :: IsPrinterConnected ::
  Connected (libConnected env) ::
  match libConnected env with
  | Some true =>
      map Lib (libraryJob text (nowLater env))
      ++ [Execute; Executed (libExecuteOk env)]
  | _ => []
  end.

(** Evaluation of a submission by cases on its outcomes. *)
Ltac runIo :=
  cbv beta iota zeta delta
    [printToEpson posPrintToEpson posPrintBody guarded printBody directWrite
     libraryTransport libraryJob directAttempt fallbackAttempt
     sync emit settle tryCatch bind modify ret returnWith throw forEach
     fst snd app negb andb orb map filter forallb written
     isTransport isDirect isFallback directOk fallbackOk
     fsExists fsWritable openOk writeOk closeOk libConnected libExecuteOk
     now nowLater].

Ltac ioCases env printer :=
  let ex := fresh "ex" in
  let wr := fresh "wr" in
  let Eex := fresh "Eex" in
  let Ewr := fresh "Ewr" in
  destruct env as [ex wr [|] [|] [|] [[|]|] [|] ? ?];
  runIo;
  destruct (ex (devicePath printer)) eqn:Eex; runIo;
  try (destruct (wr (devicePath printer)) eqn:Ewr; runIo).

Lemma directAttempt_direct (env : IoEnv) (path text : string) :
  forallb isDirect (directAttempt env path text) = true.
Proof. destruct env as [? ? [|] [|] [|] ? ? ? ?]; reflexivity. Qed.

Lemma fallbackAttempt_fallback (env : IoEnv) (path text : string) :
  forallb isFallback (fallbackAttempt env path text) = true.
Proof. destruct env as [? ? ? ? ? [[|]|] ? ? ?]; reflexivity. Qed.

(** A submission always settles with a boolean: no exception leaves
    [printToEpson]. *)
Lemma printToEpson_settles (env : IoEnv) (text : string) (printer : Printer) :
  exists r, fst (printToEpson env text printer) = Some r.
Proof. ioCases env printer; eexists; reflexivity. Qed.

(** C2. [printToEpson] proceeds in order.  When the device path does not
    exist or is not writable it returns [false] and no transport call is
    made.  Otherwise the transport calls are those of the direct write,
    which hands the whole encoded buffer to one [writeSync], followed, when
    and only when one of its calls failed, by those of the library
    transport; the result is [true] after a direct write that succeeded and
    otherwise the outcome of the library transport, [false] when that
    failed. *)
Theorem printToEpson_dispatch_order (env : IoEnv) (text : string)
  (printer : Printer) :
  let path := devicePath printer in
  let result := fst (printToEpson env text printer) in
  let log := snd (printToEpson env text printer) in
  (fsExists env path = false \/ fsWritable env path = false ->
     result = Some false /\ filter isTransport log = [])
  /\ (fsExists env path = true -> fsWritable env path = true ->
      filter isTransport log
      = directAttempt env path text
        ++ (if directOk env then [] else fallbackAttempt env path text)
      /\ (openOk env = true ->
          written log = [Encoder.formattedText text (now env)])
      /\ (directOk env = true -> result = Some true)
      /\ (directOk env = false ->
          In IsPrinterConnected log
          /\ result = Some (fallbackOk env)
          /\ (fallbackOk env = false -> result = Some false))).
Proof.
  cbv zeta.
  split.
  - intros Hbad.
    ioCases env printer; destruct Hbad as [Hbad | Hbad]; cbn in Hbad;
      try congruence; split; reflexivity.
  - intros Hex Hwr.
    ioCases env printer; cbn in Hex, Hwr; try congruence.
    all: split; [reflexivity |].
    all: split; [intros Hopen; first [reflexivity | discriminate Hopen] |].
    all: split; [intros Hok; first [reflexivity | discriminate Hok] |].
    all: intros Hfail; try discriminate Hfail.
    all: split; [cbn; tauto |].
    all: split; [reflexivity | intros Hfb; first [reflexivity | discriminate Hfb]].
Qed.

Definition lp0 : Printer := mkPrinter "TM-T88IV" "04b8" "0202" "/dev/usb/lp0".

(** A device that is there and writable but busy: [openSync] throws; the
    library connects and then fails to send. *)
Definition envBusy : IoEnv :=
  mkIoEnv (fun _ => true) (fun _ => true) false true true (Some true) false
          "11/3/2026, 10:00:00 AM" "11/3/2026, 10:00:01 AM".

Lemma printToEpson_dispatch_order_witness :
  filter isTransport (snd (printToEpson envBusy "hello" lp0))
  = directAttempt envBusy "/dev/usb/lp0" "hello"
    ++ fallbackAttempt envBusy "/dev/usb/lp0" "hello"
  /\ In IsPrinterConnected (snd (printToEpson envBusy "hello" lp0))
  /\ fst (printToEpson envBusy "hello" lp0) = Some false.
Proof.
  destruct (printToEpson_dispatch_order envBusy "hello" lp0) as [_ Hgo].
  destruct (Hgo eq_refl eq_refl) as (Hlog & _ & _ & Hfail).
  destruct (Hfail eq_refl) as (Hconn & _ & Hres).
  split; [exact Hlog | split; [exact Hconn | exact (Hres eq_refl)]].
Defined.

(** *** What the encoded bytes depend on *)

(** Every buffer the keyboard printer's direct write hands to [writeSync]
    is the encoding of the text at the time string read by this call. *)
Lemma printToEpson_written (env : IoEnv) (text : string) (printer : Printer)
  (bytes : list Z) :
  In bytes (written (snd (printToEpson env text printer))) ->
  bytes = Encoder.formattedText text (now env).
Proof.
  ioCases env printer; cbn [In]; intros H;
    repeat (destruct H as [H | H]); (contradiction || now symmetry).
Qed.

(** Every buffer the POS receipt script hands to [writeSync] is
    [convertEscPosToBuffer] of the text. *)
Lemma posPrintToEpson_written (env : IoEnv) (text : string) (printer : Printer)
  (bytes : list Z) :
  In bytes (written (snd (posPrintToEpson env text printer))) ->
  bytes = Encoder.convertEscPosToBuffer text.
Proof.
  ioCases env printer; cbn [In]; intros H;
    repeat (destruct H as [H | H]); (contradiction || now symmetry).
Qed.

(** The same system at two times of day. *)
Definition atTime (stamp : string) : IoEnv :=
  mkIoEnv (fun _ => true) (fun _ => true) true true true (Some true) true
          stamp stamp.

(** C1, as stated, fails for the keyboard printer: two submissions of the
    same text to the same printer, one second apart and with every call
    succeeding, write different bytes, because the encoded job carries the
    local time string. *)
Lemma printToEpson_bytes_change_with_clock :
  written (snd (printToEpson (atTime "11/3/2026, 10:00:00 AM") "hello" lp0))
  = [Encoder.formattedText "hello" "11/3/2026, 10:00:00 AM"]
  /\ written (snd (printToEpson (atTime "11/3/2026, 10:00:01 AM") "hello" lp0))
     = [Encoder.formattedText "hello" "11/3/2026, 10:00:01 AM"]
  /\ written (snd (printToEpson (atTime "11/3/2026, 10:00:00 AM") "hello" lp0))
     <> written (snd (printToEpson (atTime "11/3/2026, 10:00:01 AM") "hello" lp0)).
Proof.
  split; [reflexivity | split; [reflexivity |]].
  change (written (snd (printToEpson (atTime "11/3/2026, 10:00:00 AM") "hello" lp0)))
    with [Encoder.formattedText "hello" "11/3/2026, 10:00:00 AM"].
  change (written (snd (printToEpson (atTime "11/3/2026, 10:00:01 AM") "hello" lp0)))
    with [Encoder.formattedText "hello" "11/3/2026, 10:00:01 AM"].
  intros H. pose proof (f_equal (hd []) H) as Hhd. cbn [hd] in Hhd.
  apply EncoderProps.formattedText_inj_stamp in Hhd. discriminate Hhd.
Qed.

(** C1, amended.  The bytes a submission writes are a function of its text
    and, for the keyboard printer, of the local time string it reads, and of
    nothing else in its environment.  Two runs of the POS receipt script on
    the same text write the same bytes, [convertEscPosToBuffer] of the text.
    Two runs of the keyboard printer on the same text write the same bytes
    exactly when they read the same time string. *)
Theorem encoding_depends_on_text_and_clock (text : string) (printer : Printer)
  (env1 env2 : IoEnv) :
  (forall b1 b2,
      In b1 (written (snd (posPrintToEpson env1 text printer))) ->
      In b2 (written (snd (posPrintToEpson env2 text printer))) ->
      b1 = b2 /\ b1 = Encoder.convertEscPosToBuffer text)
  /\ (forall b1 b2,
        In b1 (written (snd (printToEpson env1 text printer))) ->
        In b2 (written (snd (printToEpson env2 text printer))) ->
        (b1 = b2 <-> now env1 = now env2)).
Proof.
  split.
  - intros b1 b2 H1 H2.
    apply posPrintToEpson_written in H1, H2. subst. split; reflexivity.
  - intros b1 b2 H1 H2.
    apply printToEpson_written in H1, H2. subst. split.
    + apply EncoderProps.formattedText_inj_stamp.
    + intros ->. reflexivity.
Qed.

(** The busy device's sibling on which the direct write goes through, at
    the same time of day. *)
Definition envFree : IoEnv :=
  mkIoEnv (fun _ => true) (fun _ => true) true true false None false
          "11/3/2026, 10:00:00 AM" "11/3/2026, 10:00:05 AM".

Lemma encoding_depends_on_text_and_clock_witness :
  ([29; 86; 0]%Z = [29; 86; 0]%Z
   /\ [29; 86; 0]%Z = Encoder.convertEscPosToBuffer "ESC i")
  /\ (Encoder.formattedText "hello" (now envFree)
      = Encoder.formattedText "hello" (now (atTime "11/3/2026, 10:00:00 AM"))
      <-> now envFree = now (atTime "11/3/2026, 10:00:00 AM")).
Proof.
  destruct (encoding_depends_on_text_and_clock "ESC i" lp0 envFree
              (atTime "11/3/2026, 10:00:00 AM")) as [Hpos _].
  destruct (encoding_depends_on_text_and_clock "hello" lp0 envFree
              (atTime "11/3/2026, 10:00:00 AM")) as [_ Hkbd].
  split.
  - apply Hpos; left; reflexivity.
  - apply Hkbd; left; reflexivity.
Defined.

End DispatcherProps.


(* ====================================================================== *)
(** ** Concurrent submissions                                              *)
(* ====================================================================== *)

Module SchedulerProps.
Import JsString Locator Dispatcher Scheduler.
Import DispatcherProps.

(** *** The step relation and the schedules *)

Lemma Steps_trans (st1 st2 st3 : Pool * Log) :
  Steps st1 st2 -> Steps st2 st3 -> Steps st1 st3.
Proof.
  intros H12 H23. induction H23 as [| st2 st3 st4 _ IH Hstep].
  - exact H12.
  - eapply StepsNext; [apply IH; exact H12 | exact Hstep].
Qed.

(** Every schedule is a run of the event loop. *)
Lemma runSchedule_Steps (sched : list nat) :
  forall st, Steps st (runSchedule sched st).
Proof.
  induction sched as [| i rest IH]; intros [pool log]; simpl.
  - apply StepsRefl.
  - destruct (nth_error pool i) as [[| seg more] |] eqn:E; try apply IH.
    eapply Steps_trans; [| apply IH].
    eapply StepsNext; [apply StepsRefl |].
    now apply StepRun.
Qed.

Lemma nth_error_setTask (pool : Pool) (i j : nat) (t task : Task) :
  nth_error (setTask i t pool) j = Some task ->
  (j = i /\ task = t /\ exists old, nth_error pool i = Some old)
  \/ (j <> i /\ nth_error pool j = Some task).
Proof.
  revert i j. induction pool as [| t0 r IH]; intros i j H.
  - destruct i; simpl in H; destruct j; discriminate H.
  - destruct i as [| i]; simpl in H.
    + destruct j as [| j]; simpl in H.
      * left. injection H as <-. repeat split. now exists t0.
      * right. split; [lia | exact H].
    + destruct j as [| j]; simpl in H.
      * right. split; [lia | exact H].
      * destruct (IH i j H) as [(-> & -> & Hold) | (Hne & Hj)].
        -- left. repeat split. exact Hold.
        -- right. split; [lia | exact Hj].
Qed.

(** *** Segments *)

Lemma concat_segments (tr : list Event) : List.concat (segments tr) = tr.
Proof.
  induction tr as [| e r IH]; [reflexivity |].
  cbn [segments].
  destruct e; destruct (segments r) as [| s segs]; cbn in *; congruence.
Qed.

Lemma segments_incl (tr seg : list Event) (e : Event) :
  In seg (segments tr) -> In e seg -> In e tr.
Proof.
  intros Hseg He. rewrite <- (concat_segments tr).
  apply in_concat. now exists seg.
Qed.

(** No segment of a submission separates a [writeSync] from its
    [openSync] or from its [closeSync]: there is no [await] between
    them. *)
Lemma segments_whole (sub : Submission) :
  forallb (wholeFrom None) (segments (traceOf sub)) = true.
Proof.
  destruct sub as [[env text] printer]. unfold traceOf.
  ioCases env printer; reflexivity.
Qed.

(** *** Soundness of the segment check *)

Fixpoint lastOf (prev : option Event) (l : list Event) : option Event :=
  match l with
  | [] => prev
  | e :: r => lastOf (Some e) r
  end.

Lemma lastOf_snoc (prev : option Event) (l : list Event) (e : Event) :
  lastOf prev (l ++ [e]) = Some e.
Proof. revert prev. induction l as [| x r IH]; intros prev; simpl; auto. Qed.

Lemma lastOf_open (l : list Event) :
  isOpenOk (lastOf None l) = true ->
  exists l' path, l = l' ++ [OpenSync path true].
Proof.
  destruct l as [| x r] using rev_ind; [discriminate |].
  rewrite lastOf_snoc. destruct x as [| | path [|] | | | | | | | | | |];
    try discriminate.
  intros _. now exists r, path.
Qed.

Lemma wholeFrom_tail (prev : option Event) (e : Event) (l : list Event) :
  wholeFrom prev (e :: l) = true -> wholeFrom (Some e) l = true.
Proof.
  destruct e; cbn [wholeFrom]; try tauto.
  intros H. apply andb_prop in H. tauto.
Qed.

Lemma wholeFrom_at_write (pre post : list Event) (bytes : list Z) (ok : bool) :
  forall prev,
    wholeFrom prev (pre ++ WriteSync bytes ok :: post) = true ->
    isOpenOk (lastOf prev pre) = true
    /\ (ok = true -> startsWithClose post = true).
Proof.
  induction pre as [| e r IH]; intros prev H.
  - cbn [app wholeFrom lastOf] in *.
    apply andb_prop in H. destruct H as [H _].
    apply andb_prop in H. destruct H as [Hopen Hclose].
    split; [exact Hopen |]. intros ->. exact Hclose.
  - cbn [app lastOf] in *. apply wholeFrom_tail in H. now apply IH.
Qed.

Lemma startsWithClose_true (l : list Event) :
  startsWithClose l = true -> exists c l', l = CloseSync c :: l'.
Proof.
  destruct l as [| [] l']; try discriminate. intros _. eauto.
Qed.

Lemma whole_sound (i : nat) (seg : list Event) :
  wholeFrom None seg = true -> directWritesWhole (tag i seg).
Proof.
  intros Hwhole pre j bytes ok post Heq.
  unfold tag in Heq.
  apply map_eq_app in Heq. destruct Heq as (pre0 & rest0 & -> & <- & Hrest).
  apply map_eq_cons in Hrest. destruct Hrest as (w & post0 & -> & Hw & <-).
  injection Hw as <- ->.
  destruct (wholeFrom_at_write pre0 post0 bytes ok None Hwhole) as [Hopen Hclose].
  split.
  - destruct (lastOf_open pre0 Hopen) as (l' & path & ->).
    exists (map (pair i) l'), path. now rewrite map_app.
  - intros Hok. destruct (startsWithClose_true post0 (Hclose Hok)) as (c & l' & ->).
    now exists c, (map (pair i) l').
Qed.

(** Two logs that keep the direct writes whole still do when one follows
    the other. *)
Lemma whole_app (l1 l2 : Log) :
  directWritesWhole l1 -> directWritesWhole l2 -> directWritesWhole (l1 ++ l2).
Proof.
  intros H1 H2 pre i bytes ok post Heq.
  apply app_eq_app in Heq. destruct Heq as (l & [[Hl1 Hpost] | [Hpre Hl2]]).
  - destruct l as [| x l'].
    + cbn in Hpost. rewrite app_nil_r in Hl1. subst l1.
      destruct (H2 [] i bytes ok post (eq_sym Hpost)) as [(pre' & path & Hnil) _].
      destruct pre'; discriminate Hnil.
    + cbn in Hpost. injection Hpost as <- ->.
      destruct (H1 pre i bytes ok l' Hl1) as [Hopen Hclose].
      split; [exact Hopen |].
      intros Hok. destruct (Hclose Hok) as (c & post' & ->).
      now exists c, (post' ++ l2).
  - destruct (H2 l i bytes ok post Hl2) as [(pre' & path & ->) Hclose].
    split; [| exact Hclose].
    exists (l1 ++ pre'), path. rewrite Hpre. now rewrite app_assoc.
Qed.

(** *** The invariant of the event loop *)

(** In every state the event loop reaches from a pool of submissions: the
    log keeps the direct writes whole, every logged event is an event of the
    submission it is tagged with, and so is every event still to run, in
    segments that pass the check. *)
Definition Inv (subs : list Submission) (st : Pool * Log) : Prop :=
  directWritesWhole (snd st)
  /\ (forall i e, In (i, e) (snd st) ->
        exists sub, nth_error subs i = Some sub /\ In e (traceOf sub))
  /\ (forall i task, nth_error (fst st) i = Some task ->
        exists sub, nth_error subs i = Some sub
          /\ forall seg, In seg task ->
               wholeFrom None seg = true
               /\ forall e, In e seg -> In e (traceOf sub)).

Lemma Inv_initial (subs : list Submission) : Inv subs (initial subs).
Proof.
  unfold Inv, initial. cbn [fst snd]. split; [| split].
  - intros pre i bytes ok post Heq. destruct pre; discriminate Heq.
  - intros i e [].
  - intros i task Hnth. rewrite nth_error_map in Hnth.
    destruct (nth_error subs i) as [sub |]; [| discriminate Hnth].
    injection Hnth as <-. exists sub. split; [reflexivity |].
    intros seg Hseg. split.
    + exact (proj1 (forallb_forall _ _) (segments_whole sub) seg Hseg).
    + intros e He. exact (segments_incl _ seg e Hseg He).
Qed.

Lemma Inv_step (subs : list Submission) (st st' : Pool * Log) :
  Inv subs st -> Step st st' -> Inv subs st'.
Proof.
  intros (Hwhole & Hlog & Hpool) Hstep.
  destruct Hstep as [pool log i seg rest Hnth]. cbn [fst snd] in *.
  destruct (Hpool i (seg :: rest) Hnth) as (sub & Hsub & Hsegs).
  destruct (Hsegs seg (or_introl eq_refl)) as [Hseg Hincl].
  split; [| split].
  - apply whole_app; [exact Hwhole | now apply whole_sound].
  - intros j e Hin. apply in_app_or in Hin. destruct Hin as [Hin | Hin].
    + now apply Hlog.
    + unfold tag in Hin. apply in_map_iff in Hin.
      destruct Hin as (e0 & He0 & Hin0). injection He0 as <- <-.
      exists sub. split; [exact Hsub | now apply Hincl].
  - intros j task Hj.
    destruct (nth_error_setTask pool i j rest task Hj)
      as [(-> & -> & _) | (_ & Hold)].
    + exists sub. split; [exact Hsub |].
      intros seg' Hin'. apply Hsegs. now right.
    + now apply Hpool.
Qed.

Lemma Inv_Steps (subs : list Submission) (st : Pool * Log) :
  Steps (initial subs) st -> Inv subs st.
Proof.
  intros Hsteps. remember (initial subs) as st0 eqn:E.
  induction Hsteps as [st | st1 st2 st3 _ IH Hstep].
  - subst. apply Inv_initial.
  - eapply Inv_step; [apply IH; exact E | exact Hstep].
Qed.

Lemma In_written (log : list Event) (bytes : list Z) (ok : bool) :
  In (WriteSync bytes ok) log -> In bytes (written log).
Proof.
  induction log as [| e r IH]; [intros [] |].
  intros [-> | Hin]; [now left |].
  destruct e; cbn [written]; try (now apply IH). right. now apply IH.
Qed.

(** *** Two submissions to the same printer *)

(** A submission whose [openSync] throws and whose library transport
    goes through. *)
Definition viaLibrary (stamp : string) : IoEnv :=
  mkIoEnv (fun _ => true) (fun _ => true) false true true (Some true) true
          stamp stamp.

Definition twoSubmissions : list Submission :=
  [ (viaLibrary "11/3/2026, 10:00:00 AM", "first", lp0);
    (viaLibrary "11/3/2026, 10:00:00 AM", "second", lp0) ].

(** A submission whose direct write goes through, called while another is
    suspended in the library transport. *)
Definition mixedSubmissions : list Submission :=
  [ (viaLibrary "11/3/2026, 10:00:00 AM", "first", lp0);
    (atTime "11/3/2026, 10:00:01 AM", "second", lp0) ].

(** Both are called one after the other, then resumed in turn. *)
Definition alternating : list nat := [0; 1; 0; 1; 0; 1]%nat.

(** Two scanned lines whose responses are PDF documents, printed by the
    PDF branch of [makeApiCallAndPrint]. *)
Definition twoPdfJobs : Pool :=
  [ segments (pdfBranch "/dev/usb/lp0" (mkPdfData 1 "first"));
    segments (pdfBranch "/dev/usb/lp0" (mkPdfData 2 "second")) ].

(** C3, as stated, fails: the event loop can run two submissions to the
    same device path so that both are in their transport attempt at the same
    time, and both library sends are in flight at the same time; the direct
    write of one submission can reach the device while the other is
    suspended inside its library transport; and the writes of two PDF jobs
    started by [handleKeyPress] can alternate on the device. *)
Lemma concurrent_submissions_overlap :
  Steps (initial twoSubmissions) (runSchedule alternating (initial twoSubmissions))
  /\ maxInFlight (snd (runSchedule alternating (initial twoSubmissions))) = 2%nat
  /\ maxSending (snd (runSchedule alternating (initial twoSubmissions))) = 2%nat
  /\ maxInFlight (snd (runSchedule alternating (initial mixedSubmissions))) = 2%nat
  /\ Steps (twoPdfJobs, []) (runSchedule [0; 1; 0; 1]%nat (twoPdfJobs, []))
  /\ writers (snd (runSchedule [0; 1; 0; 1]%nat (twoPdfJobs, [])))
     = [0; 1; 0; 0; 0; 1; 1; 1]%nat
  /\ serialized (snd (runSchedule [0; 1; 0; 1]%nat (twoPdfJobs, []))) = false
  /\ ~ (forall st, Steps (initial twoSubmissions) st ->
                   (maxInFlight (snd st) <= 1)%nat).
Proof.
  split; [apply runSchedule_Steps |].
  split; [vm_compute; reflexivity |].
  split; [vm_compute; reflexivity |].
  split; [vm_compute; reflexivity |].
  split; [apply runSchedule_Steps |].
  split; [vm_compute; reflexivity |].
  split; [vm_compute; reflexivity |].
  intros Hclaim.
  specialize (Hclaim _ (runSchedule_Steps alternating (initial twoSubmissions))).
  vm_compute in Hclaim. lia.
Qed.

(** C3, amended.  [printToEpson] holds no mutual-exclusion section.  What
    the event loop does give to concurrent submissions: the direct write of
    a submission runs without suspension, so in every log each [writeSync]
    stands right after the successful [openSync] of the same submission and,
    when it succeeds, right before its [closeSync], and it carries the whole
    encoded buffer of that submission. *)
Theorem direct_writes_stay_whole (subs : list Submission) (st : Pool * Log) :
  Steps (initial subs) st ->
  directWritesWhole (snd st)
  /\ (forall i bytes ok,
        In (i, WriteSync bytes ok) (snd st) ->
        exists env text printer,
          nth_error subs i = Some (env, text, printer)
          /\ bytes = Encoder.formattedText text (now env)).
Proof.
  intros Hsteps. destruct (Inv_Steps subs st Hsteps) as (Hwhole & Hlog & _).
  split; [exact Hwhole |].
  intros i bytes ok Hin.
  destruct (Hlog i _ Hin) as ([[env text] printer] & Hsub & Htrace).
  exists env, text, printer. split; [exact Hsub |].
  apply (printToEpson_written env text printer).
  apply (In_written _ bytes ok). exact Htrace.
Qed.

Lemma direct_writes_stay_whole_witness :
  directWritesWhole (snd (runSchedule alternating (initial mixedSubmissions)))
  /\ (forall i bytes ok,
        In (i, WriteSync bytes ok)
           (snd (runSchedule alternating (initial mixedSubmissions))) ->
        exists env text printer,
          nth_error mixedSubmissions i = Some (env, text, printer)
          /\ bytes = Encoder.formattedText text (now env)).
Proof.
  apply (direct_writes_stay_whole mixedSubmissions).
  apply runSchedule_Steps.
Defined.

End SchedulerProps.


(* ====================================================================== *)
(** ** Key decoder: further properties                                     *)
(* ====================================================================== *)

Module KeyDecoderFacts.
Import JsString KeyDecoder KeyDecoderProps.

Local Open Scope Z_scope.

Definition jsCharEqb (a b : JsChar) : bool :=
  match a, b with
  | JNull, JNull => true
  | JStr s, JStr t => String.eqb s t
  | _, _ => false
  end.

Lemma jsCharEqb_eq (a b : JsChar) : jsCharEqb a b = true <-> a = b.
Proof.
  destruct a as [| s], b as [| t]; simpl; split; intros H;
    try reflexivity; try discriminate H.
  - apply String.eqb_eq in H. now subst.
  - injection H as ->. apply String.eqb_refl.
Qed.

(** Runs a check on an entry of [keyCodeMap] under the four modifier
    states. *)
Definition underModifiers (check : Z -> bool -> bool -> bool)
  (kv : Z * string) : bool :=
  forallb (fun m => check (fst kv) (fst m) (snd m)) modifiers.

(** A check that passes on every entry and on an unmapped code passes on
    every code. *)
Lemma every_code (check : Z -> bool -> bool -> bool) :
  forallb (underModifiers check) keyCodeMap = true ->
  (forall code s c, lookupZ code keyCodeMap = None -> check code s c = true) ->
  forall code s c, check code s c = true.
Proof.
  intros Htable Hnone code s c.
  destruct (lookupZ code keyCodeMap) as [key |] eqn:E.
  - pose proof (proj1 (forallb_forall _ _) Htable (code, key)
                  (lookupZ_In _ _ _ E)) as Hentry.
    exact (proj1 (forallb_forall _ _) Hentry (s, c) (modifiers_all s c)).
  - now apply Hnone.
Qed.

Lemma getChar_unmapped (code : Z) (s c : bool) :
  lookupZ code keyCodeMap = None -> getCharFromKeyCode code s c = JStr "".
Proof. intros H. unfold getCharFromKeyCode. now rewrite H. Qed.

Definition atMostOneChar (r : JsChar) : bool :=
  match r with
  | JNull => true
  | JStr s => (String.length s <=? 1)%nat
  end.

(** Whatever the key code and the modifiers, [getCharFromKeyCode]
    returns [null] or a string of at most one character: no key name ever
    reaches the line. *)
Lemma getChar_at_most_one_char (code : Z) (shiftDown caps : bool) :
  getCharFromKeyCode code shiftDown caps = JNull
  \/ exists s, getCharFromKeyCode code shiftDown caps = JStr s
               /\ (String.length s <= 1)%nat.
Proof.
  assert (H : atMostOneChar (getCharFromKeyCode code shiftDown caps) = true).
  { apply (every_code (fun k s c => atMostOneChar (getCharFromKeyCode k s c))).
    - vm_compute. reflexivity.
    - intros k s c Hk. now rewrite getChar_unmapped. }
  destruct (getCharFromKeyCode code shiftDown caps) as [| s]; [now left |].
  right. exists s. split; [reflexivity |]. now apply Nat.leb_le.
Qed.

Definition sentinelCheck (k : Z) (s c : bool) : bool :=
  Bool.eqb (jsCharEqb (getCharFromKeyCode k s c) JNull) (k =? 14)
  && Bool.eqb (jsCharEqb (getCharFromKeyCode k s c) (JStr newline))
              ((k =? 28) || (k =? 96) || (k =? 84)).

(** X2.  The two signals identify their keys: the result is [null] exactly
    for code 14 (Backspace), and the newline exactly for codes 28, 96 and 84
    (Enter and the keypad Enter), under every modifier state. *)
Theorem getChar_signals (code : Z) (shiftDown caps : bool) :
  (getCharFromKeyCode code shiftDown caps = JNull <-> code = 14)
  /\ (getCharFromKeyCode code shiftDown caps = JStr newline
      <-> code = 28 \/ code = 96 \/ code = 84).
Proof.
  assert (H : sentinelCheck code shiftDown caps = true).
  { apply (every_code sentinelCheck).
    - vm_compute. reflexivity.
    - intros k s c Hk. unfold sentinelCheck. rewrite (getChar_unmapped k s c Hk).
      cbn [jsCharEqb]. 
      assert (Hne : forall n key, lookupZ n keyCodeMap = Some key -> (k =? n) = false).
      { intros n key Hn. apply Z.eqb_neq. intros ->. congruence. }
      rewrite (Hne 14 "BACKSPACE" eq_refl), (Hne 28 "ENTER" eq_refl),
        (Hne 96 "ENTER" eq_refl), (Hne 84 "ENTER" eq_refl).
      reflexivity. }
  unfold sentinelCheck in H. apply andb_prop in H. destruct H as [Hn He].
  apply Bool.eqb_prop in Hn, He.
  split.
  - rewrite <- jsCharEqb_eq, Hn. apply Z.eqb_eq.
  - rewrite <- jsCharEqb_eq, He. rewrite !orb_true_iff, !Z.eqb_eq. tauto.
Qed.

(** The codes whose entry is one letter from [a] to [z]. *)
Definition isLetterCode (code : Z) : bool :=
  match lookupZ code keyCodeMap with
  | Some (String ch EmptyString) => isLower ch
  | _ => false
  end.

Definition capsCheck (k : Z) (s c : bool) : bool :=
  isLetterCode k
  || jsCharEqb (getCharFromKeyCode k s c) (getCharFromKeyCode k s (negb c)).

(** X3.  Caps lock changes letters only: for a code that is not a letter
    key the result is the same with caps lock on and off. *)
Theorem getChar_caps_only_letters (code : Z) (shiftDown caps1 caps2 : bool) :
  isLetterCode code = false ->
  getCharFromKeyCode code shiftDown caps1
  = getCharFromKeyCode code shiftDown caps2.
Proof.
  intros Hletter.
  assert (H : forall c, capsCheck code shiftDown c = true).
  { intros c. apply (every_code capsCheck).
    - vm_compute. reflexivity.
    - intros k s c0 Hk. unfold capsCheck.
      rewrite !(getChar_unmapped k _ _ Hk). apply orb_true_r. }
  destruct caps1, caps2; try reflexivity.
  - specialize (H true). unfold capsCheck in H. rewrite Hletter in H.
    now apply jsCharEqb_eq in H.
  - specialize (H false). unfold capsCheck in H. rewrite Hletter in H.
    now apply jsCharEqb_eq in H.
Qed.

Lemma getChar_caps_only_letters_witness :
  getCharFromKeyCode 2 true true = getCharFromKeyCode 2 true false.
Proof. apply (getChar_caps_only_letters 2 true true false). reflexivity. Defined.

End KeyDecoderFacts.


(* ====================================================================== *)
(** ** Line accumulator and read loop: further properties                  *)
(* ====================================================================== *)

Module ReadLoopFacts.
Import JsString KeyDecoder.

Local Open Scope Z_scope.

(** *** The line accumulator *)

Lemma dropLast_append_one (line : string) (ch : ascii) :
  dropLast (String.append line (String ch EmptyString)) = line.
Proof.
  induction line as [| c r IH]; [reflexivity |].
  cbn [String.append]. destruct r as [| c' r'].
  - reflexivity.
  - cbn [String.append] in *. cbn [dropLast]. cbn [dropLast] in IH.
    now rewrite IH.
Qed.

(** X4.  A Backspace takes back the character typed before it: after a
    one-character key other than Enter and then [null], the line is what it
    was, and nothing is submitted. *)
Theorem handleKeyPress_backspace_undoes (currentLine : string) (ch : ascii) :
  String ch EmptyString <> newline ->
  handleKeyPress
    (fst (handleKeyPress currentLine (JStr (String ch EmptyString)))) JNull
  = (currentLine, None).
Proof.
  intros Hnl. apply String.eqb_neq in Hnl.
  unfold handleKeyPress at 2. rewrite Hnl. cbn [truthy fst].
  unfold handleKeyPress. now rewrite dropLast_append_one.
Qed.

Lemma handleKeyPress_backspace_undoes_witness :
  handleKeyPress (fst (handleKeyPress "4033" (JStr "5"))) JNull
  = ("4033", None).
Proof.
  apply (handleKeyPress_backspace_undoes "4033" "5"%char). discriminate.
Defined.

(** Whether a string begins, or ends, with white space. *)
Definition startsWhite (s : string) : bool :=
  match s with
  | String c _ => isWhiteSpace c
  | EmptyString => false
  end.

Fixpoint endsWhite (s : string) : bool :=
  match s with
  | EmptyString => false
  | String c EmptyString => isWhiteSpace c
  | String _ r => endsWhite r
  end.

Lemma trimStart_starts (s : string) : startsWhite (trimStart s) = false.
Proof.
  induction s as [| c r IH]; [reflexivity |]. cbn [trimStart].
  destruct (isWhiteSpace c) eqn:E; [exact IH | cbn; exact E].
Qed.

Lemma trimEnd_starts (s : string) :
  startsWhite s = false -> startsWhite (trimEnd s) = false.
Proof.
  destruct s as [| c r]; [reflexivity |]. cbn [startsWhite trimEnd].
  intros Hc. destruct (trimEnd r); [rewrite Hc |]; cbn; exact Hc.
Qed.

Lemma trimEnd_ends (s : string) : endsWhite (trimEnd s) = false.
Proof.
  induction s as [| c r IH]; [reflexivity |]. cbn [trimEnd].
  destruct (trimEnd r) as [| c' r'] eqn:E.
  - destruct (isWhiteSpace c) eqn:Ew; [reflexivity | cbn; exact Ew].
  - cbn [endsWhite]. exact IH.
Qed.

(** X5.  Enter submits only lines with something on them.  The submitted
    line is the accumulated line without the white space around it, it is
    not empty, and the accumulator is cleared; when the accumulated line is
    blank nothing is submitted and the accumulator keeps it. *)
Theorem handleKeyPress_enter (currentLine : string) :
  match snd (handleKeyPress currentLine (JStr newline)) with
  | Some submitted =>
      submitted = trim currentLine
      /\ submitted <> ""
      /\ startsWhite submitted = false
      /\ endsWhite submitted = false
      /\ fst (handleKeyPress currentLine (JStr newline)) = ""
  | None =>
      trim currentLine = ""
      /\ fst (handleKeyPress currentLine (JStr newline)) = currentLine
  end.
Proof.
  unfold handleKeyPress. rewrite String.eqb_refl.
  destruct (truthy (trim currentLine)) eqn:Et; cbn [fst snd].
  - repeat split.
    + intros Hempty. rewrite Hempty in Et. discriminate Et.
    + unfold trim. apply trimEnd_starts, trimStart_starts.
    + unfold trim. apply trimEnd_ends.
  - split; [| reflexivity].
    destruct (trim currentLine); [reflexivity | discriminate Et].
Qed.

(** *** The read loop over a sequence of records *)

(** Reading two batches of records one after the other is reading
    their concatenation: the state is threaded through and the messages are
    appended. *)
Lemma readLoop_app (st : KeyboardState) (rs1 rs2 : list (list Z)) :
  readLoop st (rs1 ++ rs2)
  = (fst (readLoop (fst (readLoop st rs1)) rs2),
     snd (readLoop st rs1) ++ snd (readLoop (fst (readLoop st rs1)) rs2)).
Proof.
  revert st. induction rs1 as [| r rest IH]; intros st.
  - cbn. now destruct (readLoop st rs2).
  - cbn [app readLoop].
    destruct (readLoopStep st r) as [st1 out1].
    rewrite IH.
    destruct (readLoop st1 rest) as [st2 out2]. cbn [fst snd].
    destruct (readLoop st2 rs2) as [st3 out3]. cbn [fst snd].
    now rewrite app_assoc.
Qed.

(** The key event a read delivers, if it is a full record of type 1. *)
Definition keyEventOf (bytesRead : list Z) : option InputEvent :=
  if Nat.eqb (List.length bytesRead) 24 then
    if ev_type (parseRecord bytesRead) =? 1
    then Some (parseRecord bytesRead) else None
  else None.

Definition isCapsPress (bytesRead : list Z) : bool :=
  match keyEventOf bytesRead with
  | Some ev => (ev_code ev =? 58) && (ev_value ev =? 1)
  | None => false
  end.

(** The value of a left-shift event: pressed or not. *)
Definition shiftEvent (bytesRead : list Z) : option bool :=
  match keyEventOf bytesRead with
  | Some ev => if ev_code ev =? 42 then Some (ev_value ev =? 1) else None
  | None => None
  end.

Fixpoint lastShift (records : list (list Z)) (init : bool) : bool :=
  match records with
  | [] => init
  | r :: rest =>
      lastShift rest (match shiftEvent r with Some v => v | None => init end)
  end.

Lemma readLoopStep_modifiers (st : KeyboardState) (r : list Z) :
  isCapsLock (fst (readLoopStep st r)) = xorb (isCapsLock st) (isCapsPress r)
  /\ isShiftPressed (fst (readLoopStep st r))
     = match shiftEvent r with Some v => v | None => isShiftPressed st end.
Proof.
  unfold readLoopStep, isCapsPress, shiftEvent, keyEventOf, processEvent.
  destruct (Nat.eqb (List.length r) 24);
    [| cbn; now rewrite xorb_false_r].
  destruct (ev_type (parseRecord r) =? 1);
    [| cbn; now rewrite xorb_false_r].
  destruct (Z.eqb_spec (ev_code (parseRecord r)) 42) as [E42 | N42].
  - rewrite E42. cbn. now rewrite xorb_false_r.
  - destruct (ev_code (parseRecord r) =? 58);
      destruct (ev_value (parseRecord r) =? 1); cbn;
      rewrite ?xorb_false_r, ?xorb_true_r; auto.
Qed.

(** X7.  The modifier state after any sequence of records: caps lock is
    its initial value flipped once for every key-down of code 58, and shift
    is what the last event of code 42 set it to (pressed only if its value
    was 1), or its initial value when there was none.  No other record
    changes the modifiers. *)
Theorem readLoop_modifiers (st : KeyboardState) (records : list (list Z)) :
  isCapsLock (fst (readLoop st records))
  = xorb (isCapsLock st)
         (Nat.odd (List.length (filter isCapsPress records)))
  /\ isShiftPressed (fst (readLoop st records))
     = lastShift records (isShiftPressed st).
Proof.
  revert st. induction records as [| r rest IH]; intros st.
  - cbn. now rewrite xorb_false_r.
  - cbn [readLoop filter lastShift].
    destruct (readLoopStep_modifiers st r) as [Hc Hs].
    destruct (readLoopStep st r) as [st1 out1]. cbn [fst] in Hc, Hs.
    destruct (IH st1) as [IHc IHs].
    destruct (readLoop st1 rest) as [st2 out2]. cbn [fst] in *.
    split.
    + rewrite IHc, Hc.
      destruct (isCapsPress r); cbn [List.length].
      * rewrite Nat.odd_succ, <- Nat.negb_odd.
        destruct (isCapsLock st), (Nat.odd (List.length (filter isCapsPress rest)));
          reflexivity.
      * now rewrite xorb_false_r.
    + now rewrite IHs, Hs.
Qed.

(** *** Field ranges of a record *)

Definition isByte (b : Z) : Prop := 0 <= b <= 255.

Lemma byteAt_range (buf : list Z) (i : nat) :
  Forall isByte buf -> 0 <= byteAt buf i <= 255.
Proof.
  intros Hall. unfold byteAt.
  destruct (nth_in_or_default i buf 0) as [Hin | ->]; [| lia].
  exact (proj1 (Forall_forall _ _) Hall _ Hin).
Qed.

Lemma lor_range (n a b : Z) :
  0 <= n -> 0 <= a < 2 ^ n -> 0 <= b < 2 ^ n -> 0 <= Z.lor a b < 2 ^ n.
Proof.
  intros Hn Ha Hb. split; [apply Z.lor_nonneg; lia |].
  destruct (Z.eq_dec a 0) as [-> | Ha0]; [rewrite Z.lor_0_l; lia |].
  destruct (Z.eq_dec b 0) as [-> | Hb0]; [rewrite Z.lor_0_r; lia |].
  apply Z.log2_lt_pow2.
  - assert (0 <= Z.lor a b) by (apply Z.lor_nonneg; lia).
    assert (Z.lor a b <> 0) by (rewrite Z.lor_eq_0_iff; tauto). lia.
  - rewrite Z.log2_lor by lia.
    apply Z.max_lub_lt; apply Z.log2_lt_pow2; lia.
Qed.

Lemma shiftl_range (b k : Z) :
  0 <= k -> 0 <= b <= 255 -> 0 <= Z.shiftl b k < 2 ^ (k + 8).
Proof.
  intros Hk Hb. rewrite Z.shiftl_mul_pow2 by lia.
  rewrite Z.pow_add_r by lia. change (2 ^ 8) with 256.
  assert (0 < 2 ^ k) by (apply Z.pow_pos_nonneg; lia). nia.
Qed.

(** X8.  On a buffer of bytes the fields of a record are in the range of
    their kernel types: type and code are unsigned 16-bit numbers and the
    value is a signed 32-bit number. *)
Theorem parseRecord_ranges (buf : list Z) :
  Forall isByte buf ->
  0 <= ev_type (parseRecord buf) <= 65535
  /\ 0 <= ev_code (parseRecord buf) <= 65535
  /\ - 2147483648 <= ev_value (parseRecord buf) <= 2147483647.
Proof.
  intros Hall.
  assert (H16 : forall off, 0 <= readUInt16LE buf off < 2 ^ 16).
  { intros off. unfold readUInt16LE. apply lor_range; [lia | |].
    - pose proof (byteAt_range buf off Hall). change (2 ^ 16) with 65536. lia.
    - apply (shiftl_range _ 8); [lia | now apply byteAt_range]. }
  change (2 ^ 16) with 65536 in H16.
  split; [| split].
  - cbn. specialize (H16 16%nat). lia.
  - cbn. specialize (H16 18%nat). lia.
  - cbn [parseRecord ev_value]. unfold readInt32LE.
    set (u := Z.lor _ _).
    assert (Hu : 0 <= u < 2 ^ 32).
    { subst u. apply lor_range; [lia | |].
      - apply lor_range; [lia | |].
        + pose proof (byteAt_range buf 20 Hall).
          change (2 ^ 32) with 4294967296. lia.
        + pose proof (shiftl_range (byteAt buf (20 + 1)) 8 ltac:(lia)
                        (byteAt_range buf _ Hall)).
          change (2 ^ (8 + 8)) with 65536 in *.
          change (2 ^ 32) with 4294967296. lia.
      - apply lor_range; [lia | |].
        + pose proof (shiftl_range (byteAt buf (20 + 2)) 16 ltac:(lia)
                        (byteAt_range buf _ Hall)).
          change (2 ^ (16 + 8)) with 16777216 in *.
          change (2 ^ 32) with 4294967296. lia.
        + apply (shiftl_range _ 24); [lia | now apply byteAt_range]. }
    change (2 ^ 32) with 4294967296 in Hu.
    destruct (u <? 2147483648) eqn:E.
    + apply Z.ltb_lt in E. lia.
    + apply Z.ltb_ge in E. lia.
Qed.

Lemma parseRecord_ranges_witness :
  0 <= ev_type (parseRecord ReadLoopProps.shiftRepeatRecord) <= 65535
  /\ 0 <= ev_code (parseRecord ReadLoopProps.shiftRepeatRecord) <= 65535
  /\ - 2147483648 <= ev_value (parseRecord ReadLoopProps.shiftRepeatRecord)
     <= 2147483647.
Proof.
  apply (parseRecord_ranges ReadLoopProps.shiftRepeatRecord).
  unfold ReadLoopProps.shiftRepeatRecord, isByte. cbn.
  repeat constructor; lia.
Defined.

End ReadLoopFacts.


(* ====================================================================== *)
(** ** Device watch loop: properties                                       *)
(* ====================================================================== *)

Module WatchProps.
Import JsString Locator Watch.

(** *** Sets and maps *)

Lemma has_In (d : string) (s : list string) : has d s = true <-> In d s.
Proof.
  unfold has. rewrite existsb_exists. split.
  - intros (x & Hx & Heq). apply String.eqb_eq in Heq. now subst.
  - intros Hin. exists d. split; [exact Hin | apply String.eqb_refl].
Qed.

Lemma has_false (d : string) (s : list string) : has d s = false <-> ~ In d s.
Proof.
  rewrite <- has_In. destruct (has d s); split; congruence.
Qed.

Lemma toSetFrom_In (l seen : list string) (d : string) :
  In d (toSetFrom seen l) <-> In d l /\ ~ In d seen.
Proof.
  revert seen. induction l as [| x r IH]; intros seen; cbn [toSetFrom].
  - cbn. tauto.
  - destruct (has x seen) eqn:E.
    + apply has_In in E. rewrite IH. cbn [In]. split.
      * tauto.
      * intros [[-> | Hr] Hn]; [contradiction | tauto].
    + apply has_false in E. cbn [In]. rewrite IH. cbn [In].
      destruct (string_dec x d) as [-> | Hne]; [tauto |].
      split.
      * intros [Heq | (Hr & Hn)]; [contradiction | ]. split; [tauto |].
        intros Hs. apply Hn. now right.
      * intros ([Heq | Hr] & Hn); [contradiction |]. right. split; [exact Hr |].
        intros [Heq | Hs]; [contradiction | contradiction].
Qed.

Lemma toSetFrom_NoDup (l seen : list string) : NoDup (toSetFrom seen l).
Proof.
  revert seen. induction l as [| x r IH]; intros seen; cbn [toSetFrom].
  - constructor.
  - destruct (has x seen); [apply IH |].
    constructor; [| apply IH].
    rewrite toSetFrom_In. intros [_ Hn]. apply Hn. now left.
Qed.

Lemma toSet_In (l : list string) (d : string) : In d (toSet l) <-> In d l.
Proof. unfold toSet. rewrite toSetFrom_In. cbn. tauto. Qed.

Lemma toSet_NoDup (l : list string) : NoDup (toSet l).
Proof. apply toSetFrom_NoDup. Qed.

Lemma mapSet_fresh (k : string) (v : nat) (m : list (string * nat)) :
  ~ In k (map fst m) -> mapSet k v m = m ++ [(k, v)].
Proof.
  induction m as [| [k' v'] r IH]; cbn; intros Hn; [reflexivity |].
  destruct (String.eqb_spec k k') as [-> | _]; [tauto |].
  rewrite IH; tauto.
Qed.

Lemma mapGet_In (k : string) (m : list (string * nat)) (v : nat) :
  mapGet k m = Some v -> In (k, v) m.
Proof.
  induction m as [| [k' v'] r IH]; cbn; [discriminate |].
  destruct (String.eqb_spec k k') as [-> | _].
  - intros H; injection H as ->. now left.
  - intros H. right. now apply IH.
Qed.

Lemma mapGet_None (k : string) (m : list (string * nat)) :
  mapGet k m = None -> ~ In k (map fst m).
Proof.
  induction m as [| [k' v'] r IH]; cbn; [tauto |].
  destruct (String.eqb_spec k k') as [-> | Hne]; [discriminate |].
  intros H [Heq | Hin]; [congruence | now apply IH].
Qed.

Lemma mapGet_some_of_In (k : string) (v : nat) (m : list (string * nat)) :
  NoDup (map fst m) -> In (k, v) m -> mapGet k m = Some v.
Proof.
  induction m as [| [k' v'] r IH]; cbn; [tauto |].
  intros Hnd [Heq | Hin].
  - injection Heq as -> ->. now rewrite String.eqb_refl.
  - inversion Hnd as [| ? ? Hk Hr]; subst.
    destruct (String.eqb_spec k k') as [-> | _].
    + exfalso. apply Hk. apply in_map_iff. now exists (k', v).
    + now apply IH.
Qed.

(** With distinct keys, [delete] drops the entry of the key and nothing
    else. *)
Lemma mapDelete_filter (k : string) (m : list (string * nat)) :
  NoDup (map fst m) ->
  mapDelete k m = filter (fun e => negb (String.eqb k (fst e))) m.
Proof.
  induction m as [| [k' v'] r IH]; cbn; [reflexivity |].
  intros Hnd. inversion Hnd as [| ? ? Hk Hr]; subst.
  destruct (String.eqb_spec k k') as [-> | _]; cbn.
  - symmetry. apply forallb_filter_id. apply forallb_forall.
    intros [k2 v2] Hin. cbn.
    destruct (String.eqb_spec k' k2) as [-> | _]; [| reflexivity].
    exfalso. apply Hk. apply in_map_iff. now exists (k2, v2).
  - now rewrite IH.
Qed.

Lemma removeId_filter (id : nat) (l : list nat) :
  NoDup l -> removeId id l = filter (fun x => negb (Nat.eqb id x)) l.
Proof.
  induction l as [| x r IH]; cbn; [reflexivity |].
  intros Hnd. inversion Hnd as [| ? ? Hx Hr]; subst.
  destruct (Nat.eqb_spec id x) as [-> | _]; cbn.
  - symmetry. apply forallb_filter_id. apply forallb_forall.
    intros y Hy. destruct (Nat.eqb_spec x y) as [-> | _]; [tauto | reflexivity].
  - now rewrite IH.
Qed.

(** *** The manager's invariant *)

(** The map has one entry per path, and the workers it holds are exactly
    the running ones, each made by an earlier [new Worker]. *)
Definition WellFormed (m : Manager) : Prop :=
  NoDup (map fst (workers m))
  /\ map snd (workers m) = running m
  /\ NoDup (running m)
  /\ Forall (fun id => id < nextId m) (running m).

Lemma WellFormed_empty : WellFormed (mkManager [] [] 0).
Proof. repeat split; constructor. Qed.

Lemma addKeyboard_fresh (env : WorkerEnv) (d : string) (m : Manager) :
  WellFormed m -> ~ In d (getActiveKeyboards m) ->
  WellFormed (addKeyboard env d m)
  /\ workers (addKeyboard env d m)
     = workers m ++ (if spawnOk env d then [(d, nextId m)] else []).
Proof.
  intros (Hk & Hr & Hnd & Hlt) Hfresh. unfold addKeyboard.
  destruct (spawnOk env d); [| rewrite app_nil_r; repeat split; assumption].
  cbn [workers running nextId].
  rewrite (mapSet_fresh d (nextId m) (workers m) Hfresh).
  split; [| reflexivity].
  unfold WellFormed. cbn [workers running nextId].
  repeat split.
  - rewrite map_app. cbn. apply NoDup_app; [exact Hk | repeat constructor; tauto |].
    intros x Hx [<- | []]. now apply Hfresh.
  - rewrite map_app, Hr. reflexivity.
  - apply NoDup_app; [exact Hnd | repeat constructor; tauto |].
    intros x Hx [<- | []].
    pose proof (proj1 (Forall_forall _ _) Hlt _ Hx) as Hb. cbv beta in Hb. lia.
  - apply Forall_app. split.
    + eapply Forall_impl; [| exact Hlt]. cbn. intros; lia.
    + repeat constructor.
Qed.

(** Dropping entries of the keyboards map keeps its device paths distinct. *)
Lemma keys_filter_NoDup (keep : string * nat -> bool)
  (entries : list (string * nat)) (Hkeys : NoDup (map fst entries)) :
  NoDup (map fst (filter keep entries)).
Proof.
  induction entries as [| e rest IH]; [constructor |].
  cbn [map] in Hkeys. apply NoDup_cons_iff in Hkeys as [Hfresh Hrest].
  cbn [filter]. destruct (keep e); [| now apply IH].
  cbn [map]. apply NoDup_cons; [| now apply IH].
  intros Hin. apply Hfresh. apply in_map_iff in Hin.
  destruct Hin as (y & Hy & Hin). apply filter_In in Hin.
  apply in_map_iff. exists y. tauto.
Qed.

(** What [removeKeyboard] leaves of the map. *)
Definition survives (env : WorkerEnv) (d : string) (e : string * nat) : bool :=
  negb (String.eqb d (fst e) && terminateOk env (snd e)).

Lemma filter_ext_in_bool {A} (f g : A -> bool) (l : list A) :
  (forall x, In x l -> f x = g x) -> filter f l = filter g l.
Proof.
  induction l as [| x r IH]; cbn; intros H; [reflexivity |].
  rewrite (H x (or_introl eq_refl)), IH; [reflexivity |].
  intros y Hy. apply H. now right.
Qed.

Lemma removeKeyboard_spec (env : WorkerEnv) (d : string) (m : Manager) :
  WellFormed m ->
  WellFormed (removeKeyboard env d m)
  /\ workers (removeKeyboard env d m) = filter (survives env d) (workers m)
  /\ nextId (removeKeyboard env d m) = nextId m.
Proof.
  intros (Hk & Hr & Hnd & Hlt).
  assert (Hsame : forall id, mapGet d (workers m) = Some id ->
                  terminateOk env id = false ->
                  filter (survives env d) (workers m) = workers m).
  { intros id Hget Hno. apply forallb_filter_id. apply forallb_forall.
    intros [k v] Hin. unfold survives. cbn [fst snd].
    destruct (String.eqb_spec d k) as [-> | _]; [| reflexivity].
    rewrite (mapGet_some_of_In k v _ Hk Hin) in Hget. injection Hget as ->.
    now rewrite Hno. }
  unfold removeKeyboard.
  destruct (mapGet d (workers m)) as [id |] eqn:Hget.
  - destruct (terminateOk env id) eqn:Hok.
    + cbn [workers running nextId].
      assert (Hw : mapDelete d (workers m) = filter (survives env d) (workers m)).
      { rewrite (mapDelete_filter d _ Hk). apply filter_ext_in_bool.
        intros [k v] Hin. unfold survives. cbn [fst snd].
        destruct (String.eqb_spec d k) as [-> | _]; [| reflexivity].
        rewrite (mapGet_some_of_In k v _ Hk Hin) in Hget. injection Hget as ->.
        now rewrite Hok. }
      assert (Hids : map snd (filter (survives env d) (workers m))
                     = removeId id (running m)).
      { rewrite (removeId_filter id _ Hnd), <- Hr.
        rewrite <- Hr in Hnd. clear Hw Hsame Hlt Hr.
        pose proof (mapGet_In _ _ _ Hget) as Hin0.
        induction (workers m) as [| [k v] r IH]; [reflexivity |].
        cbn in Hk, Hnd. inversion Hk as [| ? ? Hk1 Hk2]; subst.
        inversion Hnd as [| ? ? Hn1 Hn2]; subst.
        cbn [filter map survives fst snd].
        destruct Hin0 as [Heq | Hin0].
        - injection Heq as -> ->.
          assert (Hhead : survives env d (d, id) = false).
          { unfold survives. cbn [fst snd]. now rewrite String.eqb_refl, Hok. }
          rewrite Hhead, Nat.eqb_refl. cbn [negb].
          assert (Hrest : forall e, In e r ->
                    survives env d e = true /\ negb (Nat.eqb id (snd e)) = true).
          { intros [k2 v2] Hin2. unfold survives. cbn [fst snd]. split.
            - destruct (String.eqb_spec d k2) as [-> | _]; [| reflexivity].
              exfalso. apply Hk1. apply in_map_iff. now exists (k2, v2).
            - destruct (Nat.eqb_spec id v2) as [-> | _]; [| reflexivity].
              exfalso. apply Hn1. apply in_map_iff. now exists (k2, v2). }
          rewrite (forallb_filter_id (survives env d) r).
          + rewrite (forallb_filter_id _ (map snd r)); [reflexivity |].
            apply forallb_forall. intros x Hx. apply in_map_iff in Hx.
            destruct Hx as ([k2 v2] & <- & Hin2). now apply (Hrest (k2, v2)).
          + apply forallb_forall. intros e He. now apply Hrest.
        - assert (Hdk : String.eqb d k = false).
          { apply String.eqb_neq. intros ->. apply Hk1.
            apply in_map_iff. now exists (k, id). }
          assert (Hiv : Nat.eqb id v = false).
          { apply Nat.eqb_neq. intros ->. apply Hn1.
            apply in_map_iff. now exists (d, v). }
          assert (Hhead : survives env d (k, v) = true).
          { unfold survives. cbn [fst snd]. now rewrite Hdk. }
          rewrite Hhead, Hiv. cbn [negb map snd].
          f_equal. apply IH; try assumption.
          cbn in Hget. now rewrite Hdk in Hget. }
      split; [| split; [exact Hw | reflexivity]].
      unfold WellFormed. cbn [workers running nextId].
      rewrite Hw. repeat split.
      * apply keys_filter_NoDup. exact Hk.
      * exact Hids.
      * rewrite (removeId_filter id _ Hnd). now apply NoDup_filter.
      * rewrite (removeId_filter id _ Hnd).
        apply Forall_forall. intros x Hx. apply filter_In in Hx.
        exact (proj1 (Forall_forall _ _) Hlt x (proj1 Hx)).
    + rewrite (Hsame id eq_refl Hok). repeat split; assumption.
  - split; [repeat split; assumption | split; [| reflexivity]].
    symmetry. apply forallb_filter_id. apply forallb_forall.
    intros [k v] Hin. unfold survives. cbn [fst snd].
    destruct (String.eqb_spec d k) as [-> | _]; [| reflexivity].
    exfalso. apply (mapGet_None _ _ Hget). apply in_map_iff. now exists (k, v).
Qed.

Lemma filter_filter_and {A} (f g : A -> bool) (l : list A) :
  filter f (filter g l) = filter (fun x => g x && f x) l.
Proof.
  induction l as [| x r IH]; cbn; [reflexivity |].
  destruct (g x); cbn; [destruct (f x) |]; now rewrite IH.
Qed.

Lemma filter_none {A} (f : A -> bool) (l : list A) :
  (forall x, In x l -> f x = false) -> filter f l = [].
Proof.
  induction l as [| x r IH]; cbn; intros H; [reflexivity |].
  rewrite (H x (or_introl eq_refl)). apply IH. intros y Hy. apply H. now right.
Qed.

(** *** The two passes of a tick *)

(** First pass: each available device that was not active gets a worker,
    appended to the map, unless [new Worker] throws. *)
Lemma addPass (env : WorkerEnv) (cur : list string) :
  forall (avail : list string) (m : Manager),
    NoDup avail -> WellFormed m ->
    (forall d, In d avail -> has d cur = false -> ~ In d (getActiveKeyboards m)) ->
    let m1 := fold_left
                (fun acc device =>
                   if has device cur then acc else addKeyboard env device acc)
                avail m in
    WellFormed m1
    /\ exists tail,
         workers m1 = workers m ++ tail
         /\ map fst tail
            = filter (fun d => negb (has d cur) && spawnOk env d) avail.
Proof.
  induction avail as [| d rest IH]; intros m Hnd Hwf Hfresh; cbn [fold_left].
  - split; [exact Hwf |]. exists []. now rewrite app_nil_r.
  - inversion Hnd as [| ? ? Hd Hrest]; subst.
    destruct (has d cur) eqn:Ecur.
    + destruct (IH m Hrest Hwf) as (Hwf1 & tail & Hw & Hkeys).
      { intros d' Hin. apply Hfresh. now right. }
      split; [exact Hwf1 |]. exists tail. split; [exact Hw |].
      cbn [filter]. now rewrite Ecur.
    + destruct (addKeyboard_fresh env d m Hwf) as (Hwf' & Hw').
      { apply Hfresh; [now left | exact Ecur]. }
      destruct (IH (addKeyboard env d m) Hrest Hwf') as (Hwf1 & tail & Hw & Hkeys).
      { intros d' Hin Hcur. unfold getActiveKeyboards. rewrite Hw', map_app.
        intros Hin'. apply in_app_or in Hin'. destruct Hin' as [Hold | Hnew].
        - revert Hold. apply Hfresh; [now right | exact Hcur].
        - destruct (spawnOk env d); cbn in Hnew; [| contradiction].
          destruct Hnew as [<- | []]. contradiction. }
      split; [exact Hwf1 |].
      exists ((if spawnOk env d then [(d, nextId m)] else []) ++ tail).
      split.
      * rewrite Hw, Hw'. now rewrite app_assoc.
      * cbn [filter]. rewrite Ecur. cbn [negb andb].
        rewrite map_app, Hkeys. now destruct (spawnOk env d).
Qed.

(** What the second pass leaves of the map. *)
Definition kept (env : WorkerEnv) (cur avail : list string)
  (e : string * nat) : bool :=
  negb (has (fst e) cur && negb (has (fst e) avail) && terminateOk env (snd e)).

(** Second pass: each device that was active and is not available loses
    its entry, unless [terminate] throws. *)
Lemma removePass (env : WorkerEnv) (avail : list string) :
  forall (cur : list string) (m : Manager),
    WellFormed m ->
    let m2 := fold_left
                (fun acc device =>
                   if has device avail then acc
                   else removeKeyboard env device acc)
                cur m in
    WellFormed m2
    /\ workers m2 = filter (kept env cur avail) (workers m)
    /\ nextId m2 = nextId m.
Proof.
  induction cur as [| d rest IH]; intros m Hwf; cbn [fold_left].
  - split; [exact Hwf |]. split; [| reflexivity].
    symmetry. apply forallb_filter_id. apply forallb_forall. reflexivity.
  - destruct (has d avail) eqn:Eav.
    + destruct (IH m Hwf) as (Hwf2 & Hw & Hn).
      split; [exact Hwf2 |]. split; [| exact Hn].
      rewrite Hw. apply filter_ext_in_bool. intros [k v] _.
      unfold kept, has. cbn [fst snd existsb].
      destruct (String.eqb_spec k d) as [-> | _]; [| reflexivity].
      fold (has d avail). rewrite Eav. cbn.
      now rewrite andb_false_r.
    + destruct (removeKeyboard_spec env d m Hwf) as (Hwf' & Hw' & Hn').
      destruct (IH (removeKeyboard env d m) Hwf') as (Hwf2 & Hw & Hn).
      split; [exact Hwf2 |]. split; [| now rewrite Hn].
      rewrite Hw, Hw', filter_filter_and.
      apply filter_ext_in_bool. intros [k v] _.
      unfold kept, survives, has. cbn [fst snd existsb].
      rewrite (String.eqb_sym k d).
      destruct (String.eqb_spec d k) as [-> | _]; [| reflexivity].
      fold (has k avail). rewrite Eav. cbn.
      destruct (terminateOk env v); [reflexivity |].
      cbn. now rewrite andb_false_r.
Qed.

(** The workers after a tick: the old entries that are kept, then the new
    ones. *)
Lemma monitorTick_workers (env : WorkerEnv) (available : list string)
  (m : Manager) :
  WellFormed m ->
  let cur := toSet (getActiveKeyboards m) in
  let avail := toSet available in
  WellFormed (monitorTick env false available m)
  /\ exists tail,
       workers (monitorTick env false available m)
       = filter (kept env cur avail) (workers m) ++ tail
       /\ map fst tail
          = filter (fun d => negb (has d cur) && spawnOk env d) avail.
Proof.
  intros Hwf cur avail. unfold monitorTick. fold cur. fold avail.
  destruct (addPass env cur avail m (toSet_NoDup _) Hwf) as (Hwf1 & tail & Hw1 & Hkeys).
  { intros d _ Hcur. apply has_false in Hcur. intros Hin. apply Hcur.
    subst cur. now apply toSet_In. }
  match goal with
  | |- context [fold_left ?f cur ?m1] =>
      destruct (removePass env avail cur m1 Hwf1) as (Hwf2 & Hw2 & _)
  end.
  split; [exact Hwf2 |].
  exists tail. split; [| exact Hkeys].
  rewrite Hw2, Hw1, filter_app. f_equal.
  apply forallb_filter_id. apply forallb_forall.
  intros [k v] Hin. unfold kept. cbn [fst snd].
  assert (Hk : In k (map fst tail)) by (apply in_map_iff; now exists (k, v)).
  rewrite Hkeys in Hk. apply filter_In in Hk. destruct Hk as [_ Hk].
  apply andb_prop in Hk. destruct Hk as [Hk _].
  apply negb_true_iff in Hk. now rewrite Hk.
Qed.

(** X9.  A tick of the watch loop keeps the manager consistent whatever
    fails: afterwards the map still has one entry per device path and the
    running workers are exactly the workers in the map, so the loop neither
    leaves a worker running without an entry nor an entry without a running
    worker. *)
Theorem monitorTick_wellformed (env : WorkerEnv) (shuttingDown : bool)
  (available : list string) (m : Manager) :
  WellFormed m -> WellFormed (monitorTick env shuttingDown available m).
Proof.
  intros Hwf. destruct shuttingDown; [exact Hwf |].
  exact (proj1 (monitorTick_workers env available m Hwf)).
Qed.

(** A manager with two keyboards. *)
Definition twoKeyboards : Manager :=
  mkManager [("/dev/input/event3", 0); ("/dev/input/event5", 1)] [0; 1] 2.

Definition allOk : WorkerEnv := mkWorkerEnv (fun _ => true) (fun _ => true).

Lemma twoKeyboards_wellformed : WellFormed twoKeyboards.
Proof.
  unfold WellFormed, twoKeyboards. cbn.
  repeat split; repeat constructor; cbn; try lia;
    intros H; repeat (destruct H as [H | H]); try discriminate; try lia;
    try contradiction.
Qed.

Lemma monitorTick_wellformed_witness :
  WellFormed (monitorTick allOk false ["/dev/input/event5"; "/dev/input/event7"]
                          twoKeyboards).
Proof.
  apply (monitorTick_wellformed allOk false _ twoKeyboards).
  exact twoKeyboards_wellformed.
Defined.

(** X10.  When every [new Worker] and every [terminate] succeeds, a tick
    makes the active devices exactly the available ones. *)
Theorem monitorTick_reconciles (env : WorkerEnv) (available : list string)
  (m : Manager) :
  WellFormed m ->
  (forall d, spawnOk env d = true) ->
  (forall id, terminateOk env id = true) ->
  forall d,
    In d (getActiveKeyboards (monitorTick env false available m))
    <-> In d available.
Proof.
  intros Hwf Hspawn Hterm d.
  destruct (monitorTick_workers env available m Hwf) as (_ & tail & Hw & Hkeys).
  unfold getActiveKeyboards. rewrite Hw, map_app, in_app_iff.
  assert (Hcur : has d (toSet (getActiveKeyboards m)) = true
                 <-> In d (map fst (workers m))).
  { rewrite has_In, toSet_In. reflexivity. }
  rewrite Hkeys, filter_In, toSet_In.
  split.
  - intros [Hold | (Hin & _)]; [| exact Hin].
    apply in_map_iff in Hold. destruct Hold as ([k v] & Hk & Hin).
    cbn in Hk. subst k. apply filter_In in Hin. destruct Hin as [Hin Hkept].
    unfold kept in Hkept. cbn [fst snd] in Hkept.
    rewrite (Hterm v), andb_true_r in Hkept.
    assert (Hc : has d (toSet (getActiveKeyboards m)) = true).
    { apply Hcur. apply in_map_iff. now exists (d, v). }
    rewrite Hc in Hkept. cbn [andb] in Hkept.
    rewrite negb_involutive in Hkept.
    exact (proj1 (toSet_In _ _) (proj1 (has_In _ _) Hkept)).
  - intros Hav.
    destruct (in_dec string_dec d (map fst (workers m))) as [Ec | Ec].
    + left. apply in_map_iff in Ec.
      destruct Ec as ([k v] & Hk & Hin). cbn in Hk. subst k.
      apply in_map_iff. exists (d, v). split; [reflexivity |].
      apply filter_In. split; [exact Hin |].
      unfold kept. cbn [fst snd].
      assert (Ha : has d (toSet available) = true).
      { apply has_In. now apply toSet_In. }
      rewrite Ha. cbn. now rewrite andb_false_r.
    + right. split; [exact Hav |]. rewrite Hspawn, andb_true_r.
      apply negb_true_iff. apply has_false. intros Hin. apply Ec.
      now apply Hcur, has_In.
Qed.

Lemma monitorTick_reconciles_witness :
  In "/dev/input/event7"
     (getActiveKeyboards
        (monitorTick allOk false ["/dev/input/event5"; "/dev/input/event7"]
                     twoKeyboards))
  <-> In "/dev/input/event7" ["/dev/input/event5"; "/dev/input/event7"].
Proof.
  apply (monitorTick_reconciles allOk _ twoKeyboards
           twoKeyboards_wellformed); reflexivity.
Defined.

(** X11.  A device that is active and still available keeps its worker
    through a tick: the worker is neither terminated nor replaced, whatever
    else fails. *)
Theorem monitorTick_keeps_worker (env : WorkerEnv) (available : list string)
  (m : Manager) (d : string) (worker : nat) :
  WellFormed m ->
  In (d, worker) (workers m) ->
  In d available ->
  In (d, worker) (workers (monitorTick env false available m))
  /\ In worker (running (monitorTick env false available m)).
Proof.
  intros Hwf Hin Hav.
  destruct (monitorTick_workers env available m Hwf) as (Hwf2 & tail & Hw & _).
  assert (Hres : In (d, worker) (workers (monitorTick env false available m))).
  { rewrite Hw. apply in_or_app. left. apply filter_In. split; [exact Hin |].
    unfold kept. cbn [fst snd].
    assert (Ha : has d (toSet available) = true).
    { apply has_In. now apply toSet_In. }
    rewrite Ha. cbn. now rewrite andb_false_r. }
  split; [exact Hres |].
  destruct Hwf2 as (_ & Hr & _). rewrite <- Hr.
  apply in_map_iff. now exists (d, worker).
Qed.

Lemma monitorTick_keeps_worker_witness :
  In ("/dev/input/event5", 1)
     (workers (monitorTick allOk false ["/dev/input/event5"; "/dev/input/event7"]
                           twoKeyboards))
  /\ In 1 (running (monitorTick allOk false
                      ["/dev/input/event5"; "/dev/input/event7"] twoKeyboards)).
Proof.
  apply (monitorTick_keeps_worker allOk _ twoKeyboards "/dev/input/event5" 1
           twoKeyboards_wellformed).
  - cbn. right. left. reflexivity.
  - cbn. left. reflexivity.
Defined.

(** X12.  [shutdown] keeps the manager consistent, and when every
    [terminate] succeeds it leaves no entry in the map and no worker
    running. *)
Theorem shutdown_clears (env : WorkerEnv) (m : Manager) :
  WellFormed m ->
  WellFormed (shutdown env m)
  /\ ((forall id, terminateOk env id = true) ->
      workers (shutdown env m) = [] /\ running (shutdown env m) = []).
Proof.
  intros Hwf. unfold shutdown.
  destruct (removePass env [] (getActiveKeyboards m) m Hwf) as (Hwf2 & Hw & _).
  cbn [has existsb] in Hwf2, Hw.
  split; [exact Hwf2 |].
  intros Hterm.
  assert (Hempty : filter (kept env (getActiveKeyboards m) []) (workers m) = []).
  { apply filter_none. intros [k v] Hin. unfold kept. cbn [fst snd].
    assert (Hk : has k (getActiveKeyboards m) = true).
    { apply has_In. apply in_map_iff. now exists (k, v). }
    rewrite Hk, Hterm. reflexivity. }
  rewrite Hempty in Hw. split; [exact Hw |].
  destruct Hwf2 as (_ & Hr & _). rewrite <- Hr.
  cbn [has existsb]. now rewrite Hw.
Qed.

Lemma shutdown_clears_witness :
  WellFormed (shutdown allOk twoKeyboards)
  /\ ((forall id, terminateOk allOk id = true) ->
      workers (shutdown allOk twoKeyboards) = []
      /\ running (shutdown allOk twoKeyboards) = []).
Proof.
  apply (shutdown_clears allOk twoKeyboards). exact twoKeyboards_wellformed.
Defined.

Lemma fold_left_fixed {A B} (f : A -> B -> A) (l : list B) (a : A) :
  (forall x acc, In x l -> f acc x = acc) -> fold_left f l a = a.
Proof.
  induction l as [| x r IH]; cbn; intros H; [reflexivity |].
  rewrite (H x a (or_introl eq_refl)). apply IH.
  intros y acc Hy. apply H. now right.
Qed.

(** X13.  When the available devices are exactly the active ones a tick
    changes nothing: no worker is started, terminated or replaced. *)
Theorem monitorTick_fixpoint (env : WorkerEnv) (shuttingDown : bool)
  (available : list string) (m : Manager) :
  (forall d, In d (getActiveKeyboards m) <-> In d available) ->
  monitorTick env shuttingDown available m = m.
Proof.
  intros Hsame. unfold monitorTick. destruct shuttingDown; [reflexivity |].
  rewrite (fold_left_fixed _ (toSet available) m).
  - apply fold_left_fixed. intros d acc Hd.
    apply (proj1 (toSet_In _ _)) in Hd.
    assert (Ha : has d (toSet available) = true).
    { apply (proj2 (has_In _ _)), (proj2 (toSet_In _ _)). now apply Hsame. }
    now rewrite Ha.
  - intros d acc Hd. apply (proj1 (toSet_In _ _)) in Hd.
    assert (Hc : has d (toSet (getActiveKeyboards m)) = true).
    { apply (proj2 (has_In _ _)), (proj2 (toSet_In _ _)). now apply Hsame. }
    now rewrite Hc.
Qed.

Lemma monitorTick_fixpoint_witness :
  monitorTick allOk false ["/dev/input/event5"; "/dev/input/event3"] twoKeyboards
  = twoKeyboards.
Proof.
  apply (monitorTick_fixpoint allOk false _ twoKeyboards).
  intros d. cbn. tauto.
Defined.

(** *** Waiting for a keyboard *)

Lemma waitForKeyboard_found (env : nat -> DiscoveryEnv) (n : nat) :
  forall (fuel i : nat) (d : string) (rest : list string),
    (forall j, j < n -> keyboardsFound (env (i + j)) = []) ->
    keyboardsFound (env (i + n)) = d :: rest ->
    n < fuel ->
    waitForKeyboard fuel env i = (Some (d :: rest), S (i + n)).
Proof.
  induction n as [| n IH]; intros fuel i d rest Hbefore Hat Hfuel.
  - destruct fuel as [| f]; [lia |]. cbn [waitForKeyboard].
    rewrite Nat.add_0_r in Hat. rewrite Hat. now rewrite Nat.add_0_r.
  - destruct fuel as [| f]; [lia |]. cbn [waitForKeyboard].
    pose proof (Hbefore 0 ltac:(lia)) as H0.
    rewrite Nat.add_0_r in H0. rewrite H0.
    rewrite (IH f (S i) d rest).
    + f_equal. f_equal. lia.
    + intros j Hj. replace (S i + j) with (i + S j) by lia.
      apply Hbefore. lia.
    + replace (S i + n) with (i + S n) by lia. exact Hat.
    + lia.
Qed.

Lemma waitForKeyboard_waiting (env : nat -> DiscoveryEnv) :
  forall (fuel i : nat),
    (forall j, j < fuel -> keyboardsFound (env (i + j)) = []) ->
    waitForKeyboard fuel env i = (None, i + fuel).
Proof.
  induction fuel as [| f IH]; intros i Hnone; cbn [waitForKeyboard].
  - now rewrite Nat.add_0_r.
  - pose proof (Hnone 0 ltac:(lia)) as H0.
    rewrite Nat.add_0_r in H0. rewrite H0. rewrite IH.
    + f_equal. lia.
    + intros j Hj. replace (S i + j) with (i + S j) by lia.
      apply Hnone. lia.
Qed.

(** X14.  [waitForKeyboard] returns the whole list of the first discovery
    that finds a keyboard, after exactly as many discoveries as it took, and
    keeps polling as long as every discovery comes back empty, also when
    discovery fails outright: a failed discovery is an empty one. *)
Theorem waitForKeyboard_polls (env : nat -> DiscoveryEnv) (fuel : nat) :
  (forall n d rest,
      (forall j, j < n -> keyboardsFound (env j) = []) ->
      keyboardsFound (env n) = d :: rest ->
      n < fuel ->
      waitForKeyboard fuel env 0 = (Some (d :: rest), S n))
  /\ ((forall j, j < fuel -> keyboardsFound (env j) = []) ->
      waitForKeyboard fuel env 0 = (None, fuel))
  /\ (forall j, readdirInput (env j) = None -> keyboardsFound (env j) = []).
Proof.
  split; [| split].
  - intros n d rest Hbefore Hat Hfuel.
    exact (waitForKeyboard_found env n fuel 0 d rest Hbefore Hat Hfuel).
  - intros Hnone. exact (waitForKeyboard_waiting env fuel 0 Hnone).
  - intros j Hj. unfold keyboardsFound, detectKeyboardDevices, Effects.tryCatch,
      detectBody, Effects.bind, doReaddirInput, Effects.bind, record,
      Effects.modify, orThrow.
    rewrite Hj. reflexivity.
Qed.

(** [/dev/input] appears at the second poll, with one keyboard that
    [udevadm] recognises. *)
Definition bootEnv (i : nat) : DiscoveryEnv :=
  mkDiscoveryEnv
    (if (1 <=? i)%nat then Some ["event0"; "mouse0"] else None)
    (fun path => if String.eqb path "/dev/input/event0"
                 then Some "ATTRS{name}==Acme keyboard" else None)
    None (fun _ => true) None.

Lemma waitForKeyboard_polls_witness :
  waitForKeyboard 4 bootEnv 0 = (Some ["/dev/input/event0"], 2)
  /\ waitForKeyboard 1 bootEnv 0 = (None, 1).
Proof.
  destruct (waitForKeyboard_polls bootEnv 4) as (Hret & _ & _).
  destruct (waitForKeyboard_polls bootEnv 1) as (_ & Hwait & _).
  split.
  - apply (Hret 1 "/dev/input/event0" []).
    + intros j Hj. destruct j as [| j]; [reflexivity | lia].
    + reflexivity.
    + lia.
  - apply Hwait. intros j Hj. destruct j as [| j]; [reflexivity | lia].
Defined.

End WatchProps.


(* ====================================================================== *)
(** ** Printer detection: properties                                       *)
(* ====================================================================== *)

Module DetectFacts.
Import JsString Locator.

Local Open Scope Z_scope.

(** The USB devices [detectEpsonPrinters] takes for a printer. *)
Definition isTM88 (device : UsbDevice) : bool :=
  (idVendor device =? 1208) && (idProduct device =? 514).

Lemma probePaths_In (ex : string -> bool) (paths : list string) (p : string) :
  fst (probePaths ex paths) = Some p -> In p paths.
Proof.
  induction paths as [| q rest IH]; cbn; [discriminate |].
  destruct (ex q).
  - cbn. intros H; injection H as ->. now left.
  - destruct (probePaths ex rest) as [r checked]. cbn in *. auto.
Qed.

Lemma printerPaths_truthy (p : string) : In p printerPaths -> truthy p = true.
Proof.
  unfold printerPaths. cbn [In].
  intros H. repeat (destruct H as [<- | H]; [reflexivity |]). contradiction.
Qed.

(** X15.  [detectEpsonPrinters] reports one printer for every USB device
    with vendor id 0x04b8 and product id 0x0202, in enumeration order, and
    nothing for any other device.  Every printer it reports carries the same
    device path, the first candidate path that exists, whichever USB device
    it stands for; when no candidate path exists, or the enumeration throws,
    the list is empty. *)
Theorem detectEpsonPrinters_listing (usb : option (list UsbDevice))
  (existsSync : string -> bool) :
  detectEpsonPrinters usb existsSync
  = match usb, fst (probePaths existsSync printerPaths) with
    | Some devices, Some path =>
        map (fun _ => mkPrinter "TM-T88IV" "04b8" "0202" path)
            (filter isTM88 devices)
    | _, _ => []
    end.
Proof.
  destruct usb as [devices |]; [| reflexivity].
  cbn [detectEpsonPrinters].
  destruct (fst (probePaths existsSync printerPaths)) as [path |] eqn:Ep.
  - pose proof (printerPaths_truthy path (probePaths_In _ _ _ Ep)) as Ht.
    induction devices as [| d rest IH]; [reflexivity |].
    cbn [scanUsb filter]. rewrite IH. unfold isTM88, EPSON_VENDOR_ID.
    destruct (Z.eqb_spec (idVendor d) 1208) as [Ev | _]; [| reflexivity].
    cbn [andb matchProduct EPSON_PRODUCT_IDS].
    destruct (Z.eqb_spec (idProduct d) 514) as [Epid | _]; [| reflexivity].
    unfold getDevicePath. rewrite Ep, Ht, Ev, Epid. reflexivity.
  - induction devices as [| d rest IH]; [reflexivity |].
    cbn [scanUsb]. rewrite IH. unfold EPSON_VENDOR_ID.
    destruct (idVendor d =? 1208); [| reflexivity].
    cbn [matchProduct EPSON_PRODUCT_IDS].
    destruct (idProduct d =? 514); [| reflexivity].
    unfold getDevicePath. now rewrite Ep.
Qed.

End DetectFacts.

(* ====================================================================== *)
(** ** Print dispatcher: further properties                                *)
(* ====================================================================== *)

Module DispatcherFacts.
Import JsString Effects Locator Dispatcher.
Import DispatcherProps.

Ltac notInLog :=
  let H := fresh "H" in
  cbn [In]; intros H;
  repeat (destruct H as [H | H]; [discriminate H |]); contradiction.

(** X16.  When the device is there and writable, [openSync] succeeds and
    [writeSync] throws, [printToEpson] never calls [closeSync]: the
    descriptor it opened stays open, whatever the library transport does
    afterwards. *)
Theorem printToEpson_leaks_descriptor (env : IoEnv) (text : string)
  (printer : Printer) :
  fsExists env (devicePath printer) = true ->
  fsWritable env (devicePath printer) = true ->
  openOk env = true ->
  writeOk env = false ->
  In (OpenSync (devicePath printer) true) (snd (printToEpson env text printer))
  /\ (forall ok, ~ In (CloseSync ok) (snd (printToEpson env text printer)))
  /\ In IsPrinterConnected (snd (printToEpson env text printer)).
Proof.
  intros Hex Hwr Hopen Hwrite.
  ioCases env printer; cbn in Hex, Hwr, Hopen, Hwrite; try congruence.
  all: split; [cbn [In]; tauto |].
  all: split; [intros ok; notInLog | cbn [In]; tauto].
Qed.

(** The write fails half way. *)
Definition envWriteFails : IoEnv :=
  mkIoEnv (fun _ => true) (fun _ => true) true false true (Some true) true
          "11/3/2026, 10:00:00 AM" "11/3/2026, 10:00:01 AM".

Lemma printToEpson_leaks_descriptor_witness :
  In (OpenSync "/dev/usb/lp0" true) (snd (printToEpson envWriteFails "hello" lp0))
  /\ (forall ok,
        ~ In (CloseSync ok) (snd (printToEpson envWriteFails "hello" lp0)))
  /\ In IsPrinterConnected (snd (printToEpson envWriteFails "hello" lp0)).
Proof.
  apply (printToEpson_leaks_descriptor envWriteFails "hello" lp0); reflexivity.
Defined.

(** X17.  When the direct write has gone through and only [closeSync]
    throws, [printToEpson] sends the job a second time through the library:
    with a connected library whose [execute] succeeds, the device has
    received the encoded job and then the library's job for the same text,
    and the result is [true]. *)
Theorem printToEpson_prints_twice (env : IoEnv) (text : string)
  (printer : Printer) :
  fsExists env (devicePath printer) = true ->
  fsWritable env (devicePath printer) = true ->
  openOk env = true -> writeOk env = true -> closeOk env = false ->
  libConnected env = Some true -> libExecuteOk env = true ->
  fst (printToEpson env text printer) = Some true
  /\ In (WriteSync (Encoder.formattedText text (now env)) true)
        (snd (printToEpson env text printer))
  /\ In (Lib (Println text)) (snd (printToEpson env text printer))
  /\ In (Executed true) (snd (printToEpson env text printer)).
Proof.
  intros Hex Hwr Hopen Hwrite Hclose Hconn Hexec.
  ioCases env printer;
    cbn in Hex, Hwr, Hopen, Hwrite, Hclose, Hconn, Hexec; try congruence.
  repeat split; cbn [In]; tauto.
Qed.

Definition envCloseFails : IoEnv :=
  mkIoEnv (fun _ => true) (fun _ => true) true true false (Some true) true
          "11/3/2026, 10:00:00 AM" "11/3/2026, 10:00:01 AM".

Lemma printToEpson_prints_twice_witness :
  fst (printToEpson envCloseFails "hello" lp0) = Some true
  /\ In (WriteSync (Encoder.formattedText "hello" (now envCloseFails)) true)
        (snd (printToEpson envCloseFails "hello" lp0))
  /\ In (Lib (Println "hello")) (snd (printToEpson envCloseFails "hello" lp0))
  /\ In (Executed true) (snd (printToEpson envCloseFails "hello" lp0)).
Proof.
  apply (printToEpson_prints_twice envCloseFails "hello" lp0); reflexivity.
Defined.

End DispatcherFacts.


(* ====================================================================== *)
(** ** ESC/POS encoders: further properties                                *)
(* ====================================================================== *)

Module EncoderFacts.
Import JsString Encoder.

Local Open Scope Z_scope.

(** *** The converter works line by line *)

Lemma split_nonempty (sep : ascii) (s : string) : split sep s <> [].
Proof.
  destruct s as [| c r]; cbn; [discriminate |].
  destruct (Ascii.eqb c sep); [discriminate |].
  destruct (split sep r); discriminate.
Qed.

Lemma split_app (sep : ascii) (a b : string) :
  split sep (String.append a (String sep b)) = split sep a ++ split sep b.
Proof.
  induction a as [| c r IH]; cbn [String.append split].
  - now rewrite Ascii.eqb_refl.
  - destruct (Ascii.eqb c sep); [now rewrite IH |].
    rewrite IH. pose proof (split_nonempty sep r) as Hne.
    destruct (split sep r) as [| h t]; [contradiction | reflexivity].
Qed.

(** X18.  [convertEscPosToBuffer] works line by line: the buffer of two
    texts joined by a newline is the buffer of the first followed by the
    buffer of the second.  No command carries over from one line to the
    next. *)
Theorem convertEscPosToBuffer_lines (a b : string) :
  convertEscPosToBuffer (String.append a (String.append newline b))
  = convertEscPosToBuffer a ++ convertEscPosToBuffer b.
Proof.
  unfold convertEscPosToBuffer, newline. cbn [String.append].
  now rewrite split_app, flat_map_app, map_app.
Qed.

(** X19.  A line that contains [ESC] or [LF] anywhere is never printed as
    text: a line with [LF] and without [ESC] yields the single byte 10, and
    a line with [ESC] yields at most three bytes, whatever else it says. *)
Theorem convertLine_keywords (line : string) :
  includes "ESC" line || includes "LF" line = true ->
  (List.length (convertLine line) <= 3)%nat
  /\ (includes "ESC" line = false ->
      convertLine line = [] \/ convertLine line = [Some 10]).
Proof.
  intros Hkw. unfold convertLine.
  destruct (negb (truthy (trim line)) || startsWith ";" (trim line)).
  - cbn. split; [lia | auto].
  - destruct (includes "ESC" line) eqn:Eesc.
    + split; [| discriminate]. unfold escCommand.
      repeat match goal with
             | |- context [if ?c then _ else _] => destruct c
             end; cbn; lia.
    + cbn in Hkw. rewrite Hkw. cbn. split; [lia | auto].
Qed.

Lemma convertLine_keywords_witness :
  (List.length (convertLine "SELF SERVICE") <= 3)%nat
  /\ (includes "ESC" "SELF SERVICE" = false ->
      convertLine "SELF SERVICE" = [] \/ convertLine "SELF SERVICE" = [Some 10]).
Proof. apply (convertLine_keywords "SELF SERVICE"). reflexivity. Defined.

(** *** Decimal arguments *)

Lemma digitVal_digitChar (d : Z) :
  0 <= d < 10 -> digitVal 10 (digitChar d) = Some d.
Proof.
  intros Hd.
  assert (H : d = 0 \/ d = 1 \/ d = 2 \/ d = 3 \/ d = 4 \/ d = 5 \/ d = 6
              \/ d = 7 \/ d = 8 \/ d = 9) by lia.
  repeat (destruct H as [-> | H]; [reflexivity |]). subst. reflexivity.
Qed.

Definition allDigits (s : string) : Prop :=
  forall c, In c (list_ascii_of_string s) -> digitVal 10 c <> None.

Lemma parseDigits_app (s1 s2 : string) :
  allDigits s1 ->
  forall acc,
    parseDigits 10 (String.append s1 s2) acc
    = parseDigits 10 s2 (parseDigits 10 s1 acc).
Proof.
  induction s1 as [| c r IH]; intros Hall acc; [reflexivity |].
  cbn [String.append parseDigits].
  destruct (digitVal 10 c) as [d |] eqn:E.
  - apply IH. intros c' Hc'. apply Hall. now right.
  - exfalso. apply (Hall c); [now left | exact E].
Qed.

Lemma append_assoc (a b c : string) :
  String.append (String.append a b) c = String.append a (String.append b c).
Proof. induction a as [| x a IH]; cbn; [reflexivity | now rewrite IH]. Qed.

Lemma toStringFuel_acc (fuel : nat) (n : Z) (acc : string) :
  toStringFuel fuel 10 n acc
  = String.append (toStringFuel fuel 10 n EmptyString) acc.
Proof.
  revert n acc. induction fuel as [| f IH]; intros n acc; [reflexivity |].
  cbn [toStringFuel].
  destruct (n / 10 =? 0); [reflexivity |].
  rewrite IH. rewrite (IH (n / 10) (String _ EmptyString)).
  rewrite append_assoc. reflexivity.
Qed.

(** The decimal digits of [n] read back as [n]. *)
Lemma toStringFuel_parse (fuel : nat) :
  forall n, 0 <= n < 2 ^ Z.of_nat fuel -> (0 < fuel)%nat ->
    allDigits (toStringFuel fuel 10 n EmptyString)
    /\ toStringFuel fuel 10 n EmptyString <> EmptyString
    /\ parseDigits 10 (toStringFuel fuel 10 n EmptyString) None = Some n.
Proof.
  induction fuel as [| f IH]; intros n Hn Hf; [lia |].
  cbn [toStringFuel].
  assert (Hd : 0 <= n mod 10 < 10) by (apply Z.mod_pos_bound; lia).
  destruct (Z.eqb_spec (n / 10) 0) as [Hq | Hq].
  - assert (Hsmall : n mod 10 = n).
    { pose proof (Z.div_mod n 10 ltac:(lia)). lia. }
    split; [| split; [discriminate |]].
    + intros c [<- | []]. rewrite digitVal_digitChar by exact Hd. discriminate.
    + cbn [parseDigits]. rewrite digitVal_digitChar by exact Hd.
      cbn. now rewrite Hsmall.
  - assert (Hq' : 0 < n / 10).
    { assert (0 <= n / 10) by (apply Z.div_pos; lia). lia. }
    assert (Hf' : (0 < f)%nat).
    { destruct f; [| lia]. cbn in Hn.
      assert (n / 10 = 0) by (apply Z.div_small; lia). lia. }
    assert (Hn' : 0 <= n / 10 < 2 ^ Z.of_nat f).
    { split; [lia |].
      rewrite Nat2Z.inj_succ, Z.pow_succ_r in Hn by lia.
      apply Z.div_lt_upper_bound; lia. }
    destruct (IH (n / 10) Hn' Hf') as (Hall & Hne & Hparse).
    rewrite toStringFuel_acc.
    split; [| split].
    + intros c Hc.
      assert (Happ : forall x y, list_ascii_of_string (String.append x y)
                       = list_ascii_of_string x ++ list_ascii_of_string y).
      { induction x as [| a x IHx]; intros y; cbn; [reflexivity |].
        now rewrite IHx. }
      rewrite Happ in Hc. apply in_app_or in Hc. destruct Hc as [Hc | Hc].
      * now apply Hall.
      * destruct Hc as [<- | []].
        rewrite digitVal_digitChar by exact Hd. discriminate.
    + destruct (toStringFuel f 10 (n / 10) EmptyString); [contradiction |].
      discriminate.
    + rewrite (parseDigits_app _ _ Hall), Hparse.
      cbn [parseDigits]. rewrite digitVal_digitChar by exact Hd.
      f_equal. pose proof (Z.div_mod n 10 ltac:(lia)). lia.
Qed.

Lemma toStringRadix_fuel (n : Z) :
  0 <= n -> 0 <= n < 2 ^ Z.of_nat (S (Z.to_nat (Z.log2 n))).
Proof.
  intros Hn. split; [exact Hn |].
  rewrite Nat2Z.inj_succ, Z2Nat.id by apply Z.log2_nonneg.
  destruct (Z.eq_dec n 0) as [-> | Hne]; [cbn; lia |].
  apply Z.log2_spec. lia.
Qed.

Lemma toStringRadix_nonneg (radix n : Z) :
  0 <= n ->
  toStringRadix radix n
  = toStringFuel (S (Z.to_nat (Z.log2 n))) radix n EmptyString.
Proof.
  intros Hn. unfold toStringRadix.
  rewrite Z.abs_eq by exact Hn.
  now destruct (Z.ltb_spec n 0); [lia |].
Qed.

(** Up to [2^53] every natural number is a double. *)
Lemma toDouble_exact (n : Z) : 0 <= n <= 2 ^ 53 -> toDouble n = Some n.
Proof.
  intros Hn. unfold toDouble. rewrite Z.abs_eq by lia.
  destruct (Z.ltb_spec n (2 ^ 53)) as [_ | Hge]; [reflexivity |].
  assert (n = 2 ^ 53) as -> by lia. vm_compute. reflexivity.
Qed.

(** [parseInt] reads the decimal rendering of a natural number back, as
    the nearest double. *)
Lemma parseInt_decimal (n : Z) :
  0 <= n -> parseInt (Some (toStringRadix 10 n)) = toDouble n.
Proof.
  intros Hn. rewrite toStringRadix_nonneg by exact Hn.
  destruct (toStringFuel_parse _ n (toStringRadix_fuel n Hn) ltac:(lia))
    as (Hall & Hne & Hparse).
  set (s := toStringFuel _ 10 n EmptyString) in *.
  unfold parseInt.
  destruct s as [| c r] eqn:Es; [contradiction |].
  assert (Hc : digitVal 10 c <> None) by (apply Hall; now left).
  assert (Hws : isWhiteSpace c = false).
  { destruct (isWhiteSpace c) eqn:E; [| reflexivity].
    exfalso. apply Hc. clear - E.
    destruct c as [[|] [|] [|] [|] [|] [|] [|] [|]];
      try discriminate E; reflexivity. }
  cbn [trimStart]. rewrite Hws.
  assert (Hsign : c <> "-"%char /\ c <> "+"%char).
  { split; intros ->; apply Hc; reflexivity. }
  assert (Hx : forall r', r = String "x"%char r' \/ r = String "X"%char r' -> False).
  { intros r' [-> | ->].
    - apply (Hall "x"%char); [right; left; reflexivity | reflexivity].
    - apply (Hall "X"%char); [right; left; reflexivity | reflexivity]. }
  assert (Hgoal : forall neg radix s3,
             (neg, (radix, s3)) = (false, (10, String c r)) ->
             match parseDigits radix s3 None with
             | Some v => toDouble (if neg : bool then - v else v)
             | None => None
             end = toDouble n).
  { intros neg radix s3 H. injection H as -> -> ->. now rewrite Hparse. }
  destruct c as [b0 b1 b2 b3 b4 b5 b6 b7].
  destruct b0, b1, b2, b3, b4, b5, b6, b7;
    try (exfalso; apply Hc; reflexivity);
    try (exfalso; apply (proj1 Hsign); reflexivity);
    try (exfalso; apply (proj2 Hsign); reflexivity).
  all: try (rewrite Hparse; reflexivity).
  all: destruct r as [| c2 r2]; [rewrite Hparse; reflexivity |].
  all: destruct c2 as [a0 a1 a2 a3 a4 a5 a6 a7].
  all: destruct a0, a1, a2, a3, a4, a5, a6, a7;
         try (rewrite Hparse; reflexivity).
  all: exfalso; eapply Hx; eauto.
Qed.

Lemma split_none (sep : ascii) (s : string) :
  (forall c, In c (list_ascii_of_string s) -> Ascii.eqb c sep = false) ->
  split sep s = [s].
Proof.
  induction s as [| c r IH]; intros H; [reflexivity |].
  cbn [split]. rewrite (H c (or_introl eq_refl)).
  rewrite IH; [reflexivity |]. intros c' Hc'. apply H. now right.
Qed.

Lemma trim_head (c : ascii) (r : string) :
  isWhiteSpace c = false -> exists r', trim (String c r) = String c r'.
Proof.
  intros Hc. unfold trim. cbn [trimStart]. rewrite Hc. cbn [trimEnd].
  destruct (trimEnd r) as [| c' r'']; [rewrite Hc |]; eauto.
Qed.

(** X20.  An alignment command with a decimal argument up to [2^53], the
    range in which [parseInt] is exact, emits that argument modulo 256 as
    its third byte: the line [ESC a n] converts to the bytes 27, 97 and
    [n mod 256]. *)
Theorem convertEscPosToBuffer_alignment (n : Z) :
  0 <= n <= 2 ^ 53 ->
  convertEscPosToBuffer (String.append "ESC a " (toStringRadix 10 n))
  = [27; 97; n mod 256].
Proof.
  intros Hrange. assert (Hn : 0 <= n) by lia.
  pose proof (parseInt_decimal n Hn) as Hparse.
  rewrite (toDouble_exact n Hrange) in Hparse.
  rewrite toStringRadix_nonneg in * by exact Hn.
  destruct (toStringFuel_parse _ n (toStringRadix_fuel n Hn) ltac:(lia))
    as (Hall & _ & _).
  set (s := toStringFuel _ 10 n EmptyString) in *. clearbody s.
  assert (Hnl : split "010"%char s = [s]).
  { apply split_none. intros c Hc. apply Ascii.eqb_neq. intros ->.
    now apply (Hall _ Hc). }
  assert (Hsp : split " "%char s = [s]).
  { apply split_none. intros c Hc. apply Ascii.eqb_neq. intros ->.
    now apply (Hall _ Hc). }
  assert (Hlines : split (ascii_of_nat 10) (String.append "ESC a " s)
                   = [String.append "ESC a " s]).
  { cbn. now rewrite Hnl. }
  assert (Hparts : split " "%char (String.append "ESC a " s) = ["ESC"; "a"; s]).
  { cbn. now rewrite Hsp. }
  unfold convertEscPosToBuffer. rewrite Hlines. cbn [flat_map].
  rewrite app_nil_r. unfold convertLine.
  destruct (trim_head "E"%char (String.append "SC a " s) eq_refl) as (r' & Htrim).
  change (String "E" (String.append "SC a " s))
    with (String.append "ESC a " s) in Htrim.
  rewrite Htrim.
  change (negb (truthy (String "E" r')) || startsWith ";" (String "E" r'))
    with false.
  change (includes "ESC" (String.append "ESC a " s)) with true.
  cbv iota. unfold escCommand. rewrite Hparts.
  cbn [nth_error isPart]. change (String.eqb "a" "@") with false.
  change (String.eqb "a" "a") with true. cbv iota.
  rewrite Hparse. reflexivity.
Qed.

Lemma convertEscPosToBuffer_alignment_witness :
  convertEscPosToBuffer (String.append "ESC a " (toStringRadix 10 257))
  = [27; 97; 257 mod 256].
Proof. apply (convertEscPosToBuffer_alignment 257). lia. Defined.

(** Beyond [2^53] the argument is rounded to a double before it is
    reduced: [2^53 + 1] is read as [2^53] and gives the byte 0. *)
Lemma convertEscPosToBuffer_alignment_rounded :
  convertEscPosToBuffer "ESC a 9007199254740993" = [27; 97; 0].
Proof. vm_compute. reflexivity. Qed.

(** X21.  Every job of the keyboard printer's direct write starts by
    initialising the printer and ends with ten line feeds and the full cut;
    the bytes of the text and of the time stamp are in it as [Buffer.from]
    gives them, and everything else is fixed: the job is 80 bytes longer
    than the two together. *)
Theorem formattedText_frame (text stamp : string) :
  (exists body,
      formattedText text stamp
      = [27; 64] ++ body ++ repeat 10 10%nat ++ [29; 86; 0])
  /\ (exists before between after,
         formattedText text stamp
         = before ++ bufferFrom text ++ between ++ bufferFrom stamp ++ after)
  /\ List.length (formattedText text stamp)
     = (List.length (bufferFrom text) + List.length (bufferFrom stamp) + 80)%nat.
Proof.
  rewrite EncoderProps.formattedText_layout.
  split; [| split].
  - exists (skipn 2 EncoderProps.jobHeader ++ bufferFrom text
            ++ EncoderProps.jobMiddle ++ bufferFrom stamp ++ [10; 27; 97; 0]).
    change EncoderProps.jobHeader
      with ([27; 64] ++ skipn 2 EncoderProps.jobHeader) at 1.
    change EncoderProps.jobTrailer
      with ([10; 27; 97; 0] ++ repeat 10 10%nat ++ [29; 86; 0]).
    now rewrite <- !app_assoc.
  - now exists EncoderProps.jobHeader, EncoderProps.jobMiddle,
      EncoderProps.jobTrailer.
  - rewrite !length_app.
    change (List.length EncoderProps.jobHeader) with 42%nat.
    change (List.length EncoderProps.jobMiddle) with 21%nat.
    change (List.length EncoderProps.jobTrailer) with 17%nat.
    lia.
Qed.

End EncoderFacts.


(* ====================================================================== *)
(** ** Text formatting: properties                                         *)
(* ====================================================================== *)

Module TextFormatProps.
Import JsString TextFormat.

Definition chars (s : string) : list ascii := list_ascii_of_string s.

Lemma chars_append (a b : string) :
  chars (String.append a b) = chars a ++ chars b.
Proof.
  induction a as [| c a IH]; cbn; [reflexivity |]. unfold chars in IH.
  now rewrite IH.
Qed.

Lemma keepPrintable_chars (s : string) (c : ascii) :
  In c (chars (keepPrintable s)) -> isPrintable c = true.
Proof.
  induction s as [| x r IH]; cbn; [tauto |].
  destruct (isPrintable x) eqn:E; [| exact IH].
  cbn. intros [<- | Hin]; [exact E | now apply IH].
Qed.

Lemma trimStart_chars (s : string) (c : ascii) :
  In c (chars (trimStart s)) -> In c (chars s).
Proof.
  induction s as [| x r IH]; cbn; [tauto |].
  destruct (isWhiteSpace x); [| tauto].
  intros Hin. right. now apply IH.
Qed.

Lemma trimEnd_chars (s : string) (c : ascii) :
  In c (chars (trimEnd s)) -> In c (chars s).
Proof.
  induction s as [| x r IH]; cbn; [tauto |].
  destruct (trimEnd r) as [| y r'] eqn:E.
  - destruct (isWhiteSpace x); cbn; tauto.
  - cbn. intros [<- | Hin]; [now left |]. right. apply IH. exact Hin.
Qed.

Lemma cleanLine_printable (line : string) (c : ascii) :
  In c (chars (cleanLine line)) -> isPrintable c = true.
Proof.
  intros Hin. unfold cleanLine, trim in Hin.
  apply trimEnd_chars, trimStart_chars in Hin.
  exact (keepPrintable_chars _ _ Hin).
Qed.

Lemma keepPrintable_id (s : string) :
  (forall c, In c (chars s) -> isPrintable c = true) -> keepPrintable s = s.
Proof.
  induction s as [| x r IH]; cbn; intros H; [reflexivity |].
  rewrite (H x (or_introl eq_refl)), IH; [reflexivity |].
  intros c Hc. apply H. now right.
Qed.

Lemma trimEnd_id (s : string) :
  ReadLoopFacts.endsWhite s = false -> trimEnd s = s.
Proof.
  induction s as [| x r IH]; [reflexivity |].
  cbn [trimEnd]. destruct r as [| y r'].
  - cbn. intros ->. reflexivity.
  - intros H. rewrite IH; [reflexivity | exact H].
Qed.

Lemma trim_id (s : string) :
  ReadLoopFacts.startsWhite s = false -> ReadLoopFacts.endsWhite s = false ->
  trim s = s.
Proof.
  intros Hs He. unfold trim.
  assert (Hstart : trimStart s = s).
  { destruct s as [| x r]; [reflexivity |]. cbn in *. now rewrite Hs. }
  rewrite Hstart. now apply trimEnd_id.
Qed.

(** The lines [formatTextForPrinter] keeps. *)
Definition keptLines (text : string) : list string :=
  filter (fun line => (0 <? String.length line)%nat)
         (map cleanLine (split (ascii_of_nat 10) text)).

Definition tidy (line : string) : Prop :=
  line <> EmptyString
  /\ ReadLoopFacts.startsWhite line = false
  /\ ReadLoopFacts.endsWhite line = false
  /\ forall c, In c (chars line) -> isPrintable c = true.

Lemma keptLines_tidy (text line : string) :
  In line (keptLines text) -> tidy line.
Proof.
  unfold keptLines. intros Hin. apply filter_In in Hin.
  destruct Hin as [Hin Hlen]. apply in_map_iff in Hin.
  destruct Hin as (raw & <- & _).
  repeat split.
  - intros Hempty. rewrite Hempty in Hlen. discriminate Hlen.
  - unfold cleanLine, trim.
    apply ReadLoopFacts.trimEnd_starts, ReadLoopFacts.trimStart_starts.
  - unfold cleanLine, trim. apply ReadLoopFacts.trimEnd_ends.
  - apply cleanLine_printable.
Qed.

Lemma tidy_clean (line : string) : tidy line -> cleanLine line = line.
Proof.
  intros (_ & Hs & He & Hp). unfold cleanLine.
  rewrite (keepPrintable_id _ Hp). now apply trim_id.
Qed.

Lemma printable_not_newline (c : ascii) :
  isPrintable c = true -> Ascii.eqb c (ascii_of_nat 10) = false.
Proof.
  intros Hp. apply Ascii.eqb_neq. intros ->. discriminate Hp.
Qed.

Lemma join_cons (sep l l2 : string) (rest : list string) :
  join sep (l :: l2 :: rest)
  = String.append l (String.append sep (join sep (l2 :: rest))).
Proof. reflexivity. Qed.

(** Splitting what [join] put together gives the lines back, when none of
    them holds a newline. *)
Lemma split_join (lines : list string) :
  lines <> [] ->
  (forall line, In line lines -> tidy line) ->
  split (ascii_of_nat 10) (join newline lines) = lines.
Proof.
  induction lines as [| l rest IH]; [congruence |].
  intros _ Htidy.
  assert (Hl : split (ascii_of_nat 10) l = [l]).
  { apply EncoderFacts.split_none. intros c Hc.
    apply printable_not_newline.
    destruct (Htidy l (or_introl eq_refl)) as (_ & _ & _ & Hp). now apply Hp. }
  destruct rest as [| l2 rest'].
  - exact Hl.
  - rewrite join_cons. unfold newline at 1. cbn [String.append].
    rewrite EncoderFacts.split_app, Hl, IH; [reflexivity | discriminate |].
    intros line Hin. apply Htidy. now right.
Qed.

Lemma join_chars (lines : list string) (c : ascii) :
  In c (chars (join newline lines)) ->
  c = ascii_of_nat 10 \/ exists line, In line lines /\ In c (chars line).
Proof.
  induction lines as [| l rest IH]; [intros [] |].
  destruct rest as [| l2 rest'].
  - cbn [join]. intros Hin. right. exists l. split; [now left | exact Hin].
  - rewrite join_cons, chars_append. intros Hin.
    apply in_app_or in Hin. destruct Hin as [Hin | Hin].
    + right. exists l. split; [now left | exact Hin].
    + rewrite chars_append in Hin. apply in_app_or in Hin.
      destruct Hin as [Hin | Hin].
      * left. destruct Hin as [<- | []]. reflexivity.
      * destruct (IH Hin) as [-> | (line & Hline & Hc)]; [now left |].
        right. exists line. split; [now right | exact Hc].
Qed.

(** X22.  What [formatTextForPrinter] returns holds only code units from
    0x20 to 0x7E and the newlines that separate its lines. *)
Theorem formatTextForPrinter_printable (text : string) (c : ascii) :
  In c (chars (formatTextForPrinter text)) ->
  isPrintable c = true \/ c = ascii_of_nat 10.
Proof.
  intros Hin. destruct (join_chars _ _ Hin) as [-> | (line & Hline & Hc)].
  - now right.
  - left. destruct (keptLines_tidy text line Hline) as (_ & _ & _ & Hp).
    now apply Hp.
Qed.

Lemma formatTextForPrinter_printable_witness :
  isPrintable "T"%char = true \/ "T"%char = ascii_of_nat 10.
Proof.
  apply (formatTextForPrinter_printable
           (String.append "  Total" (String.append tab "12")) "T"%char).
  vm_compute. left. reflexivity.
Defined.

(** X23.  The result of [formatTextForPrinter] has no blank line and no
    padded one: when it is not empty, each of its lines is not empty and
    neither begins nor ends with white space. *)
Theorem formatTextForPrinter_lines (text : string) :
  formatTextForPrinter text <> EmptyString ->
  Forall (fun line =>
            line <> EmptyString
            /\ ReadLoopFacts.startsWhite line = false
            /\ ReadLoopFacts.endsWhite line = false)
         (split (ascii_of_nat 10) (formatTextForPrinter text)).
Proof.
  intros Hne. unfold formatTextForPrinter in *. fold (keptLines text) in *.
  destruct (keptLines text) as [| l rest] eqn:Ek; [now elim Hne |].
  rewrite split_join.
  - apply Forall_forall. intros line Hin. rewrite <- Ek in Hin.
    destruct (keptLines_tidy text line Hin) as (H1 & H2 & H3 & _). auto.
  - discriminate.
  - intros line Hin. rewrite <- Ek in Hin. now apply (keptLines_tidy text).
Qed.

Lemma formatTextForPrinter_lines_witness :
  Forall (fun line =>
            line <> EmptyString
            /\ ReadLoopFacts.startsWhite line = false
            /\ ReadLoopFacts.endsWhite line = false)
         (split (ascii_of_nat 10)
            (formatTextForPrinter
               (String.append " a " (String.append newline
                  (String.append newline "b"))))).
Proof.
  apply (formatTextForPrinter_lines
           (String.append " a " (String.append newline
              (String.append newline "b")))).
  discriminate.
Defined.

(** X24.  [formatTextForPrinter] is idempotent: formatting a formatted text
    changes nothing. *)
Theorem formatTextForPrinter_idempotent (text : string) :
  formatTextForPrinter (formatTextForPrinter text) = formatTextForPrinter text.
Proof.
  unfold formatTextForPrinter at 2 3. fold (keptLines text).
  destruct (keptLines text) as [| l rest] eqn:Ek; [reflexivity |].
  assert (Htidy : forall line, In line (l :: rest) -> tidy line).
  { intros line Hin. rewrite <- Ek in Hin. now apply (keptLines_tidy text). }
  unfold formatTextForPrinter.
  rewrite (split_join (l :: rest)); [| discriminate | exact Htidy].
  assert (Hmap : map cleanLine (l :: rest) = l :: rest).
  { rewrite <- (map_id (l :: rest)) at 2. apply map_ext_in.
    intros line Hin. now apply tidy_clean, Htidy. }
  rewrite Hmap.
  rewrite forallb_filter_id; [reflexivity |].
  apply forallb_forall. intros line Hin.
  destruct (Htidy line Hin) as (Hne & _).
  destruct line; [now elim Hne | reflexivity].
Qed.

End TextFormatProps.


(* ====================================================================== *)
(** ** Image headers: properties                                           *)
(* ====================================================================== *)

Module ImageHeaderProps.
Import ImageHeaders.

Local Open Scope Z_scope.

(** Whether the loop stops inside a stretch of bytes that follows
    [prev]. *)
Fixpoint stopsIn (prev : option Z) (data : list Z) : bool :=
  match data with
  | [] => false
  | b :: rest =>
      ((b =? 10)
       && match prev with Some p => isDigitByte p | None => false end)
      || stopsIn (Some b) rest
  end.

Definition lastByte (prev : option Z) (data : list Z) : option Z :=
  match rev data with
  | [] => prev
  | b :: _ => Some b
  end.

Lemma findHeaderEnd_through (pre : list Z) :
  forall prev rest idx,
    stopsIn prev pre = false ->
    findHeaderEnd prev (pre ++ rest) idx
    = findHeaderEnd (lastByte prev pre) rest (idx + List.length pre).
Proof.
  induction pre as [| b pre' IH]; intros prev rest idx Hno.
  - cbn. now rewrite Nat.add_0_r.
  - cbn [stopsIn] in Hno. apply orb_false_elim in Hno. destruct Hno as [Hb Hrest].
    cbn [app findHeaderEnd]. rewrite Hb.
    rewrite (IH (Some b) rest (S idx) Hrest).
    f_equal.
    + unfold lastByte. cbn [rev].
      destruct (rev pre') as [| x r] eqn:E; reflexivity.
    + cbn [List.length]. lia.
Qed.

Lemma skipn_past (pre : list Z) (a b : Z) (post : list Z) :
  skipn (S (List.length pre + 1)) (pre ++ a :: b :: post) = post.
Proof.
  induction pre as [| x r IH]; [reflexivity |]. exact IH.
Qed.

(** X25.  The PBM header skip of [printImageToEpson] cuts the file after
    the first newline that follows a digit.  In a file that starts with the
    magic number [P4] and a newline this is the newline of the magic number
    itself, so the line with the dimensions is not skipped: it is sent to
    the printer as the beginning of the bitmap.  A file without such a
    newline yields no bitmap data at all. *)
Theorem bitmapDataOf_first_digit_newline :
  (forall pre d post,
      stopsIn None (pre ++ [d]) = false ->
      isDigitByte d = true ->
      bitmapDataOf (pre ++ d :: 10 :: post) = post)
  /\ (forall rest, bitmapDataOf (80 :: 52 :: 10 :: rest) = rest)
  /\ (forall data, stopsIn None data = false -> bitmapDataOf data = []).
Proof.
  assert (Hgen : forall pre d post,
             stopsIn None (pre ++ [d]) = false ->
             isDigitByte d = true ->
             bitmapDataOf (pre ++ d :: 10 :: post) = post).
  { intros pre d post Hno Hd. unfold bitmapDataOf.
    change (pre ++ d :: 10 :: post) with (pre ++ [d] ++ 10 :: post) at 1.
    rewrite app_assoc, (findHeaderEnd_through (pre ++ [d]) None _ 0 Hno).
    unfold lastByte. rewrite rev_app_distr. cbn [rev app findHeaderEnd].
    rewrite Hd. cbn [Z.eqb andb Pos.eqb]. rewrite length_app. cbn [List.length].
    rewrite Nat.add_0_l. apply skipn_past. }
  split; [exact Hgen |]. split.
  - intros rest. exact (Hgen [80] 52 rest eq_refl eq_refl).
  - intros data Hno. unfold bitmapDataOf.
    rewrite <- (app_nil_r data) at 1.
    rewrite (findHeaderEnd_through data None [] 0 Hno). cbn [findHeaderEnd].
    apply skipn_all2. cbn. lia.
Qed.

Lemma bitmapDataOf_first_digit_newline_witness :
  bitmapDataOf ([80; 52] ++ 10 :: [53; 55; 54; 32; 49; 10; 255; 0])
  = [53; 55; 54; 32; 49; 10; 255; 0].
Proof.
  apply (proj1 bitmapDataOf_first_digit_newline [80] 52); reflexivity.
Defined.

(** *** The BMP header *)

Lemma byteLE_mod (v i : Z) :
  0 <= i -> byteLE v i = (v / 2 ^ (8 * i)) mod 256.
Proof.
  intros Hi. unfold byteLE.
  rewrite Z.shiftr_div_pow2 by lia.
  change 255 with (Z.ones 8). now rewrite Z.land_ones by lia.
Qed.

(** Four little-endian bytes weigh what was written. *)
Lemma byteLE_sum (v : Z) :
  0 <= v < 4294967296 ->
  byteLE v 0 + 256 * byteLE v 1 + 65536 * byteLE v 2 + 16777216 * byteLE v 3 = v.
Proof.
  intros Hv.
  rewrite !byteLE_mod by lia.
  change (2 ^ (8 * 0)) with 1. change (2 ^ (8 * 1)) with 256.
  change (2 ^ (8 * 2)) with 65536. change (2 ^ (8 * 3)) with 16777216.
  rewrite Z.div_1_r.
  assert (H2 : v / 65536 = v / 256 / 256) by (rewrite Z.div_div; lia || reflexivity).
  assert (H3 : v / 16777216 = v / 256 / 256 / 256)
    by (rewrite !Z.div_div; lia || reflexivity).
  rewrite H2, H3.
  pose proof (Z.div_mod v 256 ltac:(lia)) as E0.
  pose proof (Z.div_mod (v / 256) 256 ltac:(lia)) as E1.
  pose proof (Z.div_mod (v / 256 / 256) 256 ltac:(lia)) as E2.
  pose proof (Z.div_mod (v / 256 / 256 / 256) 256 ltac:(lia)) as E3.
  assert (Hz : v / 256 / 256 / 256 / 256 = 0).
  { rewrite !Z.div_div by lia. apply Z.div_small. lia. }
  rewrite Hz in E3. lia.
Qed.

(** The number four bytes of a buffer spell, least significant first. *)
Definition le32 (buf : list Z) (offset : nat) : Z :=
  nth offset buf 0 + 256 * nth (offset + 1) buf 0
  + 65536 * nth (offset + 2) buf 0 + 16777216 * nth (offset + 3) buf 0.

Lemma leb_range (lo hi v : Z) :
  lo <= v <= hi -> (lo <=? v) && (v <=? hi) = true.
Proof. intros H. apply andb_true_intro. split; apply Z.leb_le; lia. Qed.

(** X26.  For an image whose width and height fit a signed 32-bit number
    and raw data of at most [2^32 - 55] bytes, [convertPdfToBitmap] builds a
    header of exactly 54 bytes that starts with [BM]; its file-size field
    spells 54 plus the data length, its data-offset field 54, its
    image-size field the data length, and its width and height fields the
    width and height when these are not negative; the file is the header
    followed by the data. *)
Theorem bmpHeader_fields (width height : Z) (rawData : list Z) :
  let dataLength := Z.of_nat (List.length rawData) in
  0 <= width <= 2147483647 ->
  0 <= height <= 2147483647 ->
  dataLength <= 4294967241 ->
  exists header,
    bmpHeader width height dataLength = Some header
    /\ bitmapFile width height rawData = Some (header ++ rawData)
    /\ List.length header = 54%nat
    /\ firstn 2 header = [66; 77]
    /\ le32 header 2 = 54 + dataLength
    /\ le32 header 10 = 54
    /\ le32 header 18 = width
    /\ le32 header 22 = height
    /\ le32 header 34 = dataLength.
Proof.
  intros dataLength Hw Hh Hlen.
  assert (Hpos : 0 <= dataLength) by (subst dataLength; lia).
  unfold bitmapFile. fold dataLength.
  unfold bmpHeader, writeUInt32LE, writeInt32LE, writeUInt16LE.
  rewrite (leb_range 0 4294967295 (54 + dataLength)) by lia.
  rewrite (leb_range 0 4294967295 dataLength) by lia.
  rewrite (leb_range (-2147483648) 2147483647 width) by lia.
  rewrite (leb_range (-2147483648) 2147483647 height) by lia.
  cbn [andThen andb Z.leb Z.compare Pos.compare Pos.compare_cont repeat
       setBytes app skipn List.length].
  eexists. split; [reflexivity |]. split; [reflexivity |].
  split; [reflexivity |]. split; [reflexivity |].
  unfold le32. cbn [nth Nat.add].
  split; [apply byteLE_sum; lia |].
  split; [reflexivity |].
  split; [apply byteLE_sum; lia |].
  split; apply byteLE_sum; lia.
Qed.

Lemma bmpHeader_fields_witness :
  exists header,
    bmpHeader 384 2 768 = Some header
    /\ bitmapFile 384 2 (repeat 255 768) = Some (header ++ repeat 255 768)
    /\ List.length header = 54%nat
    /\ firstn 2 header = [66; 77]
    /\ le32 header 2 = 54 + 768
    /\ le32 header 10 = 54
    /\ le32 header 18 = 384
    /\ le32 header 22 = 2
    /\ le32 header 34 = 768.
Proof.
  apply (bmpHeader_fields 384 2 (repeat 255 768)); cbn; lia.
Defined.

(** X27.  A width or height outside the signed 32-bit range, or data too
    long for the unsigned 32-bit size field, makes a header write throw: no
    header is built, and [convertPdfToBitmap] writes no file. *)
Theorem bmpHeader_out_of_range (width height : Z) (rawData : list Z) :
  width < -2147483648 \/ 2147483647 < width
  \/ height < -2147483648 \/ 2147483647 < height
  \/ 4294967241 < Z.of_nat (List.length rawData) ->
  bitmapFile width height rawData = None.
Proof.
  intros Hbad. unfold bitmapFile, bmpHeader, writeUInt32LE, writeInt32LE,
    writeUInt16LE.
  set (dataLength := Z.of_nat (List.length rawData)) in *.
  destruct ((0 <=? 54 + dataLength) && (54 + dataLength <=? 4294967295)) eqn:E1;
    [| reflexivity].
  cbn [andThen]. change ((0 <=? 54) && (54 <=? 4294967295)) with true.
  change ((0 <=? 40) && (40 <=? 4294967295)) with true. cbn [andThen].
  destruct ((-2147483648 <=? width) && (width <=? 2147483647)) eqn:E2;
    [| reflexivity].
  cbn [andThen].
  destruct ((-2147483648 <=? height) && (height <=? 2147483647)) eqn:E3;
    [| reflexivity].
  exfalso.
  apply andb_prop in E1, E2, E3.
  destruct E1 as [_ E1], E2 as [E2a E2b], E3 as [E3a E3b].
  apply Z.leb_le in E1, E2a, E2b, E3a, E3b. lia.
Qed.

Lemma bmpHeader_out_of_range_witness :
  bitmapFile 4294967296 10 [] = None.
Proof. apply (bmpHeader_out_of_range 4294967296 10 []). lia. Defined.

End ImageHeaderProps.
(* ====================================================================== *)
(** ** Print jobs                                                          *)
(* ====================================================================== *)

Module JobsProps.
Import JsString Effects Locator Dispatcher Jobs.

(** The message that reaches a [catch], if any: the first one thrown. *)
Fixpoint firstThrown (l : list Outcome) : Outcome :=
  match l with
  | [] => None
  | Some message :: _ => Some message
  | None :: rest => firstThrown rest
  end.

Definition outcomeOf {A} (o : string + A) : Outcome :=
  match o with
  | inl message => Some message
  | inr _ => None
  end.

(** What the [try] block of the PDF branch throws, what its [finally]
    block throws, and the message that reaches the [catch] block of
    [makeApiCallAndPrint]. *)
Definition bodyFailure (env : ApiEnv) : Outcome :=
  firstThrown
    [ devOpen env; writeInit env; readTemp env; outcomeOf (pdfOutcome env);
      writeText env; writeFormFeed env; writeEnd env; devClose env ].

Definition cleanupFailure (env : ApiEnv) : Outcome :=
  if tempExists env then unlinkTemp env else None.

Definition reported (env : ApiEnv) : Outcome :=
  match httpOutcome env with
  | inl message => Some message
  | inr response =>
      if isPdfResponse response
      then firstThrown [ writeTemp env; cleanupFailure env; bodyFailure env ]
      else None
  end.

Ltac runJob :=
  cbv beta iota zeta delta
    [makeApiCallAndPrint printPDFFile printPDFFileBody createAndPrintPDF
     run tryCatch bind ret returnWith gets modify settle
     httpGet parsePdf parsePdfData note attempt raise succeeded
     pdfBranchJob tryFinally deviceCall reportError
     jobLog thrown app
     reported bodyFailure cleanupFailure firstThrown outcomeOf
     readOutcome parseOutcome printEnv
     stamp writeInput enscript ps2pdf unlinkInput unlinkPs unlinkPdf pdfEnv
     httpOutcome nowMs writeTemp devOpen writeInit readTemp pdfOutcome
     writeText writeFormFeed writeEnd devClose tempExists unlinkTemp
     textPrintEnv errorPrintEnv];
  cbn [fst snd].

Lemma forEach_note {A} (f : A -> JobEvent) (l : list A) (s : JobState) :
  forEach (fun e => note (f e)) l s
  = (Normal tt, mkJobState (jobLog s ++ map f l) (thrown s)).
Proof.
  revert s. induction l as [|x l IH]; intro s.
  - destruct s as [log t]. cbn. now rewrite app_nil_r.
  - cbn [forEach map]. unfold bind at 1. unfold note at 1, modify at 1.
    rewrite IH. cbn [jobLog thrown]. now rewrite <- app_assoc.
Qed.

Definition printed (env : IoEnv) (text : string) (printer : Printer) : bool :=
  match fst (printToEpson env text printer) with
  | Some r => r
  | None => false
  end.

Lemma awaitPrint_run (env : IoEnv) (text : string) (printer : Printer)
  (s : JobState) :
  awaitPrint env text printer s
  = (Normal (printed env text printer),
     mkJobState
       (jobLog s ++ map Device (snd (printToEpson env text printer)))
       (thrown s)).
Proof.
  unfold awaitPrint, printed.
  destruct (printToEpson env text printer) as [result events].
  unfold bind. rewrite forEach_note. reflexivity.
Qed.

Definition deviceEvents (log : list JobEvent) : list Event :=
  flat_map (fun e => match e with Device d => [d] | _ => [] end) log.

Lemma deviceEvents_app (a b : list JobEvent) :
  deviceEvents (a ++ b) = deviceEvents a ++ deviceEvents b.
Proof. unfold deviceEvents. now rewrite flat_map_app. Qed.

Lemma deviceEvents_map (l : list Event) : deviceEvents (map Device l) = l.
Proof.
  induction l as [|e l IH]; [reflexivity |].
  change (e :: deviceEvents (map Device l) = e :: l). now rewrite IH.
Qed.

(** X1.  [printPDFFile] settles with [true] exactly when the file was read, the
    parser resolved and [printToEpson] printed the text built from the
    document; when the read or the parse fails the printer is not touched. *)
Theorem printPDFFile_result (env : PdfFileEnv) (filePath : string)
  (printer : Printer) :
  fst (printPDFFile env filePath printer)
  = Some (match readOutcome env, parseOutcome env with
          | None, inr d => printed (printEnv env) (pdfPrintText d) printer
          | _, _ => false
          end)
  /\ deviceEvents (snd (printPDFFile env filePath printer))
     = match readOutcome env, parseOutcome env with
       | None, inr d =>
           snd (printToEpson (printEnv env) (pdfPrintText d) printer)
       | _, _ => []
       end.
Proof.
  destruct env as [[m|] [m'|d] penv]; runJob; try (split; reflexivity).
  rewrite awaitPrint_run. runJob.
  split; [reflexivity |].
  apply deviceEvents_map.
Qed.

Lemma awaitPrintPDFFile_run (env : PdfFileEnv) (filePath : string)
  (printer : Printer) (s : JobState) :
  exists r,
    awaitPrintPDFFile env filePath printer s
    = (Normal r,
       mkJobState (jobLog s ++ snd (printPDFFile env filePath printer))
         (thrown s)).
Proof.
  unfold awaitPrintPDFFile.
  destruct (printPDFFile env filePath printer) as [result events].
  unfold bind.
  change note with (fun e : JobEvent => note ((fun x => x) e)).
  rewrite forEach_note, map_id. eexists; reflexivity.
Qed.

(** X6.  [createAndPrintPDF] does not look at the result of the print: it
    settles with [true] exactly when the three steps that build the PDF and
    the three removals of the temporary files all succeed, whether the
    document was printed or not. *)
Theorem createAndPrintPDF_ignores_print (env : CreateEnv) (text : string)
  (printer : Printer) :
  fst (createAndPrintPDF env text printer)
  = Some (forallb succeeded
            [ writeInput env; enscript env; ps2pdf env;
              unlinkInput env; unlinkPs env; unlinkPdf env ]).
Proof.
  destruct env as [st [?|] [?|] [?|] u1 u2 u3 penv]; runJob;
    try reflexivity.
  match goal with
  | |- context [awaitPrintPDFFile ?e ?f ?p ?s] =>
      destruct (awaitPrintPDFFile_run e f p s) as [r ->]
  end.
  destruct u1 as [?|]; runJob; [reflexivity |].
  destruct u2 as [?|]; runJob; [reflexivity |].
  destruct u3 as [?|]; runJob; reflexivity.
Qed.

Lemma suffix_here {A} (r : list A) : exists before, r = before ++ r.
Proof. now exists []. Qed.

Lemma suffix_cons {A} (x : A) (l r : list A) :
  (exists before, l = before ++ r) -> exists before, x :: l = before ++ r.
Proof. intros [b ->]. now exists (x :: b). Qed.

Ltac suffix := first [apply suffix_here | apply suffix_cons; suffix].

Ltac leaf :=
  runJob; rewrite ?awaitPrint_run; runJob;
  first [reflexivity | split; [reflexivity | suffix]].

(** X28.  [makeApiCallAndPrint] settles with [true] when nothing was thrown, and
    then only: a text response gives [true] whatever [printToEpson]
    answered.  When something was thrown it settles with [false] after
    handing [printToEpson] the text [Error: ] followed by the message; a
    throw of the [finally] block replaces the one of the [try] block. *)
Theorem makeApiCallAndPrint_reports (env : ApiEnv) (barcode : string)
  (printer : Printer) :
  match reported env with
  | None => fst (makeApiCallAndPrint env barcode printer) = Some true
  | Some message =>
      fst (makeApiCallAndPrint env barcode printer) = Some false /\
      exists before,
        snd (makeApiCallAndPrint env barcode printer)
        = before ++ Suspend ::
            map Device
              (snd (printToEpson (errorPrintEnv env)
                      (String.append "Error: " message) printer))
  end.
Proof.
  destruct env as [http now wt dopen winit rtemp pdfo wtext wff wend dclose
                   texists utemp tenv eenv].
  destruct http as [m|r]; [leaf |].
  runJob. destruct (isPdfResponse r); [| leaf].
  destruct wt as [?|]; [leaf |].
  destruct texists; [destruct utemp as [?|] |].
  all: destruct dopen as [?|]; [leaf |].
  all: destruct winit as [?|]; [leaf |].
  all: destruct rtemp as [?|]; [leaf |].
  all: destruct pdfo as [?|?]; [leaf |].
  all: destruct wtext as [?|]; [leaf |].
  all: destruct wff as [?|]; [leaf |].
  all: destruct wend as [?|]; [leaf |].
  all: destruct dclose as [?|]; leaf.
Qed.

Ltac inLog := first [left; reflexivity | right; inLog].

Ltac cleanupLeaf :=
  runJob; rewrite ?awaitPrint_run; runJob;
  split; [inLog | intros Ht; first [discriminate Ht | inLog]].

(** Descriptors of the device opened and closed in a log. *)
Fixpoint opens (log : list JobEvent) : nat :=
  match log with
  | [] => 0
  | Device (OpenSync _ true) :: rest => S (opens rest)
  | _ :: rest => opens rest
  end.

Fixpoint closes (log : list JobEvent) : nat :=
  match log with
  | [] => 0
  | Device (CloseSync _) :: rest => S (closes rest)
  | _ :: rest => closes rest
  end.

(** [printToEpson] never closes more descriptors than it opened. *)
Lemma printToEpson_closes_le_opens (env : IoEnv) (text : string)
  (printer : Printer) :
  closes (map Device (snd (printToEpson env text printer)))
  <= opens (map Device (snd (printToEpson env text printer))).
Proof.
  assert (H : forall log, snd (printToEpson env text printer) = log ->
                          closes (map Device log) <= opens (map Device log)).
  { intro log. DispatcherProps.ioCases env printer; intros <-;
      cbn [map opens closes]; lia. }
  now apply H.
Qed.

Ltac leakLeaf :=
  runJob; rewrite ?awaitPrint_run; runJob;
  cbn [opens closes];
  match goal with
  | |- context [printToEpson ?e ?t ?p] =>
      pose proof (printToEpson_closes_le_opens e t p)
  end; lia.

Definition receiptPrinter : Printer :=
  mkPrinter "TM-T88V" "04b8" "0202" "/dev/usb/lp0".

Definition deviceUp : IoEnv :=
  mkIoEnv (fun _ => true) (fun _ => true) true true true (Some true) true
          "11/3/2026, 10:00:00 AM" "11/3/2026, 10:00:01 AM".

Definition pdfResponse : Response :=
  mkResponse (Some "application/pdf") [37; 80; 68; 70]%Z "%PDF".

(** A PDF arrives and is saved, the device opens, and then the parser
    rejects the file. *)
Definition parserRejects : ApiEnv :=
  mkApiEnv (inr pdfResponse) 1700000000000 None None None None
           (inl "Invalid PDF structure") None None None None
           true None deviceUp deviceUp.

(** X29.  Once the PDF has been saved, the [finally] block runs however the
    [try] block ends: the temporary file is looked for, and removed when it
    is there. *)
Theorem makeApiCallAndPrint_cleanup (env : ApiEnv) (barcode : string)
  (printer : Printer) (response : Response) :
  httpOutcome env = inr response ->
  isPdfResponse response = true ->
  writeTemp env = None ->
  In (FileExistsSync (tempPdfPath env) (tempExists env))
     (snd (makeApiCallAndPrint env barcode printer))
  /\ (tempExists env = true ->
      In (UnlinkSync (tempPdfPath env) (succeeded (unlinkTemp env)))
         (snd (makeApiCallAndPrint env barcode printer))).
Proof.
  destruct env as [http now wt dopen winit rtemp pdfo wtext wff wend dclose
                   texists utemp tenv eenv].
  cbn [httpOutcome writeTemp tempExists unlinkTemp].
  intros -> Hpdf ->.
  set (path := tempPdfPath _).
  runJob. rewrite Hpdf.
  destruct texists; [destruct utemp as [?|] |].
  all: destruct dopen as [?|]; [cleanupLeaf |].
  all: destruct winit as [?|]; [cleanupLeaf |].
  all: destruct rtemp as [?|]; [cleanupLeaf |].
  all: destruct pdfo as [?|?]; [cleanupLeaf |].
  all: destruct wtext as [?|]; [cleanupLeaf |].
  all: destruct wff as [?|]; [cleanupLeaf |].
  all: destruct wend as [?|]; [cleanupLeaf |].
  all: destruct dclose as [?|]; cleanupLeaf.
Qed.

Lemma makeApiCallAndPrint_cleanup_witness :
  In (FileExistsSync (tempPdfPath parserRejects) true)
     (snd (makeApiCallAndPrint parserRejects "4006381333931" receiptPrinter))
  /\ In (UnlinkSync (tempPdfPath parserRejects) true)
        (snd (makeApiCallAndPrint parserRejects "4006381333931" receiptPrinter)).
Proof.
  destruct (makeApiCallAndPrint_cleanup parserRejects "4006381333931"
              receiptPrinter pdfResponse) as [H1 H2];
    [reflexivity | reflexivity | reflexivity |].
  split; [exact H1 | exact (H2 eq_refl)].
Defined.

(** X30.  When the device was opened for a PDF and a later step of the [try]
    block throws before [closeSync], the descriptor is never closed: the
    job ends with more descriptors opened than closed. *)
Theorem makeApiCallAndPrint_leaks_descriptor (env : ApiEnv)
  (barcode : string) (printer : Printer) (response : Response)
  (message : string) :
  httpOutcome env = inr response ->
  isPdfResponse response = true ->
  writeTemp env = None ->
  devOpen env = None ->
  firstThrown
    [ writeInit env; readTemp env; outcomeOf (pdfOutcome env);
      writeText env; writeFormFeed env; writeEnd env ] = Some message ->
  closes (snd (makeApiCallAndPrint env barcode printer))
  < opens (snd (makeApiCallAndPrint env barcode printer)).
Proof.
  destruct env as [http now wt dopen winit rtemp pdfo wtext wff wend dclose
                   texists utemp tenv eenv].
  cbn [httpOutcome writeTemp devOpen writeInit readTemp pdfOutcome writeText
       writeFormFeed writeEnd].
  intros -> Hpdf -> -> Hthrown.
  runJob. rewrite Hpdf.
  destruct texists; [destruct utemp as [?|] |].
  all: destruct winit as [?|]; [leakLeaf |].
  all: destruct rtemp as [?|]; [leakLeaf |].
  all: destruct pdfo as [?|?]; [leakLeaf |].
  all: destruct wtext as [?|]; [leakLeaf |].
  all: destruct wff as [?|]; [leakLeaf |].
  all: destruct wend as [?|]; [leakLeaf |].
  all: discriminate Hthrown.
Qed.

Lemma makeApiCallAndPrint_leaks_descriptor_witness :
  closes (snd (makeApiCallAndPrint parserRejects "4006381333931"
                 receiptPrinter))
  < opens (snd (makeApiCallAndPrint parserRejects "4006381333931"
                  receiptPrinter)).
Proof.
  apply (makeApiCallAndPrint_leaks_descriptor parserRejects "4006381333931"
           receiptPrinter pdfResponse "Invalid PDF structure");
    reflexivity.
Defined.

End JobsProps.
